(** * lrm_paper_analyzer: arXiv PDF downloader and image extractor

    A shallow embedding of [lrm_paper_analyzer.py] and the properties its
    specification states about it.

    Layout of the development:
    - [PyStr]     Python [str] values as lists of code points, the string
                  methods and the three regular expressions the program uses;
    - [Resolver]  [parse_arxiv_url], [extract_arxiv_id], [sanitize_filename];
    - [Title]     [extract_title_from_markdown];
    - [Fs]        a tree model of the file system with the [os] / [shutil]
                  calls of the program;
    - [Pipeline]  the effectful functions, written in a state-and-exception
                  monad over the file system and a trace of external calls. *)

From Stdlib Require Import List Bool NArith ZArith String Ascii Lia.
From Stdlib Require QArith.
Import ListNotations.

Set Implicit Arguments.

(* ================================================================== *)
(** * Python strings *)
(* ================================================================== *)

Module PyStr.

(** A Python [str] is a sequence of Unicode code points. *)
Definition char := N.
Definition str := list char.

(** A string literal of the source, as code points (literals are ASCII). *)
Definition py (s : string) : str := map N_of_ascii (list_ascii_of_string s).

Definition str_eqb (a b : str) : bool :=
  if list_eq_dec N.eq_dec a b then true else false.

(** The character tables of the interpreter outside ASCII.  The program
    reads them through [str.strip], [str.lower], [str.isupper] and the
    regular-expression class [\w]; they are a parameter of the model.  The
    only law used is that an alphanumeric code point is not white space
    (the two are disjoint general categories). *)
Record unicode_db : Type := UnicodeDb {
  uni_isalnum : char -> bool;
  uni_isspace : char -> bool;
  uni_isupper : char -> bool;
  uni_lower : char -> str;
  uni_alnum_not_space :
    forall c, uni_isalnum c = true -> uni_isspace c = false
}.

(** The tables that classify no code point above ASCII and leave them
    unchanged by [lower]; used to run the model on ASCII text. *)
Definition ascii_only : unicode_db :=
  @UnicodeDb (fun _ => false) (fun _ => false) (fun _ => false)
             (fun c => [c]) (fun _ H => eq_refl).

Definition between (lo hi c : N) : bool := (lo <=? c)%N && (c <=? hi)%N.

Definition is_ascii (c : char) : bool := (c <? 128)%N.

Definition ascii_isalnum (c : char) : bool :=
  between 48 57 c || between 65 90 c || between 97 122 c.

(** [str.isspace] on ASCII: TAB, LF, VT, FF, CR, the four separators
    FS GS RS US, and SPACE. *)
Definition ascii_isspace (c : char) : bool :=
  between 9 13 c || between 28 32 c.

Section Tables.
Context (U : unicode_db).

Definition isalnum (c : char) : bool :=
  if is_ascii c then ascii_isalnum c else uni_isalnum U c.

Definition isspace (c : char) : bool :=
  if is_ascii c then ascii_isspace c else uni_isspace U c.

Definition isupper (c : char) : bool :=
  if is_ascii c then between 65 90 c else uni_isupper U c.

Definition lower_char (c : char) : str :=
  if is_ascii c then [if between 65 90 c then (c + 32)%N else c]
  else uni_lower U c.

(** [s.lower()] *)
Definition lower (s : str) : str := flat_map lower_char s.

(** [\w] of a [str] pattern: alphanumeric or underscore. *)
Definition is_word (c : char) : bool := isalnum c || (c =? 95)%N.

End Tables.

(** ** Slices, prefixes, searching *)

Fixpoint dropwhile (p : char -> bool) (s : str) : str :=
  match s with
  | [] => []
  | c :: s' => if p c then dropwhile p s' else s
  end.

Fixpoint takewhile (p : char -> bool) (s : str) : str :=
  match s with
  | [] => []
  | c :: s' => if p c then c :: takewhile p s' else []
  end.

(** [s.strip(chars)] with the character set given as a predicate. *)
Definition strip_by (p : char -> bool) (s : str) : str :=
  rev (dropwhile p (rev (dropwhile p s))).

(** [s.strip()] *)
Definition strip (U : unicode_db) (s : str) : str := strip_by (isspace U) s.

(** [s.startswith(prefix)] *)
Fixpoint startswith (prefix s : str) : bool :=
  match prefix, s with
  | [], _ => true
  | _ :: _, [] => false
  | a :: prefix', b :: s' => (a =? b)%N && startswith prefix' s'
  end.

(** [s.endswith(suffix)] *)
Definition endswith (suffix s : str) : bool :=
  startswith (rev suffix) (rev s).

(** [needle in hay] *)
Fixpoint contains (needle hay : str) : bool :=
  startswith needle hay ||
  match hay with
  | [] => false
  | _ :: hay' => contains needle hay'
  end.

(** [s.count(c)] for a one-character argument. *)
Definition count_char (c : char) (s : str) : nat :=
  List.length (filter (N.eqb c) s).

(** [s.split('\n')] *)
Fixpoint split_lines_aux (cur : str) (s : str) : list str :=
  match s with
  | [] => [rev cur]
  | c :: s' =>
      if (c =? 10)%N then rev cur :: split_lines_aux [] s'
      else split_lines_aux (c :: cur) s'
  end.

Definition split_lines (s : str) : list str := split_lines_aux [] s.

(** [s[:-n]] *)
Definition drop_last (n : nat) (s : str) : str :=
  firstn (List.length s - n) s.

(** [os.path.splitext(name)[0]] on a single path component: the name is
    cut at its last dot unless only dots precede it. *)
Fixpoint last_dot_cut (seen_nondot : bool) (s : str) : option str :=
  match s with
  | [] => None
  | c :: s' =>
      match last_dot_cut (seen_nondot || negb (c =? 46)%N) s' with
      | Some root => Some (c :: root)
      | None =>
          if (c =? 46)%N && seen_nondot then Some [] else None
      end
  end.

Definition splitext_root (name : str) : str :=
  match last_dot_cut false name with
  | Some root => root
  | None => name
  end.

End PyStr.

(* ================================================================== *)
(** * Reference resolver and file-name sanitisation *)
(* ================================================================== *)

Module Resolver.
Import PyStr.

(** Consume a literal at the head of the subject. *)
Fixpoint match_lit (lit s : str) : option str :=
  match lit, s with
  | [], _ => Some s
  | _ :: _, [] => None
  | a :: lit', b :: s' => if (a =? b)%N then match_lit lit' s' else None
  end.

(** Consume an optional character ([c?]). *)
Definition match_opt_char (c : char) (s : str) : str :=
  match s with
  | b :: s' => if (b =? c)%N then s' else s
  | [] => s
  end.

Section WithTables.
Context (U : unicode_db).

(** The class [[\w.\-]] of the identifier group. *)
Definition id_char (c : char) : bool :=
  is_word U c || (c =? 46)%N || (c =? 45)%N.

(** [re.match(r"https?://arxiv\.org/<kind>/(?P<id>[\w.\-]+)", s)] and,
    for [kind = pdf], the same pattern followed by [(?:\.pdf)?]; the result
    is the group [id].  [re.match] anchors at the start of the subject only.
    The group is greedy, so it takes the longest run of class characters;
    the optional tail [(?:\.pdf)?] is then tried where the run stopped, on a
    character outside the class (or at the end), so it matches the empty
    string and the group is never shortened by backtracking.  The only other
    choice point, [s?], cannot be undone either: after [http] without [s]
    the pattern wants [:] where the subject has [s]. *)
Definition re_match_arxiv (kind : str) (s : str) : option str :=
  match match_lit (py "http") s with
  | None => None
  | Some r1 =>
      match match_lit (py "://arxiv.org/" ++ kind ++ py "/")
                      (match_opt_char 115%N r1) with
      | None => None
      | Some r2 =>
          match takewhile id_char r2 with
          | [] => None
          | id => Some id
          end
      end
  end.

Definition parse_arxiv_url (arxiv_link : str) : option str :=
  let arxiv_link := strip U arxiv_link in
  match re_match_arxiv (py "abs") arxiv_link with
  | Some arxiv_id => Some (py "https://arxiv.org/pdf/" ++ arxiv_id ++ py ".pdf")
  | None =>
      match re_match_arxiv (py "pdf") arxiv_link with
      | Some arxiv_id =>
          if endswith (py ".pdf") arxiv_id
          then Some (py "https://arxiv.org/pdf/" ++ arxiv_id)
          else Some (py "https://arxiv.org/pdf/" ++ arxiv_id ++ py ".pdf")
      | None => None
      end
  end.

Definition extract_arxiv_id (arxiv_link : str) : option str :=
  match re_match_arxiv (py "abs") arxiv_link with
  | Some arxiv_id => Some arxiv_id
  | None =>
      match re_match_arxiv (py "pdf") arxiv_link with
      | Some arxiv_id =>
          if endswith (py ".pdf") arxiv_id
          then Some (drop_last 4 arxiv_id)
          else Some arxiv_id
      | None => None
      end
  end.

(** The class [[^\w\-\.]] of [sanitize_filename] is the complement of this
    one. *)
Definition safe_char (c : char) : bool :=
  is_word U c || (c =? 45)%N || (c =? 46)%N.

(** [re.sub(r"[^\w\-\.]+", "_", name)]: every maximal run of characters
    outside the safe class becomes one underscore.  [in_run] tells that the
    previous character was part of such a run. *)
Fixpoint sub_unsafe_runs (in_run : bool) (name : str) : str :=
  match name with
  | [] => []
  | c :: rest =>
      if safe_char c then c :: sub_unsafe_runs false rest
      else if in_run then sub_unsafe_runs true rest
      else 95%N :: sub_unsafe_runs true rest
  end.

(** The argument of [.strip("._")]. *)
Definition dot_or_underscore (c : char) : bool :=
  (c =? 46)%N || (c =? 95)%N.

Definition sanitize_filename (name : str) : str :=
  strip_by dot_or_underscore (sub_unsafe_runs false name).

End WithTables.
End Resolver.

(* ================================================================== *)
(** * Title inference *)
(* ================================================================== *)

Module Title.
Import PyStr.

Definition heading_stoplist : list str :=
  [py "abstract"; py "introduction"; py "content"; py "table"; py "figure"].

Definition bold_stoplist : list str :=
  [py "abstract"; py "figure"; py "table"].

(** [for x in xs: ... return ...]: the first element on which the body
    returns decides. *)
Fixpoint first_some {A B : Type} (f : A -> option B) (xs : list A) : option B :=
  match xs with
  | [] => None
  | x :: xs' =>
      match f x with
      | Some y => Some y
      | None => first_some f xs'
      end
  end.

(** The non-greedy group of [\*\*(.*?)\*\*] once the opening stars are
    consumed: the shortest run without a newline that is followed by two
    stars; returns the run and what follows the closing stars. *)
Fixpoint bold_close (s : str) : option (str * str) :=
  if startswith (py "**") s then Some ([], skipn 2 s)
  else
    match s with
    | [] => None
    | c :: s' =>
        if (c =? 10)%N then None
        else
          match bold_close s' with
          | Some (m, r) => Some (c :: m, r)
          | None => None
          end
    end.

(** [re.findall(r'\*\*(.*?)\*\*', s)]: matches are searched left to right
    and do not overlap.  The fuel bounds the number of scan steps; the
    length of the subject is always enough, every step consumes a
    character. *)
Fixpoint findall_bold_fuel (fuel : nat) (s : str) : list str :=
  match fuel with
  | O => []
  | S fuel' =>
      match s with
      | [] => []
      | _ :: s' =>
          if startswith (py "**") s then
            match bold_close (skipn 2 s) with
            | Some (m, r) => m :: findall_bold_fuel fuel' r
            | None => findall_bold_fuel fuel' s'
            end
          else findall_bold_fuel fuel' s'
      end
  end.

Definition findall_bold (s : str) : list str :=
  findall_bold_fuel (List.length s) s.

Section WithTables.
Context (U : unicode_db).

(** [any(skip in text.lower() for skip in words)] *)
Definition has_stopword (words : list str) (text : str) : bool :=
  existsb (fun skip => contains skip (lower U text)) words.

(** Body of the first loop (method 1) on one line. *)
Definition heading_title (line : str) : option str :=
  let line := strip U line in
  if startswith (py "# ") line && (2 <? List.length line)%nat then
    let title := strip U (skipn 2 line) in
    if negb (has_stopword heading_stoplist title) then
      if (10 <? List.length title)%nat && (List.length title <? 200)%nat
      then Some title else None
    else None
  else None.

(** Body of the second loop (method 2) on one line. *)
Definition plain_title (line : str) : option str :=
  let line := strip U line in
  if negb (str_eqb line []) && negb (startswith (py "#") line)
     && negb (startswith (py "*") line) then
    if (20 <? List.length line)%nat && (List.length line <? 200)%nat
       && existsb (isupper U) line
       && negb (contains (py ":") (firstn 20 line))
       && (count_char 46%N line <? 3)%nat
    then Some line else None
  else None.

(** Body of the third loop (method 3) on one bold span. *)
Definition bold_title (m : str) : option str :=
  if (20 <? List.length m)%nat && (List.length m <? 200)%nat
     && negb (has_stopword bold_stoplist m)
  then Some m else None.

Definition extract_title_from_markdown (content : str) : str :=
  let lines := split_lines content in
  match first_some heading_title (firstn 50 lines) with
  | Some title => title
  | None =>
      match first_some plain_title (firstn 20 lines) with
      | Some line => line
      | None =>
          match first_some bold_title (findall_bold (firstn 2000 content)) with
          | Some m => m
          | None => []
          end
      end
  end.

End WithTables.
End Title.

(* ================================================================== *)
(** * File system *)
(* ================================================================== *)

Module Fs.
Import PyStr.

Definition bytes := list Byte.byte.

(** A path is the list of its components, from the directory the program
    runs in.  Components are file names: they hold no separator and are
    neither [.] nor [..].  The empty list is the empty string, which names
    nothing: [os.makedirs] refuses it, [os.path.exists] is false of it and
    [os.walk] yields nothing for it.  The other operations are given for
    paths of at least one component, the only ones the program hands
    them. *)
Definition path := list str.

(** A directory keeps its entries in the order [os.scandir] reports them. *)
#[warnings="-register-all"]
Inductive node : Type :=
| File (data : bytes)
| Dir (entries : list (str * node)).

(** The exceptions the program can meet; all derive from [Exception]. *)
Inductive exn : Type :=
| FileNotFoundError
| FileExistsError
| NotADirectoryError
| IsADirectoryError
| SameFileError
| OSError
| ZeroDivisionError
| ValueError
| UnboundLocalError (name : string)
| ImportError (module : string)
| RequestException
| CalledProcessError (stderr : str)
| RuntimeError (msg : string) (detail : str)
| LibraryError (what : string).

Inductive result (A : Type) : Type :=
| Ok (a : A)
| Raise (e : exn).
Arguments Ok {A} a.
Arguments Raise {A} e.

Fixpoint assoc (name : str) (es : list (str * node)) : option node :=
  match es with
  | [] => None
  | (k, v) :: es' => if str_eqb k name then Some v else assoc name es'
  end.

(** Replace the entry of that name, or add it at the end. *)
Fixpoint set_entry (name : str) (v : node) (es : list (str * node))
  : list (str * node) :=
  match es with
  | [] => [(name, v)]
  | (k, u) :: es' =>
      if str_eqb k name then (k, v) :: es' else (k, u) :: set_entry name v es'
  end.

Fixpoint remove_entry (name : str) (es : list (str * node))
  : list (str * node) :=
  match es with
  | [] => []
  | (k, u) :: es' =>
      if str_eqb k name then es' else (k, u) :: remove_entry name es'
  end.

Fixpoint lookup (n : node) (p : path) : option node :=
  match p with
  | [] => Some n
  | c :: p' =>
      match n with
      | File _ => None
      | Dir es =>
          match assoc c es with
          | Some child => lookup child p'
          | None => None
          end
      end
  end.

(** [os.path.exists], for a path of at least one component. *)
Definition exists_ (n : node) (p : path) : bool :=
  match lookup n p with Some _ => true | None => false end.

(** [os.path.exists]: the empty string names nothing. *)
Definition os_path_exists (n : node) (p : path) : bool :=
  match p with
  | [] => false
  | _ :: _ => exists_ n p
  end.

(** [os.path.isdir] *)
Definition isdir (n : node) (p : path) : bool :=
  match lookup n p with Some (Dir _) => true | _ => false end.

Definition isfile (n : node) (p : path) : bool :=
  match lookup n p with Some (File _) => true | _ => false end.

(** [os.path.join(d, name)] for a single component; joining the empty
    string names the directory itself. *)
Definition join (d : path) (name : str) : path :=
  match name with
  | [] => d
  | _ => d ++ [name]
  end.

(** [os.path.basename] *)
Definition basename (p : path) : str := last p [].

(** [os.path.dirname] *)
Definition dirname (p : path) : path := removelast p.

(** The path as the string handed to the external tool. *)
Fixpoint render (p : path) : str :=
  match p with
  | [] => []
  | [c] => c
  | c :: p' => c ++ 47%N :: render p'
  end.

(** A chain of fresh directories, one inside the other. *)
Fixpoint mkchain (p : path) : node :=
  match p with
  | [] => Dir []
  | c :: p' => Dir [(c, mkchain p')]
  end.

(** What [os.makedirs(p, exist_ok=True)] does to the tree along a path of
    at least one component: a directory already there is fine, a regular
    file at [p] or above it is an error.  A failure leaves the tree as it
    was: it can only come from a file on the way, above which every
    directory exists already. *)
Fixpoint makedirs_at (p : path) (n : node) : result node :=
  match n with
  | File _ =>
      match p with
      | [] => Raise FileExistsError
      | _ :: _ => Raise NotADirectoryError
      end
  | Dir es =>
      match p with
      | [] => Ok n
      | c :: p' =>
          match assoc c es with
          | Some child =>
              match makedirs_at p' child with
              | Ok child' => Ok (Dir (set_entry c child' es))
              | Raise e => Raise e
              end
          | None => Ok (Dir (es ++ [(c, mkchain p')]))
          end
      end
  end.

(** [os.makedirs(p, exist_ok=True)]: the empty string names nothing and
    is refused. *)
Definition os_makedirs (p : path) (n : node) : result node :=
  match p with
  | [] => Raise FileNotFoundError
  | _ :: _ => makedirs_at p n
  end.

(** [open(p, "wb")] followed by the writes: creates or truncates. *)
Fixpoint write_at (p : path) (data : bytes) (n : node) : result node :=
  match p with
  | [] =>
      match n with
      | File _ => Ok (File data)
      | Dir _ => Raise IsADirectoryError
      end
  | c :: p' =>
      match n with
      | File _ => Raise NotADirectoryError
      | Dir es =>
          match assoc c es with
          | Some child =>
              match write_at p' data child with
              | Ok child' => Ok (Dir (set_entry c child' es))
              | Raise e => Raise e
              end
          | None =>
              match p' with
              | [] => Ok (Dir (es ++ [(c, File data)]))
              | _ :: _ => Raise FileNotFoundError
              end
          end
      end
  end.

(** [open(p, "rb").read()] *)
Definition read_at (p : path) (n : node) : result bytes :=
  match lookup n p with
  | Some (File data) => Ok data
  | Some (Dir _) => Raise IsADirectoryError
  | None => Raise FileNotFoundError
  end.

(** [os.listdir] *)
Definition listdir_at (p : path) (n : node) : result (list str) :=
  match lookup n p with
  | Some (Dir es) => Ok (map fst es)
  | Some (File _) => Raise NotADirectoryError
  | None => Raise FileNotFoundError
  end.

(** [shutil.rmtree] *)
Fixpoint rmtree_at (p : path) (n : node) : result node :=
  match p with
  | [] => Raise OSError
  | c :: p' =>
      match n with
      | File _ => Raise NotADirectoryError
      | Dir es =>
          match assoc c es with
          | None => Raise FileNotFoundError
          | Some child =>
              match p' with
              | [] =>
                  match child with
                  | Dir _ => Ok (Dir (remove_entry c es))
                  | File _ => Raise NotADirectoryError
                  end
              | _ :: _ =>
                  match rmtree_at p' child with
                  | Ok child' => Ok (Dir (set_entry c child' es))
                  | Raise e => Raise e
                  end
              end
          end
      end
  end.

Definition dirnames (es : list (str * node)) : list str :=
  map fst (filter (fun e => match snd e with Dir _ => true | File _ => false end) es).

Definition filenames (es : list (str * node)) : list str :=
  map fst (filter (fun e => match snd e with Dir _ => false | File _ => true end) es).

(** [os.walk(root)], top-down: a directory is reported with the names of
    its sub-directories and of its files before its sub-directories are
    entered, in order. *)
Fixpoint walk (root : path) (n : node) : list (path * list str * list str) :=
  match n with
  | File _ => []
  | Dir es =>
      (root, dirnames es, filenames es) ::
      (fix walk_entries (l : list (str * node)) :=
         match l with
         | [] => []
         | (name, child) :: l' => walk (root ++ [name]) child ++ walk_entries l'
         end) es
  end.

(** [os.walk] yields nothing when its argument is not a directory; the
    empty string names none. *)
Definition walk_from (n : node) (top : path) : list (path * list str * list str) :=
  match top with
  | [] => []
  | _ :: _ =>
      match lookup n top with
      | Some sub => walk top sub
      | None => []
      end
  end.

End Fs.

(* ================================================================== *)
(** * The pipeline *)
(* ================================================================== *)

Module Pipeline.
Import PyStr Fs Resolver Title.

(** ** The outside of the program *)

Inductive enhancer : Type := Sharpness | Contrast | Color.

(** What [requests.get], [raise_for_status] and the iteration over
    [iter_content] do: the request fails before the destination is opened,
    or the iteration yields chunks one after the other, and then ends or
    raises.  Bytes the library has received but not yet yielded as a chunk
    when it raises are no part of [chunks]. *)
Inductive http_response : Type :=
| HttpError (e : exn)
| HttpBody (chunks : list bytes) (broken : option exn).

(** What [subprocess.run(cmd, check=True, ...)] does: the binary is not
    found, or it runs and leaves the tree in some state, with a zero or a
    non-zero exit status. *)
Inductive tool_outcome : Type :=
| ToolNotFound
| ToolFailed (stderr : str) (after : node)
| ToolDone (after : node).

(** The libraries and services the program calls, as a parameter: the
    imaging library over an abstract type of images, the network, the
    external tool, the size [stat] reports for a directory, and the
    decoding of a transcript ([encoding='utf-8', errors='ignore']). *)
Record externals : Type := Externals {
  image : Type;
  has_pil : bool;
  has_cv2 : bool;
  pil_open : bytes -> result image;
  pil_is_rgb : image -> bool;
  pil_convert_rgb : image -> result image;
  pil_size : image -> Z * Z;
  pil_resize_lanczos : image -> Z * Z -> result image;
  cv2_upscale_sharpen : image -> result image;
  pil_enhance : enhancer -> QArith_base.Q -> image -> result image;
  pil_filter_smooth : image -> result image;
  pil_save_png : image -> result bytes;
  http_get : str -> http_response;
  run_tool : list str -> node -> tool_outcome;
  dir_st_size : list (str * node) -> Z;
  utf8_decode : bytes -> str
}.

(** ** State and exceptions *)

Inductive event : Type :=
| EvHttpGet (url : str)
| EvTool (cmd : list str).

(** The file system and the external calls made so far, oldest first. *)
Record world : Type := World {
  fs : node;
  trace : list event
}.

Definition M (A : Type) : Type := world -> result A * world.

Definition ret {A : Type} (a : A) : M A := fun w => (Ok a, w).

Definition raise {A : Type} (e : exn) : M A := fun w => (Raise e, w).

Definition bind {A B : Type} (m : M A) (k : A -> M B) : M B :=
  fun w =>
    match m w with
    | (Ok a, w') => k a w'
    | (Raise e, w') => (Raise e, w')
    end.

(** [try: m  except Exception as e: h e] *)
Definition try_except {A : Type} (m : M A) (h : exn -> M A) : M A :=
  fun w =>
    match m w with
    | (Ok a, w') => (Ok a, w')
    | (Raise e, w') => h e w'
    end.

Declare Scope py_scope.
Delimit Scope py_scope with py.
Notation "x <- m ;; k" := (bind m (fun x => k))
  (at level 61, m at next level, right associativity) : py_scope.
Notation "m ;;; k" := (bind m (fun _ => k))
  (at level 61, right associativity) : py_scope.
Open Scope py_scope.

Definition lift {A : Type} (r : result A) : M A := fun w => (r, w).

Definition get_fs : M node := fun w => (Ok (fs w), w).

Definition update_fs (f : node -> result node) : M unit :=
  fun w =>
    match f (fs w) with
    | Ok n => (Ok tt, World n (trace w))
    | Raise e => (Raise e, w)
    end.

Definition emit (ev : event) : M unit :=
  fun w => (Ok tt, World (fs w) (trace w ++ [ev])).

(** ** [os] and [shutil] *)

Definition makedirs (p : path) : M unit := update_fs (os_makedirs p).
Definition write_file (p : path) (data : bytes) : M unit :=
  update_fs (write_at p data).
Definition read_file (p : path) : M bytes :=
  n <- get_fs ;; lift (read_at p n).
Definition listdir (p : path) : M (list str) :=
  n <- get_fs ;; lift (listdir_at p n).
Definition rmtree (p : path) : M unit := update_fs (rmtree_at p).
Definition path_exists (p : path) : M bool :=
  n <- get_fs ;; ret (os_path_exists n p).

(** [shutil.copy2(src, dst)]: into [dst] when it is a directory, refusing
    to copy a file onto itself. *)
Definition copy2 (src dst : path) : M unit :=
  n <- get_fs ;;
  let dst := if isdir n dst then join dst (basename src) else dst in
  if exists_ n src && exists_ n dst
     && (if list_eq_dec (list_eq_dec N.eq_dec) src dst then true else false)
  then raise SameFileError
  else data <- read_file src ;; write_file dst data.

Section WithOutside.
Context (U : unicode_db) (X : externals).

(** [os.path.getsize] *)
Definition getsize (p : path) : M Z :=
  n <- get_fs ;;
  match lookup n p with
  | Some (File data) => ret (Z.of_nat (List.length data))
  | Some (Dir es) => ret (dir_st_size X es)
  | None => raise FileNotFoundError
  end.

(** ** [download_file] *)

(** [if chunk:] *)
Definition nonempty_chunk (chunk : bytes) : bool :=
  match chunk with [] => false | _ :: _ => true end.

(** The destination is opened for writing, which creates or truncates it,
    and every chunk that is not empty is written as it is yielded. *)
Definition download_file (url : str) (dest_path : path) : M unit :=
  makedirs (dirname dest_path) ;;;
  emit (EvHttpGet url) ;;;
  match http_get X url with
  | HttpError e => raise e
  | HttpBody chunks broken =>
      write_file dest_path (List.concat (filter nonempty_chunk chunks)) ;;;
      match broken with
      | Some e => raise e
      | None => ret tt
      end
  end.

(** ** Image enhancement *)

(** [apply_cv2_super_resolution]: any exception of the OpenCV steps is
    turned into [None]. *)
Definition apply_cv2_super_resolution (pil_img : image X) : option (image X) :=
  match cv2_upscale_sharpen X pil_img with
  | Ok result_pil => Some result_pil
  | Raise _ => None
  end.

(** [apply_image_enhancement]: the four steps rebind [img] one after the
    other; at the first exception the function returns [img] as it is
    bound then. *)
Definition apply_image_enhancement (img : image X) : image X :=
  match pil_enhance X Sharpness (QArith_base.Qmake 13 10) img with
  | Raise _ => img
  | Ok img1 =>
      match pil_enhance X Contrast (QArith_base.Qmake 115 100) img1 with
      | Raise _ => img1
      | Ok img2 =>
          match pil_enhance X Color (QArith_base.Qmake 105 100) img2 with
          | Raise _ => img2
          | Ok img3 =>
              match pil_filter_smooth X img3 with
              | Raise _ => img3
              | Ok img4 => img4
              end
          end
      end
  end.

(** [min(cap, int(np.sqrt(budget / original_size)))].  The quotient and the
    root are floating point in the source; for [0 < original_size < 10^6]
    and these budgets the truncated root is the integer square root of the
    integer quotient: a quotient below a perfect square [m*m] is below it by
    at least [1 / original_size], far more than a rounding error, and a
    quotient equal to one is computed exactly. *)
Definition upscale_factor (cap budget original_size : Z) : M Z :=
  if (original_size =? 0)%Z then raise ZeroDivisionError
  else if (original_size <? 0)%Z then raise ValueError
  else ret (Z.min cap (Z.sqrt (budget / original_size))).

(** [f"{os.path.splitext(dst_path)[0]}_enhanced.png"] *)
Definition enhanced_name (dst_path : path) : path :=
  dirname dst_path ++ [splitext_root (basename dst_path) ++ py "_enhanced.png"].

(** The body of the outer [try] of [enhance_image_quality]. *)
Definition enhance_try (src_path dst_path : path) : M path :=
  (* the imports: without OpenCV, [np] stays unbound *)
  (if has_pil X then ret tt else raise (ImportError "PIL")) ;;;
  data <- read_file src_path ;;
  img <- lift (pil_open X data) ;;
  img <- (if pil_is_rgb X img then ret img else lift (pil_convert_rgb X img)) ;;
  let (width, height) := pil_size X img in
  let original_size := (width * height)%Z in
  img <- (if (original_size <? 1000000)%Z then
            if has_cv2 X then
              match apply_cv2_super_resolution img with
              | Some enhanced_img => ret enhanced_img
              | None =>
                  scale <- upscale_factor 4 2000000 original_size ;;
                  lift (pil_resize_lanczos X img
                          (width * scale, height * scale)%Z)
              end
            else
              (* [np.sqrt] is evaluated first, and [np] is unbound *)
              raise (UnboundLocalError "np")
          else ret img) ;;
  let img := apply_image_enhancement img in
  let enhanced_path := enhanced_name dst_path in
  png <- lift (pil_save_png X img) ;;
  write_file enhanced_path png ;;;
  ret enhanced_path.

Definition enhance_image_quality (src_path dst_path : path) : M path :=
  try_except (enhance_try src_path dst_path)
    (fun _ => copy2 src_path dst_path ;;; ret dst_path).

(** ** [copy_images_to_output] *)

Definition image_suffixes : list str :=
  [py ".png"; py ".jpg"; py ".jpeg"; py ".gif"; py ".svg"].

(** [name.lower().endswith(('.png', '.jpg', '.jpeg', '.gif', '.svg'))] *)
Definition has_image_suffix (name : str) : bool :=
  existsb (fun suffix => endswith suffix (lower U name)) image_suffixes.

(** Truth value of a path string: the empty string is false. *)
Definition truthy (p : path) : bool :=
  match p with [] => false | _ :: _ => true end.

(** The body of the [try] of the copy loop for one file; returns the new
    value of [copied_count]. *)
Definition copy_one (src_path dst_path : path) (copied_count : Z) : M Z :=
  file_size <- getsize src_path ;;
  if (file_size <? 5000)%Z then ret copied_count
  else
    enhanced_path <- enhance_image_quality src_path dst_path ;;
    if truthy enhanced_path then
      final_size <- getsize enhanced_path ;;
      ret (copied_count + 1)%Z
    else
      copy2 src_path dst_path ;;;
      ret (copied_count + 1)%Z.

Fixpoint copy_loop (source_images_dir paper_output_dir : path)
  (names : list str) (copied_count : Z) : M Z :=
  match names with
  | [] => ret copied_count
  | image_file :: rest =>
      if has_image_suffix image_file then
        copied_count <-
          try_except
            (copy_one (join source_images_dir image_file)
                      (join paper_output_dir image_file) copied_count)
            (fun _ => ret copied_count) ;;
        copy_loop source_images_dir paper_output_dir rest copied_count
      else copy_loop source_images_dir paper_output_dir rest copied_count
  end.

Definition copy_images_to_output (source_images_dir output_dir : path)
  (paper_title : str) : M (Z * path) :=
  let paper_output_dir := join output_dir paper_title in
  makedirs paper_output_dir ;;;
  present <- path_exists source_images_dir ;;
  if negb present then ret (0%Z, paper_output_dir)
  else
    names <- listdir source_images_dir ;;
    copied_count <- copy_loop source_images_dir paper_output_dir names 0%Z ;;
    ret (copied_count, paper_output_dir).

(** ** Title recovery from the tool's output *)

Definition nonempty (s : str) : bool :=
  match s with [] => false | _ :: _ => true end.

(** The four conventional places of the transcript, then every [.md] file
    [os.walk] meets. *)
Definition possible_md_paths (n : node) (mineru_output : path)
  (pdf_name : str) : list path :=
  let md := pdf_name ++ py ".md" in
  [ join (join (join mineru_output pdf_name) (py "auto")) md;
    join (join mineru_output pdf_name) md;
    join (join mineru_output (py "auto")) md;
    join mineru_output md ]
  ++ flat_map (fun entry =>
                 match entry with
                 | (root, _, files) =>
                     map (join root) (filter (endswith (py ".md")) files)
                 end)
              (walk_from n mineru_output).

(** One turn of the loop over the candidate transcripts.  Reading and
    title inference sit in a [try] whose handler continues with the next
    candidate; so does the branch where no title was found, whose [print]
    raises on the unbound name [e]. *)
Definition title_from_transcript (n : node) (md_path : path) : option str :=
  if exists_ n md_path then
    match read_at md_path n with
    | Raise _ => None
    | Ok data =>
        let content := utf8_decode X data in
        let title := extract_title_from_markdown U content in
        if nonempty title && nonempty (strip U title)
        then Some (sanitize_filename U (strip U title))
        else None
    end
  else None.

Definition extract_title_from_mineru_output (mineru_output : path)
  (pdf_name : str) : M str :=
  n <- get_fs ;;
  match first_some (title_from_transcript n)
                   (possible_md_paths n mineru_output pdf_name) with
  | Some title => ret title
  | None => ret pdf_name
  end.

(** ** [extract_images_with_mineru] *)

Definition mineru_command (pdf_path mineru_output : path) (lang : str)
  : list str :=
  [ py "mineru"; py "-p"; render pdf_path; py "-o"; render mineru_output;
    py "-m"; py "auto"; py "--render-dpi"; py "1200";
    py "--image-dpi"; py "1200"; py "--image-quality"; py "100";
    py "--keep-vector"; py "--no-compress" ]
  ++ (if nonempty lang then [py "--lang"; lang] else []).

(** The process itself: the binary is not found, or it runs and leaves
    the tree in some state with a zero or a non-zero exit status. *)
Definition run_mineru (cmd : list str) : M unit :=
  fun w =>
    match run_tool X cmd (fs w) with
    | ToolNotFound => (Raise FileNotFoundError, w)
    | ToolFailed stderr after =>
        (Raise (CalledProcessError stderr), World after (trace w))
    | ToolDone after => (Ok tt, World after (trace w))
    end.

(** [subprocess.run(cmd, check=True, capture_output=True, text=True)] *)
Definition subprocess_run (cmd : list str) : M unit :=
  emit (EvTool cmd) ;;; run_mineru cmd.

(** The two [except] clauses around the call of the tool; any other
    exception passes. *)
Definition tool_error (exc : exn) : M unit :=
  match exc with
  | FileNotFoundError => raise (RuntimeError "MinerU CLI not found" [])
  | CalledProcessError stderr => raise (RuntimeError "MinerU failed" stderr)
  | _ => raise exc
  end.

Definition possible_paths (mineru_output : path) (pdf_name : str)
  : list path :=
  [ join (join (join mineru_output pdf_name) (py "auto")) (py "images");
    join (join mineru_output pdf_name) (py "images");
    join (join mineru_output (py "auto")) (py "images");
    join mineru_output (py "images") ].

(** The recursive search: the first directory [os.walk] reports that has
    a sub-directory named [images]. *)
Definition walk_for_images (n : node) (mineru_output : path) : option path :=
  first_some (fun entry =>
                match entry with
                | (root, dirs, _) =>
                    if existsb (str_eqb (py "images")) dirs
                    then Some (join root (py "images")) else None
                end)
             (walk_from n mineru_output).

(** The second half of [extract_images_with_mineru], from the comment
    that starts the search for the images directory: what the function does
    once the tool has run. *)
Definition locate_images (mineru_output output_dir : path) (pdf_name : str)
  : M (path * str) :=
  n <- get_fs ;;
  let images_dir := find (exists_ n) (possible_paths mineru_output pdf_name) in
  let images_dir :=
    match images_dir with
    | Some p => Some p
    | None => walk_for_images n mineru_output
    end in
  match images_dir with
  | Some images_dir =>
      if exists_ n images_dir then
        image_files <- listdir images_dir ;;
        paper_title <- extract_title_from_mineru_output mineru_output pdf_name ;;
        ret (images_dir, paper_title)
      else
        let images_dir := join output_dir (py "images") in
        makedirs images_dir ;;;
        ret (images_dir, pdf_name)
  | None =>
      let images_dir := join output_dir (py "images") in
      makedirs images_dir ;;;
      ret (images_dir, pdf_name)
  end.

Definition extract_images_with_mineru (pdf_path output_dir : path)
  (lang : str) : M (path * str) :=
  let mineru_output := join output_dir (py "mineru_output") in
  makedirs mineru_output ;;;
  let cmd := mineru_command pdf_path mineru_output lang in
  try_except (subprocess_run cmd) tool_error ;;;
  let pdf_name := splitext_root (basename pdf_path) in
  locate_images mineru_output output_dir pdf_name.

(** ** [process_arxiv_paper] and [main] *)

(** The second half of the [try] of [process_arxiv_paper]: what it does
    with the result of the extraction. *)
Definition stage_outputs (output_dir tmp_dir pdf_path : path)
  (safe_paper_id : str) (extracted : path * str) : M bool :=
  let (images_dir, paper_title) := extracted in
  let paper_title :=
    if negb (nonempty paper_title)
       || str_eqb paper_title (splitext_root (basename pdf_path))
    then safe_paper_id else paper_title in
  copied <- copy_images_to_output images_dir output_dir paper_title ;;
  let (copied_count, paper_output_dir) := copied in
  let output_pdf_path :=
    join paper_output_dir (sanitize_filename U paper_title ++ py ".pdf") in
  copy2 pdf_path output_pdf_path ;;;
  try_except (rmtree tmp_dir) (fun _ => ret tt) ;;;
  ret true.

(** The body of the [try] of [process_arxiv_paper]. *)
Definition process_try (arxiv_url : str) (output_dir : path) : M bool :=
  match parse_arxiv_url U arxiv_url with
  | None | Some [] => ret false
  | Some pdf_url =>
      match extract_arxiv_id U arxiv_url with
      | None | Some [] => ret false
      | Some paper_id =>
          makedirs output_dir ;;;
          let tmp_dir := join output_dir (py ".tmp") in
          makedirs tmp_dir ;;;
          let safe_paper_id := sanitize_filename U paper_id in
          let pdf_path := join tmp_dir (safe_paper_id ++ py ".pdf") in
          download_file pdf_url pdf_path ;;;
          extracted <- extract_images_with_mineru pdf_path tmp_dir (py "en") ;;
          stage_outputs output_dir tmp_dir pdf_path safe_paper_id extracted
      end
  end.

Definition process_arxiv_paper (arxiv_url : str) (output_dir : path) : M bool :=
  try_except (process_try arxiv_url output_dir) (fun _ => ret false).

(** [main], from the parsed arguments to the exit status: what follows
    [args = parser.parse_args()].  The parser's own exits, for a command
    line it refuses and for [--help], happen before and are no part of
    this definition. *)
Definition main (url arxiv_url : option str) (output : path) : M Z :=
  let arxiv_url :=
    match url with
    | Some (c :: u) => Some (c :: u)
    | _ => arxiv_url
    end in
  match arxiv_url with
  | Some (c :: u) =>
      success <- process_arxiv_paper (c :: u) output ;;
      ret (if success then 0%Z else 1%Z)
  | _ => ret 1%Z
  end.

End WithOutside.
End Pipeline.

(* ================================================================== *)
(** * A small outside world to run the model in *)
(* ================================================================== *)

Module Toy.
Import PyStr Fs Pipeline.

(** An image is its size and the operations applied to it. *)
Record toy_image : Type := ToyImage {
  width : Z;
  height : Z;
  history : list string
}.

Definition byte_val (b : Byte.byte) : Z := Z.of_N (Byte.to_N b).

(** A file is an image when it starts with the byte [P]; the next two
    bytes give its width and height in tens of pixels. *)
Definition toy_open (data : bytes) : result toy_image :=
  match data with
  | Byte.x50 :: w :: h :: _ =>
      Ok (ToyImage (10 * byte_val w) (10 * byte_val h) [])
  | _ => Raise (LibraryError "cannot identify image file")
  end.

Definition toy_step (name : string) (img : toy_image) : toy_image :=
  ToyImage (width img) (height img) (history img ++ [name]).

(** The encoder writes a signature byte, the size in tens of pixels and
    the number of operations applied. *)
Definition toy_save (img : toy_image) : result bytes :=
  match Byte.of_N (Z.to_N (width img / 10)),
        Byte.of_N (Z.to_N (height img / 10)),
        Byte.of_N (N.of_nat (List.length (history img))) with
  | Some w, Some h, Some k => Ok [Byte.x89; w; h; k]
  | _, _, _ => Raise (LibraryError "image too large to encode")
  end.

Definition toy_decode (data : bytes) : str := map Byte.to_N data.

(** [cv2] tells whether OpenCV can be imported, [cv2_works] whether its
    steps succeed, [enhancers_work] whether the enhancement filters do. *)
Definition toy (cv2 cv2_works enhancers_work : bool)
  (tool : list str -> node -> tool_outcome) : externals :=
  {| image := toy_image;
     has_pil := true;
     has_cv2 := cv2;
     pil_open := toy_open;
     pil_is_rgb := fun _ => true;
     pil_convert_rgb := fun img => Ok img;
     pil_size := fun img => (width img, height img);
     pil_resize_lanczos := fun img size =>
       Ok (ToyImage (fst size) (snd size) (history img ++ ["lanczos"%string]));
     cv2_upscale_sharpen := fun img =>
       if cv2_works
       then Ok (ToyImage (2 * width img) (2 * height img)
                         (history img ++ ["cv2"%string]))
       else Raise (LibraryError "cv2.resize failed");
     pil_enhance := fun _ _ img =>
       if enhancers_work then Ok (toy_step "enhance" img)
       else Raise (LibraryError "out of memory");
     pil_filter_smooth := fun img =>
       if enhancers_work then Ok (toy_step "smooth" img)
       else Raise (LibraryError "out of memory");
     pil_save_png := toy_save;
     http_get := fun _ => HttpBody [[Byte.x25; Byte.x50; Byte.x44; Byte.x46]] None;
     run_tool := tool;
     dir_st_size := fun _ => 8192%Z;
     utf8_decode := toy_decode |}.

Definition tool_missing (cmd : list str) (n : node) : tool_outcome :=
  ToolNotFound.

(** A tool that succeeds and writes nothing. *)
Definition tool_silent (cmd : list str) (n : node) : tool_outcome :=
  ToolDone n.

(** A 100 x 100 image of 6000 bytes and one of 4000 bytes. *)
Definition picture (size : N) : bytes :=
  Byte.x50 :: Byte.x0a :: Byte.x0a :: repeat Byte.x00 (N.to_nat (size - 3)).

(** 6000 bytes that are no image. *)
Definition garbage : bytes := repeat Byte.xff (N.to_nat 6000).

(** An extraction result: a large directory whose name ends in [.png],
    a good figure, a small one, a malformed one, and a text file; next to
    it an empty output directory. *)
Definition images_tree : node :=
  Dir [ (py "images",
         Dir [ (py "trap.png", Dir []);
               (py "fig1.png", File (picture 6000));
               (py "icon.png", File (picture 4000));
               (py "broken.jpg", File garbage);
               (py "notes.txt", File garbage) ]);
        (py "out", Dir []) ].

(** Files of 4 KB and of 6 KB, in either reading of KB, under each of the
    accepted extensions. *)
Definition sizes_tree : node :=
  Dir [ (py "images",
         Dir [ (py "a.png", File (picture 4000));
               (py "b.JPG", File (picture 4096));
               (py "c.jpeg", File (picture 4000));
               (py "d.gif", File (picture 4096));
               (py "e.svg", File (picture 4000));
               (py "f.png", File (picture 6000));
               (py "g.jpg", File (picture 6144));
               (py "h.Jpeg", File (picture 6000));
               (py "i.gif", File (picture 6144));
               (py "j.SVG", File (picture 6000)) ]);
        (py "out", Dir []) ].

Definition start (n : node) : world := World n [].

End Toy.

(* ================================================================== *)
(** * Facts about strings *)
(* ================================================================== *)

Module PyStrFacts.
Import PyStr.

(** A string is clean for [p] when it does not start with a [p] character. *)
Definition clean (p : char -> bool) (s : str) : Prop :=
  match s with
  | [] => True
  | c :: _ => p c = false
  end.

Lemma dropwhile_clean p s : clean p (dropwhile p s).
Proof.
  induction s as [|c s IH]; simpl; [exact I|].
  destruct (p c) eqn:E; [exact IH | exact E].
Qed.

Lemma dropwhile_id p s : clean p s -> dropwhile p s = s.
Proof.
  destruct s as [|c s]; simpl; [reflexivity|].
  intros ->. reflexivity.
Qed.

Lemma dropwhile_split p s :
  exists a, s = a ++ dropwhile p s /\ Forall (fun c => p c = true) a.
Proof.
  induction s as [|c s (a & Ha & Fa)]; simpl.
  - exists []. split; [reflexivity | constructor].
  - destruct (p c) eqn:E.
    + exists (c :: a). split; [simpl; congruence | constructor; assumption].
    + exists []. split; [reflexivity | constructor].
Qed.

Lemma dropwhile_all p s :
  Forall (fun c => p c = true) s -> dropwhile p s = [].
Proof.
  induction 1 as [|c s Hc _ IH]; simpl; [reflexivity|].
  rewrite Hc. exact IH.
Qed.

Lemma dropwhile_app_clean p a s :
  Forall (fun c => p c = true) a -> clean p s -> dropwhile p (a ++ s) = s.
Proof.
  induction 1 as [|c a Hc _ IH]; simpl; intros Hs.
  - apply dropwhile_id, Hs.
  - rewrite Hc. apply IH, Hs.
Qed.

Lemma dropwhile_In p s c : In c s -> p c = false -> In c (dropwhile p s).
Proof.
  induction s as [|d s IH]; simpl; [tauto|].
  intros [->|Hin] Hc.
  - rewrite Hc. left. reflexivity.
  - destruct (p d); [apply IH; assumption | right; assumption].
Qed.

Lemma dropwhile_Forall (Q : char -> Prop) p s :
  Forall Q s -> Forall Q (dropwhile p s).
Proof.
  induction 1 as [|c s Hc Hs IH]; simpl; [constructor|].
  destruct (p c); [exact IH | constructor; assumption].
Qed.

Lemma clean_app_l p s t : clean p (s ++ t) -> s <> [] -> clean p s.
Proof. destruct s; simpl; [congruence | tauto]. Qed.

Lemma strip_by_clean p s : clean p (strip_by p s).
Proof.
  unfold strip_by.
  destruct (dropwhile_split p (rev (dropwhile p s))) as (a & Ha & _).
  remember (dropwhile p (rev (dropwhile p s))) as r eqn:Er.
  assert (Hy : dropwhile p s = rev r ++ rev a).
  { rewrite <- rev_app_distr, <- Ha, rev_involutive. reflexivity. }
  destruct (rev r) as [|c z] eqn:Ez; [exact I|].
  pose proof (dropwhile_clean p s) as Hc. rewrite Hy in Hc. exact Hc.
Qed.

Lemma strip_by_clean_rev p s : clean p (rev (strip_by p s)).
Proof.
  unfold strip_by. rewrite rev_involutive. apply dropwhile_clean.
Qed.

Lemma strip_by_id p s : clean p s -> clean p (rev s) -> strip_by p s = s.
Proof.
  intros H1 H2. unfold strip_by.
  rewrite (dropwhile_id p s H1), (dropwhile_id p (rev s) H2).
  apply rev_involutive.
Qed.

Lemma strip_by_idempotent p s : strip_by p (strip_by p s) = strip_by p s.
Proof.
  apply strip_by_id; [apply strip_by_clean | apply strip_by_clean_rev].
Qed.

Lemma strip_by_In p s c : In c s -> p c = false -> In c (strip_by p s).
Proof.
  intros Hin Hc. unfold strip_by.
  apply in_rev. rewrite rev_involutive.
  apply dropwhile_In; [|exact Hc].
  apply in_rev. rewrite rev_involutive.
  apply dropwhile_In; assumption.
Qed.

Lemma strip_by_Forall (Q : char -> Prop) p s :
  Forall Q s -> Forall Q (strip_by p s).
Proof.
  intros H. unfold strip_by.
  apply Forall_rev, dropwhile_Forall, Forall_rev, dropwhile_Forall, H.
Qed.

(** Stripping removes a run of [p] characters at either end of a string
    that is clean at both ends. *)
Lemma strip_by_surrounded p a s b :
  Forall (fun c => p c = true) a -> Forall (fun c => p c = true) b ->
  clean p s -> clean p (rev s) -> s <> [] ->
  strip_by p (a ++ s ++ b) = s.
Proof.
  intros Ha Hb Hs Hr Hne. unfold strip_by.
  rewrite dropwhile_app_clean; [|exact Ha|].
  - rewrite rev_app_distr, dropwhile_app_clean;
      [apply rev_involutive | apply Forall_rev, Hb | exact Hr].
  - destruct s; [congruence | exact Hs].
Qed.

(** ** Prefixes and substrings *)

Lemma startswith_spec prefix s :
  startswith prefix s = true <-> exists rest, s = prefix ++ rest.
Proof.
  revert s. induction prefix as [|a prefix IH]; intros s; simpl.
  - split; [intros _; exists s; reflexivity | reflexivity].
  - destruct s as [|b s].
    + split; [discriminate | intros (rest & H); discriminate].
    + rewrite andb_true_iff, N.eqb_eq, IH. split.
      * intros (-> & rest & ->). exists rest. reflexivity.
      * intros (rest & H). injection H as -> ->. split; [reflexivity|].
        exists rest. reflexivity.
Qed.

Lemma contains_spec needle hay :
  contains needle hay = true <->
  exists before after, hay = before ++ needle ++ after.
Proof.
  induction hay as [|c hay IH]; simpl.
  - rewrite orb_false_r, startswith_spec. split.
    + intros (rest & H). exists [], rest. exact H.
    + intros (before & after & H). destruct before; simpl in H.
      * exists after. exact H.
      * discriminate.
  - rewrite orb_true_iff, startswith_spec, IH. split.
    + intros [(rest & H) | (before & after & ->)].
      * exists [], rest. exact H.
      * exists (c :: before), after. reflexivity.
    + intros (before & after & H). destruct before as [|d before]; simpl in H.
      * left. exists after. exact H.
      * right. injection H as -> ->. exists before, after. reflexivity.
Qed.

Lemma endswith_spec suffix s :
  endswith suffix s = true <-> exists front, s = front ++ suffix.
Proof.
  unfold endswith. rewrite startswith_spec. split.
  - intros (rest & H). exists (rev rest).
    rewrite <- (rev_involutive s), H, rev_app_distr, rev_involutive.
    reflexivity.
  - intros (front & ->). exists (rev front). apply rev_app_distr.
Qed.

End PyStrFacts.

(* ================================================================== *)
(** * Resolver and sanitisation: properties *)
(* ================================================================== *)

Module ResolverFacts.
Import PyStr PyStrFacts Resolver.

Section WithTables.
Context (U : unicode_db).

Lemma underscore_safe : safe_char U 95%N = true.
Proof.
  unfold safe_char, is_word. rewrite N.eqb_refl, orb_true_r. reflexivity.
Qed.

Lemma alnum_safe c : isalnum U c = true -> safe_char U c = true.
Proof. intros H. unfold safe_char, is_word. rewrite H. reflexivity. Qed.

Lemma alnum_not_dot_or_underscore c :
  isalnum U c = true -> dot_or_underscore c = false.
Proof.
  intros H. unfold dot_or_underscore.
  destruct (N.eqb_spec c 46) as [->|_]; [discriminate H|].
  destruct (N.eqb_spec c 95) as [->|_]; [discriminate H|].
  reflexivity.
Qed.

Lemma sub_unsafe_runs_safe b name :
  Forall (fun c => safe_char U c = true) (sub_unsafe_runs U b name).
Proof.
  revert b. induction name as [|c name IH]; intros b; simpl; [constructor|].
  destruct (safe_char U c) eqn:E.
  - constructor; [exact E | apply IH].
  - destruct b; [apply IH|].
    constructor; [apply underscore_safe | apply IH].
Qed.

Lemma sub_unsafe_runs_id b name :
  Forall (fun c => safe_char U c = true) name ->
  sub_unsafe_runs U b name = name.
Proof.
  intros H. revert b.
  induction H as [|c name Hc _ IH]; intros b; simpl; [reflexivity|].
  rewrite Hc, IH. reflexivity.
Qed.

Lemma sub_unsafe_runs_In b name c :
  In c name -> safe_char U c = true -> In c (sub_unsafe_runs U b name).
Proof.
  revert b. induction name as [|d name IH]; intros b; simpl; [tauto|].
  intros [->|Hin] Hc.
  - rewrite Hc. left. reflexivity.
  - destruct (safe_char U d); [right; apply IH; assumption|].
    destruct b; [apply IH; assumption | right; apply IH; assumption].
Qed.

Lemma sanitize_filename_safe name :
  Forall (fun c => safe_char U c = true) (sanitize_filename U name).
Proof. apply strip_by_Forall, sub_unsafe_runs_safe. Qed.

Lemma sanitize_filename_idempotent name :
  sanitize_filename U (sanitize_filename U name) = sanitize_filename U name.
Proof.
  unfold sanitize_filename at 1.
  rewrite sub_unsafe_runs_id by apply sanitize_filename_safe.
  apply strip_by_idempotent.
Qed.

Lemma sanitize_filename_keeps_alnum name c :
  In c name -> isalnum U c = true -> In c (sanitize_filename U name).
Proof.
  intros Hin Hc. apply strip_by_In.
  - apply sub_unsafe_runs_In; [exact Hin | apply alnum_safe, Hc].
  - apply alnum_not_dot_or_underscore, Hc.
Qed.

(** C8.  [sanitize_filename] is idempotent, and its result is not empty
    when the input holds at least one alphanumeric character. *)
Theorem sanitize_filename_idempotent_nonempty :
  (forall x : str,
     sanitize_filename U (sanitize_filename U x) = sanitize_filename U x) /\
  (forall x : str,
     x <> [] -> (exists c, In c x /\ isalnum U c = true) ->
     sanitize_filename U x <> []).
Proof.
  split.
  - exact sanitize_filename_idempotent.
  - intros x _ (c & Hin & Hc) E.
    pose proof (sanitize_filename_keeps_alnum x c Hin Hc) as H.
    rewrite E in H. exact H.
Qed.

(** ** The two reference patterns *)

Lemma match_lit_app lit r : match_lit lit (lit ++ r) = Some r.
Proof.
  induction lit as [|a lit IH]; simpl; [reflexivity|].
  rewrite N.eqb_refl. exact IH.
Qed.

Lemma takewhile_all p s :
  Forall (fun c => p c = true) s -> takewhile p s = s.
Proof.
  induction 1 as [|c s Hc _ IH]; simpl; [reflexivity|].
  rewrite Hc, IH. reflexivity.
Qed.

Lemma takewhile_app_clean p s rest :
  Forall (fun c => p c = true) s -> clean p rest ->
  takewhile p (s ++ rest) = s.
Proof.
  induction 1 as [|c s Hc _ IH]; simpl; intros Hr.
  - destruct rest as [|d rest]; simpl in *; [reflexivity|].
    rewrite Hr. reflexivity.
  - rewrite Hc, IH by exact Hr. reflexivity.
Qed.

Lemma ascii_alnum_not_space c :
  ascii_isalnum c = true -> ascii_isspace c = false.
Proof.
  unfold ascii_isalnum, ascii_isspace, between.
  repeat match goal with
         | |- context [(?a <=? ?b)%N] => destruct (N.leb_spec a b)
         end; simpl; intros Habs; try reflexivity; try discriminate; lia.
Qed.

Lemma alnum_not_space c : isalnum U c = true -> isspace U c = false.
Proof.
  unfold isalnum, isspace. destruct (is_ascii c).
  - apply ascii_alnum_not_space.
  - apply uni_alnum_not_space.
Qed.

Lemma id_char_not_space c : id_char U c = true -> isspace U c = false.
Proof.
  unfold id_char, is_word. rewrite !orb_true_iff, !N.eqb_eq.
  intros [[[H | ->] | ->] | ->];
    [apply alnum_not_space, H | reflexivity ..].
Qed.

Lemma space_not_h c : isspace U c = true -> (104 =? c)%N = false.
Proof.
  intros H. destruct (N.eqb_spec 104 c) as [<-|_]; [discriminate H | reflexivity].
Qed.

(** The shapes of a reference: a scheme, the host, the path segment that
    tells the form, and the identifier. *)
Definition scheme_ok (scheme : str) : Prop :=
  scheme = py "http" \/ scheme = py "https".

(** An identifier is a non-empty run of characters of the class the
    patterns use; an arXiv identifier does not itself end in [.pdf]. *)
Definition valid_id (id : str) : Prop :=
  id <> [] /\ Forall (fun c => id_char U c = true) id /\
  endswith (py ".pdf") id = false.

Definition abs_form (scheme id : str) : str :=
  scheme ++ py "://arxiv.org/abs/" ++ id.

Definition pdf_form (scheme id : str) : str :=
  scheme ++ py "://arxiv.org/pdf/" ++ id.

Definition pdf_form_suffixed (scheme id : str) : str :=
  scheme ++ py "://arxiv.org/pdf/" ++ id ++ py ".pdf".

Definition canonical_url (id : str) : str :=
  py "https://arxiv.org/pdf/" ++ id ++ py ".pdf".

Definition names_paper (ref scheme id : str) : Prop :=
  ref = abs_form scheme id \/ ref = pdf_form scheme id \/
  ref = pdf_form_suffixed scheme id.

Definition all_space (s : str) : Prop :=
  Forall (fun c => isspace U c = true) s.

(** The pattern of kind [kind] on a subject of that kind, followed by
    anything that does not continue the identifier. *)
Lemma re_match_arxiv_hit kind scheme run rest :
  scheme_ok scheme -> run <> [] ->
  Forall (fun c => id_char U c = true) run -> clean (id_char U) rest ->
  re_match_arxiv U kind (scheme ++ py "://arxiv.org/" ++ kind ++ py "/" ++ run ++ rest)
  = Some run.
Proof.
  intros Hs Hne Hrun Hrest. unfold re_match_arxiv.
  assert (E : match_opt_char 115%N
                (match scheme with
                 | _ :: _ :: _ :: _ :: r => r
                 | _ => []
                 end ++ py "://arxiv.org/" ++ kind ++ py "/" ++ run ++ rest)
              = py "://arxiv.org/" ++ kind ++ py "/" ++ run ++ rest).
  { destruct Hs as [-> | ->]; reflexivity. }
  replace (match_lit (py "http")
             (scheme ++ py "://arxiv.org/" ++ kind ++ py "/" ++ run ++ rest))
    with (Some (match scheme with
                | _ :: _ :: _ :: _ :: r => r
                | _ => []
                end ++ py "://arxiv.org/" ++ kind ++ py "/" ++ run ++ rest))
    by (destruct Hs as [-> | ->]; reflexivity).
  rewrite E.
  replace (py "://arxiv.org/" ++ kind ++ py "/" ++ run ++ rest)
    with ((py "://arxiv.org/" ++ kind ++ py "/") ++ run ++ rest)
    by (rewrite <- !app_assoc; reflexivity).
  rewrite match_lit_app, takewhile_app_clean by assumption.
  destruct run; [congruence | reflexivity].
Qed.

(** The [abs] pattern does not match a [pdf] reference. *)
Lemma re_match_abs_on_pdf scheme rest :
  scheme_ok scheme ->
  re_match_arxiv U (py "abs") (scheme ++ py "://arxiv.org/pdf/" ++ rest) = None.
Proof. intros [-> | ->]; reflexivity. Qed.

(** No pattern matches a subject that starts with white space. *)
Lemma re_match_arxiv_leading_space kind c s :
  isspace U c = true -> re_match_arxiv U kind (c :: s) = None.
Proof.
  intros H. unfold re_match_arxiv.
  change (py "http") with (104%N :: py "ttp").
  cbn [match_lit]. rewrite (space_not_h c H). reflexivity.
Qed.

Lemma dot_pdf_id_chars : Forall (fun c => id_char U c = true) (py ".pdf").
Proof. repeat constructor. Qed.

Lemma drop_last_app (s t : str) : drop_last (List.length t) (s ++ t) = s.
Proof.
  unfold drop_last. rewrite length_app, Nat.add_sub.
  rewrite firstn_app, Nat.sub_diag, firstn_all. simpl. apply app_nil_r.
Qed.

(** What [extract_arxiv_id] and the matching part of [parse_arxiv_url]
    yield on the three forms. *)
Lemma abs_shape scheme rest :
  scheme ++ py "://arxiv.org/abs/" ++ rest
  = scheme ++ py "://arxiv.org/" ++ py "abs" ++ py "/" ++ rest.
Proof. reflexivity. Qed.

Lemma pdf_shape scheme rest :
  scheme ++ py "://arxiv.org/pdf/" ++ rest
  = scheme ++ py "://arxiv.org/" ++ py "pdf" ++ py "/" ++ rest.
Proof. reflexivity. Qed.

Lemma re_match_arxiv_exact kind scheme run :
  scheme_ok scheme -> run <> [] ->
  Forall (fun c => id_char U c = true) run ->
  re_match_arxiv U kind (scheme ++ py "://arxiv.org/" ++ kind ++ py "/" ++ run)
  = Some run.
Proof.
  intros Hs Hne Hrun.
  pose proof (@re_match_arxiv_hit kind scheme run [] Hs Hne Hrun I) as H.
  rewrite app_nil_r in H. exact H.
Qed.

Lemma re_match_pdf_suffixed scheme id :
  scheme_ok scheme -> Forall (fun c => id_char U c = true) id ->
  re_match_arxiv U (py "pdf") (pdf_form_suffixed scheme id)
  = Some (id ++ py ".pdf").
Proof.
  intros Hs Hid. unfold pdf_form_suffixed. rewrite pdf_shape.
  apply (@re_match_arxiv_exact (py "pdf") scheme (id ++ py ".pdf") Hs).
  - destruct id; discriminate.
  - apply Forall_app. split; [exact Hid | apply dot_pdf_id_chars].
Qed.

Lemma endswith_app suffix s : endswith suffix (s ++ suffix) = true.
Proof. apply endswith_spec. exists s. reflexivity. Qed.

Lemma extract_arxiv_id_forms ref scheme id :
  scheme_ok scheme -> valid_id id -> names_paper ref scheme id ->
  extract_arxiv_id U ref = Some id.
Proof.
  intros Hs (Hne & Hid & Hpdf) [-> | [-> | ->]]; unfold extract_arxiv_id.
  - unfold abs_form. rewrite abs_shape.
    rewrite (@re_match_arxiv_exact (py "abs") scheme id Hs Hne Hid).
    reflexivity.
  - unfold pdf_form. rewrite (@re_match_abs_on_pdf scheme id Hs).
    rewrite pdf_shape.
    rewrite (@re_match_arxiv_exact (py "pdf") scheme id Hs Hne Hid).
    rewrite Hpdf. reflexivity.
  - rewrite (re_match_pdf_suffixed Hs Hid).
    unfold pdf_form_suffixed.
    rewrite (@re_match_abs_on_pdf scheme (id ++ py ".pdf") Hs), endswith_app.
    f_equal. apply (drop_last_app id (py ".pdf")).
Qed.

Lemma parse_stripped_forms ref scheme id :
  scheme_ok scheme -> valid_id id -> names_paper ref scheme id ->
  match re_match_arxiv U (py "abs") ref with
  | Some arxiv_id => Some (py "https://arxiv.org/pdf/" ++ arxiv_id ++ py ".pdf")
  | None =>
      match re_match_arxiv U (py "pdf") ref with
      | Some arxiv_id =>
          if endswith (py ".pdf") arxiv_id
          then Some (py "https://arxiv.org/pdf/" ++ arxiv_id)
          else Some (py "https://arxiv.org/pdf/" ++ arxiv_id ++ py ".pdf")
      | None => None
      end
  end = Some (canonical_url id).
Proof.
  intros Hs (Hne & Hid & Hpdf) [-> | [-> | ->]].
  - unfold abs_form. rewrite abs_shape.
    rewrite (@re_match_arxiv_exact (py "abs") scheme id Hs Hne Hid).
    reflexivity.
  - unfold pdf_form. rewrite (@re_match_abs_on_pdf scheme id Hs).
    rewrite pdf_shape.
    rewrite (@re_match_arxiv_exact (py "pdf") scheme id Hs Hne Hid).
    rewrite Hpdf. reflexivity.
  - rewrite (re_match_pdf_suffixed Hs Hid).
    unfold pdf_form_suffixed.
    rewrite (@re_match_abs_on_pdf scheme (id ++ py ".pdf") Hs), endswith_app.
    reflexivity.
Qed.

(** A reference of one of the three forms has no white space at either
    end. *)
Lemma reference_clean ref scheme id :
  scheme_ok scheme -> valid_id id -> names_paper ref scheme id ->
  ref <> [] /\ clean (isspace U) ref /\ clean (isspace U) (rev ref).
Proof.
  intros Hs (Hne & Hid & _) Hform.
  assert (Hlast : clean (isspace U) (rev id)).
  { apply Forall_rev in Hid. destruct (rev id) as [|c r]; [exact I|].
    apply id_char_not_space. inversion Hid; assumption. }
  assert (Hrev : rev id <> []).
  { intros E. apply Hne. rewrite <- (rev_involutive id), E. reflexivity. }
  split; [|split].
  - destruct Hform as [-> | [-> | ->]]; destruct Hs as [-> | ->]; discriminate.
  - destruct Hform as [-> | [-> | ->]]; destruct Hs as [-> | ->]; reflexivity.
  - destruct Hform as [-> | [-> | ->]].
    + unfold abs_form. rewrite !rev_app_distr.
      destruct (rev id); [congruence | exact Hlast].
    + unfold pdf_form. rewrite !rev_app_distr.
      destruct (rev id); [congruence | exact Hlast].
    + unfold pdf_form_suffixed. rewrite !rev_app_distr. reflexivity.
Qed.

Lemma parse_arxiv_url_forms ref scheme id :
  scheme_ok scheme -> valid_id id -> names_paper ref scheme id ->
  parse_arxiv_url U ref = Some (canonical_url id).
Proof.
  intros Hs Hid Hform. unfold parse_arxiv_url.
  destruct (reference_clean Hs Hid Hform) as (_ & H1 & H2).
  unfold strip. rewrite (strip_by_id _ _ H1 H2).
  apply (parse_stripped_forms Hs Hid Hform).
Qed.

(** With white space around the reference, [parse_arxiv_url] still
    resolves it. *)
Lemma parse_arxiv_url_padded ref scheme id before after :
  scheme_ok scheme -> valid_id id -> names_paper ref scheme id ->
  all_space before -> all_space after ->
  parse_arxiv_url U (before ++ ref ++ after) = Some (canonical_url id).
Proof.
  intros Hs Hid Hform Hb Ha. unfold parse_arxiv_url.
  destruct (reference_clean Hs Hid Hform) as (Hne & H1 & H2).
  unfold strip. rewrite (strip_by_surrounded _ Hb Ha H1 H2 Hne).
  apply (parse_stripped_forms Hs Hid Hform).
Qed.

(** C7.  The [abs] form, the [pdf] form and the [pdf] form with the
    [.pdf] suffix of one paper resolve to the same canonical download URL,
    [https://arxiv.org/pdf/<id>.pdf], and to the same identifier, [<id>]. *)
Theorem resolver_forms_agree (ref scheme id : str) :
  scheme_ok scheme -> valid_id id -> names_paper ref scheme id ->
  parse_arxiv_url U ref = Some (canonical_url id) /\
  extract_arxiv_id U ref = Some id.
Proof.
  intros Hs Hid Hform. split.
  - apply (parse_arxiv_url_forms Hs Hid Hform).
  - apply (extract_arxiv_id_forms Hs Hid Hform).
Qed.

End WithTables.

Lemma sanitize_filename_idempotent_nonempty_witness :
  sanitize_filename ascii_only
    (sanitize_filename ascii_only (py "..Attention: is all/you need?!_")) =
  sanitize_filename ascii_only (py "..Attention: is all/you need?!_") /\
  sanitize_filename ascii_only (py "..Attention: is all/you need?!_") <> [].
Proof.
  split.
  - apply (proj1 (sanitize_filename_idempotent_nonempty ascii_only)).
  - apply (proj2 (sanitize_filename_idempotent_nonempty ascii_only)).
    + discriminate.
    + exists 65%N. split; [vm_compute; tauto | reflexivity].
Defined.

Lemma resolver_forms_agree_witness :
  parse_arxiv_url ascii_only (py "https://arxiv.org/abs/2412.15289")
  = Some (py "https://arxiv.org/pdf/2412.15289.pdf") /\
  extract_arxiv_id ascii_only (py "https://arxiv.org/abs/2412.15289")
  = Some (py "2412.15289").
Proof.
  apply (@resolver_forms_agree ascii_only
           (py "https://arxiv.org/abs/2412.15289") (py "https")
           (py "2412.15289")).
  - right. reflexivity.
  - split; [discriminate | split; [repeat constructor | reflexivity]].
  - left. reflexivity.
Defined.

Example resolver_pdf_forms :
  parse_arxiv_url ascii_only (py "https://arxiv.org/pdf/2412.15289")
  = Some (py "https://arxiv.org/pdf/2412.15289.pdf") /\
  parse_arxiv_url ascii_only (py "http://arxiv.org/pdf/2412.15289.pdf")
  = Some (py "https://arxiv.org/pdf/2412.15289.pdf") /\
  extract_arxiv_id ascii_only (py "https://arxiv.org/pdf/2412.15289")
  = Some (py "2412.15289") /\
  extract_arxiv_id ascii_only (py "http://arxiv.org/pdf/2412.15289.pdf")
  = Some (py "2412.15289").
Proof. repeat split. Qed.

Example sanitize_example :
  sanitize_filename ascii_only (py "..Attention: is all/you need?!_")
  = py "Attention_is_all_you_need".
Proof. reflexivity. Qed.

End ResolverFacts.

(* ================================================================== *)
(** * Title inference: properties *)
(* ================================================================== *)

Module TitleFacts.
Import PyStr PyStrFacts Title.

Lemma first_some_hit {A B : Type} (f : A -> option B) xs i x y :
  nth_error xs i = Some x -> f x = Some y ->
  (forall j x', (j < i)%nat -> nth_error xs j = Some x' -> f x' = None) ->
  first_some f xs = Some y.
Proof.
  revert i. induction xs as [|a xs IH]; intros i Hi Hx Hbefore.
  - destruct i; discriminate.
  - destruct i as [|i]; simpl in *.
    + injection Hi as ->. rewrite Hx. reflexivity.
    + rewrite (Hbefore 0%nat a) by (reflexivity || lia).
      apply (IH i Hi Hx). intros j x' Hj Hn.
      apply (Hbefore (S j) x'); [lia | exact Hn].
Qed.

Lemma first_some_none {A B : Type} (f : A -> option B) xs :
  (forall x, In x xs -> f x = None) -> first_some f xs = None.
Proof.
  induction xs as [|a xs IH]; intros H; simpl; [reflexivity|].
  rewrite (H a) by (left; reflexivity).
  apply IH. intros x Hx. apply H. right. exact Hx.
Qed.

Lemma dropwhile_length p s : (List.length (dropwhile p s) <= List.length s)%nat.
Proof.
  induction s as [|c s IH]; simpl; [lia|].
  destruct (p c); simpl; lia.
Qed.

Lemma strip_by_length p s : (List.length (strip_by p s) <= List.length s)%nat.
Proof.
  unfold strip_by. rewrite length_rev.
  pose proof (dropwhile_length p (rev (dropwhile p s))) as H1.
  pose proof (dropwhile_length p s) as H2.
  rewrite length_rev in H1. lia.
Qed.

Section WithTables.
Context (U : unicode_db).

(** A text is free of the words of a list when none of them occurs in
    its lower-cased form. *)
Definition stopword_free (words : list str) (text : str) : Prop :=
  forall w, In w words ->
  ~ exists before after, lower U text = before ++ w ++ after.

Lemma has_stopword_false words text :
  has_stopword U words text = false <-> stopword_free words text.
Proof.
  unfold has_stopword, stopword_free. split.
  - intros H w Hw Hocc. apply contains_spec in Hocc.
    assert (Hex : existsb (fun skip => contains skip (lower U text)) words = true).
    { apply existsb_exists. exists w. split; assumption. }
    congruence.
  - intros H.
    destruct (existsb (fun skip => contains skip (lower U text)) words) eqn:E;
      [|reflexivity].
    apply existsb_exists in E. destruct E as (w & Hw & Hc).
    apply contains_spec in Hc. exfalso. exact (H w Hw Hc).
Qed.

(** The heading the first method accepts, with bounds as the code tests
    them: a line that, stripped, is [# ] followed by a text which, stripped
    again, is longer than 10 and shorter than 200 characters and holds no
    stop word. *)
Definition qualifying_heading (line title : str) : Prop :=
  exists body,
    strip U line = py "# " ++ body /\ title = strip U body /\
    (10 < List.length title < 200)%nat /\
    stopword_free heading_stoplist title.

Lemma heading_title_spec line title :
  heading_title U line = Some title <-> qualifying_heading line title.
Proof.
  unfold heading_title, qualifying_heading. split.
  - destruct (startswith (py "# ") (strip U line)) eqn:Es; cbn [andb negb]; [|discriminate].
    destruct (2 <? List.length (strip U line))%nat; cbn [andb negb]; [|discriminate].
    apply startswith_spec in Es. destruct Es as (body & Eb).
    rewrite Eb. change (skipn 2 (py "# " ++ body)) with body.
    destruct (has_stopword U heading_stoplist (strip U body)) eqn:Ew;
      cbn [andb negb]; [discriminate|].
    destruct (10 <? List.length (strip U body))%nat eqn:E1; cbn [andb negb]; [|discriminate].
    destruct (List.length (strip U body) <? 200)%nat eqn:E2; cbn [andb negb]; [|discriminate].
    intros [= <-]. exists body.
    apply Nat.ltb_lt in E1. apply Nat.ltb_lt in E2.
    apply has_stopword_false in Ew. tauto.
  - intros (body & Eb & -> & (H1 & H2) & Hfree).
    rewrite Eb. change (skipn 2 (py "# " ++ body)) with body.
    replace (startswith (py "# ") (py "# " ++ body)) with true
      by (symmetry; apply startswith_spec; exists body; reflexivity).
    replace (2 <? List.length (py "# " ++ body))%nat with true.
    + apply has_stopword_false in Hfree. rewrite Hfree.
      apply Nat.ltb_lt in H1. apply Nat.ltb_lt in H2.
      rewrite H1, H2. reflexivity.
    + symmetry. apply Nat.ltb_lt. rewrite length_app.
      pose proof (strip_by_length (isspace U) body) as Hl.
      unfold strip in H1. change (List.length (py "# ")) with 2%nat. lia.
Qed.

(** What the function returns when the first method finds nothing:
    methods 2 and 3. *)
Definition later_methods (content : str) : str :=
  match first_some (plain_title U) (firstn 20 (split_lines content)) with
  | Some line => line
  | None =>
      match first_some (bold_title U) (findall_bold (firstn 2000 content)) with
      | Some m => m
      | None => []
      end
  end.

(** C6 (as the code has it).  The heading scan reads the first 50 lines
    only and returns the stripped text of the first line that is a level-1
    heading of more than 10 and fewer than 200 characters without a stop
    word; that text is the result, whatever the other two methods would
    find.  When no line among the first 50 qualifies, the result is the one
    of the other two methods, whatever headings come later. *)
Theorem heading_scan_first_qualifying (content : str) :
  (forall i line title,
     nth_error (split_lines content) i = Some line -> (i < 50)%nat ->
     qualifying_heading line title ->
     (forall j l t, (j < i)%nat -> nth_error (split_lines content) j = Some l ->
                    ~ qualifying_heading l t) ->
     extract_title_from_markdown U content = title) /\
  ((forall i line title,
      nth_error (split_lines content) i = Some line -> (i < 50)%nat ->
      ~ qualifying_heading line title) ->
   extract_title_from_markdown U content = later_methods content).
Proof.
  split.
  - intros i line title Hi Hlt Hq Hbefore.
    unfold extract_title_from_markdown.
    rewrite (@first_some_hit _ _ (heading_title U) _ i line title).
    + reflexivity.
    + rewrite nth_error_firstn.
      apply Nat.ltb_lt in Hlt. rewrite Hlt. exact Hi.
    + apply heading_title_spec, Hq.
    + intros j l Hj Hn. rewrite nth_error_firstn in Hn.
      destruct (j <? 50)%nat; [|discriminate].
      destruct (heading_title U l) as [t|] eqn:E; [|reflexivity].
      apply heading_title_spec in E. exfalso. exact (Hbefore j l t Hj Hn E).
  - intros Hnone. unfold extract_title_from_markdown, later_methods.
    rewrite first_some_none; [reflexivity|].
    intros l Hin. apply In_nth_error in Hin. destruct Hin as (i & Hi).
    rewrite nth_error_firstn in Hi.
    destruct (i <? 50)%nat eqn:Elt; [|discriminate].
    apply Nat.ltb_lt in Elt.
    destruct (heading_title U l) as [t|] eqn:E; [|reflexivity].
    apply heading_title_spec in E. exfalso. exact (Hnone i l t Hi Elt E).
Qed.

End WithTables.

Definition sample_transcript : str :=
  py "arXiv:1706.03762v7
# Abstract and figures
# Attention Is All You Need
**A bold span that would qualify as a title as well**".

Lemma heading_scan_first_qualifying_witness :
  extract_title_from_markdown ascii_only sample_transcript
  = py "Attention Is All You Need".
Proof.
  apply (proj1 (heading_scan_first_qualifying ascii_only sample_transcript)
               2%nat (py "# Attention Is All You Need")).
  - reflexivity.
  - lia.
  - apply heading_title_spec. reflexivity.
  - intros j l t Hj Hn Hq. apply heading_title_spec in Hq.
    destruct j as [|[|j]]; [| |lia]; vm_compute in Hn; injection Hn as <-;
      vm_compute in Hq; discriminate Hq.
Defined.

(** A transcript whose only line is a level-1 heading with a text of
    exactly 10 characters and no stop word: the heading is not returned. *)
Lemma heading_of_ten_characters_rejected :
  exists line body,
    nth_error (split_lines (py "# Deep Nets!")) 0 = Some line /\
    strip ascii_only line = py "# " ++ body /\
    List.length (strip ascii_only body) = 10%nat /\
    stopword_free ascii_only heading_stoplist (strip ascii_only body) /\
    extract_title_from_markdown ascii_only (py "# Deep Nets!")
    <> strip ascii_only body.
Proof.
  exists (py "# Deep Nets!"), (py "Deep Nets!").
  repeat split.
  - apply has_stopword_false. reflexivity.
  - vm_compute. discriminate.
Qed.

Example heading_beyond_line_50_ignored :
  extract_title_from_markdown ascii_only
    (repeat 10%N 50 ++ py "# Attention Is All You Need") = [].
Proof. vm_compute. reflexivity. Qed.

End TitleFacts.

(* ================================================================== *)
(** * File system: properties *)
(* ================================================================== *)

Module FsFacts.
Import PyStr Fs.

Local Unset Implicit Arguments.

Lemma str_eqb_eq a b : str_eqb a b = true <-> a = b.
Proof.
  unfold str_eqb. destruct (list_eq_dec N.eq_dec a b); split;
    congruence || discriminate.
Qed.

Lemma str_eqb_refl a : str_eqb a a = true.
Proof. apply str_eqb_eq. reflexivity. Qed.

Lemma str_eqb_neq a b : a <> b -> str_eqb a b = false.
Proof.
  intros H. destruct (str_eqb a b) eqn:E; [|reflexivity].
  apply str_eqb_eq in E. contradiction.
Qed.

(** [p] is [q] or lies above it. *)
Definition is_prefix (p q : path) : Prop := exists r, q = p ++ r.

Lemma is_prefix_cons c p q : is_prefix (c :: p) (c :: q) <-> is_prefix p q.
Proof.
  split; intros (r & H); exists r; [injection H as H; exact H | simpl; congruence].
Qed.

Lemma not_prefix_nil p : ~ is_prefix p [] -> p <> [].
Proof. intros H ->. apply H. exists []. reflexivity. Qed.

(** ** Directory entries *)

Lemma assoc_set_entry_same c v es : assoc c (set_entry c v es) = Some v.
Proof.
  induction es as [|[k u] es IH]; simpl.
  - rewrite str_eqb_refl. reflexivity.
  - destruct (str_eqb k c) eqn:E; simpl; rewrite E; [reflexivity | exact IH].
Qed.

Lemma assoc_set_entry_other c c' v es :
  c <> c' -> assoc c' (set_entry c v es) = assoc c' es.
Proof.
  intros Hne. induction es as [|[k u] es IH]; simpl.
  - rewrite (str_eqb_neq _ _ Hne). reflexivity.
  - destruct (str_eqb k c) eqn:E; simpl.
    + apply str_eqb_eq in E. subst k. rewrite (str_eqb_neq _ _ Hne). reflexivity.
    + rewrite IH. reflexivity.
Qed.

Lemma set_entry_same c v es : assoc c es = Some v -> set_entry c v es = es.
Proof.
  induction es as [|[k u] es IH]; simpl; [discriminate|].
  destruct (str_eqb k c); [intros [= ->]; reflexivity|].
  intros H. rewrite (IH H). reflexivity.
Qed.

Lemma assoc_app_new_same c v es :
  assoc c es = None -> assoc c (es ++ [(c, v)]) = Some v.
Proof.
  induction es as [|[k u] es IH]; simpl.
  - rewrite str_eqb_refl. reflexivity.
  - destruct (str_eqb k c); [discriminate | exact IH].
Qed.

Lemma assoc_app_new_other c c' v es :
  c <> c' -> assoc c' (es ++ [(c, v)]) = assoc c' es.
Proof.
  intros Hne. induction es as [|[k u] es IH]; simpl.
  - rewrite (str_eqb_neq _ _ Hne). reflexivity.
  - destruct (str_eqb k c'); [reflexivity | exact IH].
Qed.

Lemma lookup_file_below data c p : lookup (File data) (c :: p) = None.
Proof. reflexivity. Qed.

Lemma lookup_app n p r :
  lookup n (p ++ r) =
  match lookup n p with
  | Some sub => lookup sub r
  | None => None
  end.
Proof.
  revert n. induction p as [|c p IH]; intros n; simpl; [reflexivity|].
  destruct n as [data|es]; [reflexivity|].
  destruct (assoc c es); [apply IH | reflexivity].
Qed.

Lemma lookup_mkchain_prefix q p :
  is_prefix p q -> exists es, lookup (mkchain q) p = Some (Dir es).
Proof.
  revert p. induction q as [|c q IH]; intros p (r & H).
  - destruct p; [|discriminate]. exists []. reflexivity.
  - destruct p as [|c' p]; simpl.
    + eexists. reflexivity.
    + injection H as <- H. rewrite str_eqb_refl. apply IH. exists r. exact H.
Qed.

Lemma lookup_mkchain_other q p :
  ~ is_prefix p q -> lookup (mkchain q) p = None.
Proof.
  revert p. induction q as [|c q IH]; intros p Hp.
  - destruct p; [exfalso; apply Hp; exists []; reflexivity | reflexivity].
  - destruct p as [|c' p]; simpl.
    + exfalso. apply Hp. exists (c :: q). reflexivity.
    + destruct (str_eqb c c') eqn:E; [|reflexivity].
      apply str_eqb_eq in E. subst c'. apply IH.
      intros Hpre. apply Hp. apply is_prefix_cons. exact Hpre.
Qed.

(** ** [makedirs] *)

Lemma makedirs_at_isdir q n n' :
  makedirs_at q n = Ok n' -> isdir n' q = true.
Proof.
  unfold isdir. revert n n'. induction q as [|c q IH]; intros n n' H.
  - destruct n; simpl in H; [discriminate|]. injection H as <-. reflexivity.
  - destruct n as [data|es]; simpl in H; [discriminate|].
    destruct (assoc c es) as [child|] eqn:Ec.
    + destruct (makedirs_at q child) as [child'|e] eqn:Em; [|discriminate].
      injection H as <-. simpl. rewrite assoc_set_entry_same.
      apply (IH _ _ Em).
    + injection H as <-. simpl. rewrite (assoc_app_new_same _ _ _ Ec).
      destruct (@lookup_mkchain_prefix q q) as (es' & ->);
        [exists []; symmetry; apply app_nil_r | reflexivity].
Qed.

Lemma makedirs_at_id q n : isdir n q = true -> makedirs_at q n = Ok n.
Proof.
  unfold isdir. revert n. induction q as [|c q IH]; intros n H.
  - destruct n; simpl in *; [discriminate | reflexivity].
  - destruct n as [data|es]; simpl in *; [discriminate|].
    destruct (assoc c es) as [child|] eqn:Ec; [|discriminate].
    rewrite (IH _ H), (set_entry_same _ _ _ Ec). reflexivity.
Qed.

Lemma makedirs_at_frame q n n' p :
  makedirs_at q n = Ok n' -> ~ is_prefix p q -> lookup n' p = lookup n p.
Proof.
  revert n n' p. induction q as [|c q IH]; intros n n' p H Hp.
  - destruct n; simpl in H; [discriminate|]. injection H as <-. reflexivity.
  - destruct n as [data|es]; simpl in H; [discriminate|].
    destruct p as [|c' p]; [exfalso; apply Hp; exists (c :: q); reflexivity|].
    destruct (assoc c es) as [child|] eqn:Ec.
    + destruct (makedirs_at q child) as [child'|e] eqn:Em; [|discriminate].
      injection H as <-. simpl.
      destruct (list_eq_dec N.eq_dec c c') as [<-|Hne].
      * rewrite assoc_set_entry_same, Ec. apply (IH _ _ _ Em).
        intros Hpre. apply Hp, is_prefix_cons, Hpre.
      * rewrite (assoc_set_entry_other _ _ _ _ Hne). reflexivity.
    + injection H as <-. simpl.
      destruct (list_eq_dec N.eq_dec c c') as [<-|Hne].
      * rewrite (assoc_app_new_same _ _ _ Ec), Ec. apply lookup_mkchain_other.
        intros Hpre. apply Hp, is_prefix_cons, Hpre.
      * rewrite (assoc_app_new_other _ _ _ _ Hne). reflexivity.
Qed.

(** Directories stay directories, and nothing that exists disappears. *)
Lemma makedirs_at_keeps_dirs q n n' p :
  makedirs_at q n = Ok n' -> isdir n p = true -> isdir n' p = true.
Proof.
  unfold isdir. revert n n' p. induction q as [|c q IH]; intros n n' p H Hd.
  - destruct n; simpl in H; [discriminate|]. injection H as <-. exact Hd.
  - destruct n as [data|es]; simpl in H; [discriminate|].
    destruct p as [|c' p].
    { destruct (assoc c es) as [child|];
        [destruct (makedirs_at q child); [|discriminate]|];
        injection H as <-; reflexivity. }
    simpl in Hd.
    destruct (assoc c es) as [child|] eqn:Ec.
    + destruct (makedirs_at q child) as [child'|e] eqn:Em; [|discriminate].
      injection H as <-. simpl.
      destruct (list_eq_dec N.eq_dec c c') as [<-|Hne].
      * rewrite assoc_set_entry_same. rewrite Ec in Hd. apply (IH _ _ _ Em Hd).
      * rewrite (assoc_set_entry_other _ _ _ _ Hne). exact Hd.
    + injection H as <-. simpl.
      destruct (list_eq_dec N.eq_dec c c') as [<-|Hne].
      * rewrite Ec in Hd. discriminate.
      * rewrite (assoc_app_new_other _ _ _ _ Hne). exact Hd.
Qed.

Lemma makedirs_at_keeps_files q n n' p data :
  makedirs_at q n = Ok n' -> lookup n p = Some (File data) ->
  lookup n' p = Some (File data).
Proof.
  revert n n' p. induction q as [|c q IH]; intros n n' p H Hf.
  - destruct n; simpl in H; [discriminate|]. injection H as <-. exact Hf.
  - destruct n as [d|es]; simpl in H; [discriminate|].
    destruct p as [|c' p]; [discriminate|]. simpl in Hf.
    destruct (assoc c es) as [child|] eqn:Ec.
    + destruct (makedirs_at q child) as [child'|e] eqn:Em; [|discriminate].
      injection H as <-. simpl.
      destruct (list_eq_dec N.eq_dec c c') as [<-|Hne].
      * rewrite assoc_set_entry_same. rewrite Ec in Hf. apply (IH _ _ _ Em Hf).
      * rewrite (assoc_set_entry_other _ _ _ _ Hne). exact Hf.
    + injection H as <-. simpl.
      destruct (list_eq_dec N.eq_dec c c') as [<-|Hne].
      * rewrite Ec in Hf. discriminate.
      * rewrite (assoc_app_new_other _ _ _ _ Hne). exact Hf.
Qed.

Lemma makedirs_at_prefix_isdir q n n' p :
  makedirs_at q n = Ok n' -> is_prefix p q -> isdir n' p = true.
Proof.
  intros H (r & ->). pose proof (makedirs_at_isdir _ _ _ H) as Hd.
  unfold isdir in *. rewrite lookup_app in Hd.
  destruct (lookup n' p) as [[d|es]|]; try reflexivity.
  - destruct r; discriminate.
  - discriminate.
Qed.

(** A directory can be made under an existing one unless a regular file
    has its name. *)
Lemma makedirs_at_child (d : path) (x : str) n :
  isdir n d = true -> isfile n (d ++ [x]) = false ->
  exists n', makedirs_at (d ++ [x]) n = Ok n' /\
             (exists_ n (d ++ [x]) = false ->
              lookup n' (d ++ [x]) = Some (Dir [])).
Proof.
  unfold isdir, isfile, exists_. revert n.
  induction d as [|c d IH]; intros n Hd Hf.
  - destruct n as [data|es]; simpl in *; [discriminate|].
    destruct (assoc x es) as [child|] eqn:Ex.
    + destruct child as [data|es']; [discriminate|]. simpl.
      eexists. split; [reflexivity | discriminate].
    + eexists. split; [reflexivity|]. intros _. simpl.
      rewrite (assoc_app_new_same _ _ _ Ex). reflexivity.
  - destruct n as [data|es]; simpl in *; [discriminate|].
    destruct (assoc c es) as [child|] eqn:Ec; [|discriminate].
    destruct (IH child Hd Hf) as (child' & Hm & Hnew).
    rewrite Hm. eexists. split; [reflexivity|].
    intros Hne. simpl. rewrite assoc_set_entry_same. apply Hnew, Hne.
Qed.

(** ** Writing a file *)

Lemma write_at_lookup q data n n' :
  write_at q data n = Ok n' -> lookup n' q = Some (File data).
Proof.
  revert n n'. induction q as [|c q IH]; intros n n' H.
  - destruct n; simpl in H; [|discriminate]. injection H as <-. reflexivity.
  - destruct n as [d|es]; simpl in H; [discriminate|].
    destruct (assoc c es) as [child|] eqn:Ec.
    + destruct (write_at q data child) as [child'|e] eqn:Ew; [|discriminate].
      injection H as <-. simpl. rewrite assoc_set_entry_same. apply (IH _ _ Ew).
    + destruct q; [|discriminate]. injection H as <-. simpl.
      rewrite (assoc_app_new_same _ _ _ Ec). reflexivity.
Qed.

Lemma write_at_id q data n :
  lookup n q = Some (File data) -> write_at q data n = Ok n.
Proof.
  revert n. induction q as [|c q IH]; intros n H.
  - simpl in H. injection H as ->. reflexivity.
  - destruct n as [d|es]; simpl in *; [discriminate|].
    destruct (assoc c es) as [child|] eqn:Ec; [|discriminate].
    rewrite (IH _ H), (set_entry_same _ _ _ Ec). reflexivity.
Qed.

Lemma write_at_frame q data n n' p :
  write_at q data n = Ok n' -> ~ is_prefix p q -> lookup n' p = lookup n p.
Proof.
  revert n n' p. induction q as [|c q IH]; intros n n' p H Hp.
  - destruct n; simpl in H; [|discriminate]. injection H as <-.
    destruct p; [exfalso; apply Hp; exists []; reflexivity | reflexivity].
  - destruct n as [d|es]; simpl in H; [discriminate|].
    destruct p as [|c' p]; [exfalso; apply Hp; exists (c :: q); reflexivity|].
    destruct (assoc c es) as [child|] eqn:Ec.
    + destruct (write_at q data child) as [child'|e] eqn:Ew; [|discriminate].
      injection H as <-. simpl.
      destruct (list_eq_dec N.eq_dec c c') as [<-|Hne].
      * rewrite assoc_set_entry_same, Ec. apply (IH _ _ _ Ew).
        intros Hpre. apply Hp, is_prefix_cons, Hpre.
      * rewrite (assoc_set_entry_other _ _ _ _ Hne). reflexivity.
    + destruct q; [|discriminate]. injection H as <-. simpl.
      destruct (list_eq_dec N.eq_dec c c') as [<-|Hne].
      * rewrite (assoc_app_new_same _ _ _ Ec), Ec.
        destruct p; [exfalso; apply Hp; exists []; reflexivity | reflexivity].
      * rewrite (assoc_app_new_other _ _ _ _ Hne). reflexivity.
Qed.

Lemma write_at_keeps_dirs q data n n' p :
  write_at q data n = Ok n' -> isdir n p = true -> isdir n' p = true.
Proof.
  unfold isdir. revert n n' p. induction q as [|c q IH]; intros n n' p H Hd.
  - destruct n; simpl in H; [|discriminate]. injection H as <-.
    destruct p; simpl in Hd; discriminate.
  - destruct n as [d|es]; simpl in H; [discriminate|].
    destruct p as [|c' p].
    { destruct (assoc c es) as [child|];
        [destruct (write_at q data child); [|discriminate]
        |destruct q; [|discriminate]];
        injection H as <-; reflexivity. }
    simpl in Hd.
    destruct (assoc c es) as [child|] eqn:Ec.
    + destruct (write_at q data child) as [child'|e] eqn:Ew; [|discriminate].
      injection H as <-. simpl.
      destruct (list_eq_dec N.eq_dec c c') as [<-|Hne].
      * rewrite assoc_set_entry_same. rewrite Ec in Hd. apply (IH _ _ _ Ew Hd).
      * rewrite (assoc_set_entry_other _ _ _ _ Hne). exact Hd.
    + destruct q; [|discriminate]. injection H as <-. simpl.
      destruct (list_eq_dec N.eq_dec c c') as [<-|Hne].
      * rewrite Ec in Hd. discriminate.
      * rewrite (assoc_app_new_other _ _ _ _ Hne). exact Hd.
Qed.

(** A file can be written in an existing directory unless a directory
    has its name. *)
Lemma write_at_child (d : path) (x : str) data n :
  isdir n d = true -> isdir n (d ++ [x]) = false ->
  exists n', write_at (d ++ [x]) data n = Ok n'.
Proof.
  unfold isdir. revert n. induction d as [|c d IH]; intros n Hd Hx.
  - destruct n as [d0|es]; simpl in *; [discriminate|].
    destruct (assoc x es) as [child|] eqn:Ex.
    + destruct child as [d1|es']; [|discriminate]. simpl. eexists. reflexivity.
    + eexists. reflexivity.
  - destruct n as [d0|es]; simpl in *; [discriminate|].
    destruct (assoc c es) as [child|] eqn:Ec; [|discriminate].
    destruct (IH child Hd Hx) as (child' & ->). eexists. reflexivity.
Qed.

Lemma write_at_keeps_exists q data n n' p :
  write_at q data n = Ok n' -> exists_ n p = true -> exists_ n' p = true.
Proof.
  unfold exists_. revert n n' p. induction q as [|c q IH]; intros n n' p H Hd.
  - destruct n; simpl in H; [|discriminate]. injection H as <-.
    destruct p; [reflexivity | simpl in Hd; discriminate].
  - destruct n as [d|es]; simpl in H; [discriminate|].
    destruct p as [|c' p]; [reflexivity|].
    simpl in Hd.
    destruct (assoc c es) as [child|] eqn:Ec.
    + destruct (write_at q data child) as [child'|e] eqn:Ew; [|discriminate].
      injection H as <-. simpl.
      destruct (list_eq_dec N.eq_dec c c') as [<-|Hne].
      * rewrite assoc_set_entry_same. rewrite Ec in Hd. apply (IH _ _ _ Ew Hd).
      * rewrite (assoc_set_entry_other _ _ _ _ Hne). exact Hd.
    + destruct q; [|discriminate]. injection H as <-. simpl.
      destruct (list_eq_dec N.eq_dec c c') as [<-|Hne].
      * rewrite Ec in Hd. discriminate.
      * rewrite (assoc_app_new_other _ _ _ _ Hne). exact Hd.
Qed.

Lemma isdir_exists n p : isdir n p = true -> exists_ n p = true.
Proof.
  unfold isdir, exists_. destruct (lookup n p) as [[d|es]|];
    reflexivity || discriminate.
Qed.

Lemma join_nonempty (d : path) (name : str) :
  name <> [] -> join d name = d ++ [name].
Proof. destruct name; [congruence | reflexivity]. Qed.

Lemma basename_app (d : path) (x : str) : basename (d ++ [x]) = x.
Proof. unfold basename. apply last_last. Qed.

Lemma dirname_app (d : path) (x : str) : dirname (d ++ [x]) = d.
Proof. unfold dirname. apply removelast_last. Qed.

End FsFacts.

(* ================================================================== *)
(** * The pipeline: properties *)
(* ================================================================== *)

Module PipelineFacts.
Import PyStr PyStrFacts Resolver ResolverFacts Title Fs FsFacts Pipeline.

Local Unset Implicit Arguments.

(** [os.makedirs] on a path that is not the empty string. *)
Lemma os_makedirs_nonempty (p : path) (n : node) :
  p <> [] -> os_makedirs p n = makedirs_at p n.
Proof. destruct p; [congruence | reflexivity]. Qed.

Lemma os_makedirs_snoc (d : path) (x : str) (n : node) :
  os_makedirs (d ++ [x]) n = makedirs_at (d ++ [x]) n.
Proof. destruct d; reflexivity. Qed.

Lemma os_makedirs_join (d : path) (x : str) (n : node) :
  x <> [] -> os_makedirs (join d x) n = makedirs_at (join d x) n.
Proof.
  intros Hx. unfold join. destruct x; [congruence|]. apply os_makedirs_snoc.
Qed.

Lemma os_makedirs_ok (p : path) (n n' : node) :
  os_makedirs p n = Ok n' -> p <> [] /\ makedirs_at p n = Ok n'.
Proof. destruct p; [discriminate|]. intros H. split; [discriminate | exact H]. Qed.

Lemma os_makedirs_raise (p : path) (n : node) e :
  os_makedirs p n = Raise e ->
  (p = [] /\ e = FileNotFoundError) \/ (p <> [] /\ makedirs_at p n = Raise e).
Proof.
  destruct p; [intros [= <-]; left; split; reflexivity|].
  intros H. right. split; [discriminate | exact H].
Qed.

Lemma os_makedirs_id (p : path) (n : node) :
  p <> [] -> isdir n p = true -> os_makedirs p n = Ok n.
Proof.
  intros Hp Hd. rewrite (os_makedirs_nonempty _ _ Hp).
  apply makedirs_at_id, Hd.
Qed.

(** Open the calls of [os.makedirs] whose path is visibly not empty. *)
Ltac open_makedirs :=
  repeat match goal with
  | |- context [os_makedirs (?d ++ [?x]) ?n] =>
      rewrite (os_makedirs_snoc d x n)
  | |- context [os_makedirs (join ?d ?x) ?n] =>
      rewrite (os_makedirs_join d x n) by discriminate
  | |- context [os_makedirs (?c :: ?p) ?n] =>
      change (os_makedirs (c :: p) n) with (makedirs_at (c :: p) n)
  end.

Ltac unfold_monad :=
  unfold makedirs, write_file, read_file, listdir, rmtree, path_exists;
  unfold bind, ret, raise, lift, try_except, get_fs, update_fs, emit;
  cbv beta iota; open_makedirs.

(** Close a goal whose premise equates two different results. *)
Ltac absurd_run := let H := fresh "H" in cbv beta; intros H; discriminate H.

(** ** Reasoning about runs

    [wp m Q w]: the run of [m] from [w] ends with a result and a world
    that [Q] accepts. *)
Definition wp {A : Type} (m : M A) (Q : result A -> world -> Prop)
  (w : world) : Prop :=
  Q (fst (m w)) (snd (m w)).

Lemma wp_elim {A : Type} (m : M A) Q w r w' :
  wp m Q w -> m w = (r, w') -> Q r w'.
Proof. unfold wp. intros H E. rewrite E in H. exact H. Qed.

Lemma wp_weaken {A : Type} (m : M A) (Q Q' : result A -> world -> Prop) w :
  wp m Q w -> (forall r w', Q r w' -> Q' r w') -> wp m Q' w.
Proof. unfold wp. intros H HQ. apply HQ, H. Qed.

Lemma wp_bind {A B : Type} (m : M A) (k : A -> M B) Q w :
  wp m (fun r w' =>
          match r with
          | Ok a => wp (k a) Q w'
          | Raise e => Q (Raise e) w'
          end) w ->
  wp (bind m k) Q w.
Proof.
  unfold wp, bind. destruct (m w) as [[a|e] w']; simpl; intros H; exact H.
Qed.

Lemma wp_try {A : Type} (m : M A) (h : exn -> M A) Q w :
  wp m (fun r w' =>
          match r with
          | Ok a => Q (Ok a) w'
          | Raise e => wp (h e) Q w'
          end) w ->
  wp (try_except m h) Q w.
Proof.
  unfold wp, try_except. destruct (m w) as [[a|e] w']; simpl; intros H; exact H.
Qed.

Lemma wp_ret {A : Type} (a : A) (Q : result A -> world -> Prop) w :
  Q (Ok a) w -> wp (ret a) Q w.
Proof. intros H. exact H. Qed.

Lemma wp_raise {A : Type} e (Q : result A -> world -> Prop) w :
  Q (Raise e) w -> wp (raise e) Q w.
Proof. intros H. exact H. Qed.

Lemma wp_lift {A : Type} (r : result A) (Q : result A -> world -> Prop) w :
  Q r w -> wp (lift r) Q w.
Proof. intros H. exact H. Qed.

Lemma wp_get_fs (Q : result node -> world -> Prop) w :
  Q (Ok (fs w)) w -> wp get_fs Q w.
Proof. intros H. exact H. Qed.

Lemma wp_emit ev (Q : result unit -> world -> Prop) w :
  Q (Ok tt) (World (fs w) (trace w ++ [ev])) -> wp (emit ev) Q w.
Proof. intros H. exact H. Qed.

Lemma wp_update_fs f (Q : result unit -> world -> Prop) w :
  match f (fs w) with
  | Ok n => Q (Ok tt) (World n (trace w))
  | Raise e => Q (Raise e) w
  end ->
  wp (update_fs f) Q w.
Proof. unfold wp, update_fs. destruct (f (fs w)); intros H; exact H. Qed.

Lemma wp_read_file p (Q : result bytes -> world -> Prop) w :
  Q (read_at p (fs w)) w -> wp (read_file p) Q w.
Proof. intros H. exact H. Qed.

Lemma wp_listdir p (Q : result (list str) -> world -> Prop) w :
  Q (listdir_at p (fs w)) w -> wp (listdir p) Q w.
Proof. intros H. exact H. Qed.

Lemma wp_path_exists p (Q : result bool -> world -> Prop) w :
  Q (Ok (os_path_exists (fs w) p)) w -> wp (path_exists p) Q w.
Proof. intros H. exact H. Qed.

(** One step of symbolic execution of the program in the goal. *)
Ltac wp_step :=
  cbv beta zeta;
  lazymatch goal with
  | |- wp (bind _ _) _ _ => apply wp_bind
  | |- wp (try_except _ _) _ _ => apply wp_try
  | |- wp (ret _) _ _ => apply wp_ret
  | |- wp (raise _) _ _ => apply wp_raise
  | |- wp (lift _) _ _ => apply wp_lift
  | |- wp get_fs _ _ => apply wp_get_fs
  | |- wp (emit _) _ _ => apply wp_emit
  | |- wp (read_file _) _ _ => apply wp_read_file
  | |- wp (listdir _) _ _ => apply wp_listdir
  | |- wp (path_exists _) _ _ => apply wp_path_exists
  | |- wp (write_file _ _) _ _ => apply wp_update_fs
  | |- wp (makedirs _) _ _ => apply wp_update_fs; open_makedirs
  | |- wp (rmtree _) _ _ => apply wp_update_fs
  | |- wp (update_fs _) _ _ => apply wp_update_fs
  | |- wp (if ?b then _ else _) _ _ => let E := fresh "E" in destruct b eqn:E
  | |- wp (match ?x with _ => _ end) _ _ =>
      let E := fresh "E" in destruct x eqn:E
  | |- match ?x with _ => _ end => let E := fresh "E" in destruct x eqn:E
  end.

Section WithOutside.
Context (U : unicode_db) (X : externals).

(** ** Sizes *)


Lemma getsize_exists p w :
  exists_ (fs w) p = true -> exists size, getsize X p w = (Ok size, w).
Proof.
  unfold exists_, getsize. unfold_monad.
  destruct (lookup (fs w) p) as [[d|es]|]; [eexists; reflexivity ..|discriminate].
Qed.

Lemma getsize_state p w r w' : getsize X p w = (r, w') -> w' = w.
Proof.
  unfold getsize. unfold_monad.
  destruct (lookup (fs w) p) as [[d|es]|]; intros [= _ <-]; reflexivity.
Qed.

(** ** [shutil.copy2] *)

(** Where [copy2 src dst] writes. *)
Definition copy_target (n : node) (src dst : path) : path :=
  if isdir n dst then join dst (basename src) else dst.

Lemma copy2_ok src dst w w' :
  copy2 src dst w = (Ok tt, w') ->
  exists data,
    read_at src (fs w) = Ok data /\
    write_at (copy_target (fs w) src dst) data (fs w) = Ok (fs w') /\
    trace w' = trace w.
Proof.
  unfold copy2, copy_target. unfold_monad.
  destruct (exists_ (fs w) src && exists_ (fs w) _ && _); [absurd_run|].
  unfold_monad.
  destruct (read_at src (fs w)) as [data|e]; [|absurd_run].
  destruct (write_at _ data (fs w)) as [n'|e] eqn:Ew; [|absurd_run].
  cbv beta. intros [= <-]. exists data. repeat split. exact Ew.
Qed.

Lemma copy2_raise src dst w e w' : copy2 src dst w = (Raise e, w') -> w' = w.
Proof.
  unfold copy2. unfold_monad.
  destruct (exists_ (fs w) src && exists_ (fs w) _ && _);
    [cbv beta; intros [= _ <-]; reflexivity|].
  unfold_monad.
  destruct (read_at src (fs w)) as [data|e0];
    [|cbv beta; intros [= _ <-]; reflexivity].
  destruct (write_at _ data (fs w)) as [n'|e0]; [absurd_run|].
  cbv beta. intros [= _ <-]. reflexivity.
Qed.

(** A regular file is copied under a fresh or regular name of an existing
    directory. *)
Lemma copy2_file src (d : path) (x : str) w data :
  lookup (fs w) src = Some (File data) ->
  isdir (fs w) d = true -> isdir (fs w) (d ++ [x]) = false ->
  src <> d ++ [x] ->
  exists n',
    copy2 src (d ++ [x]) w = (Ok tt, World n' (trace w)) /\
    write_at (d ++ [x]) data (fs w) = Ok n'.
Proof.
  intros Hsrc Hd Hx Hne. unfold copy2. unfold_monad. rewrite Hx.
  destruct (list_eq_dec (list_eq_dec N.eq_dec) src (d ++ [x])); [contradiction|].
  rewrite andb_false_r. unfold read_at. rewrite Hsrc.
  destruct (write_at_child d x data (fs w) Hd Hx) as (n' & Hw).
  rewrite Hw. exists n'. split; reflexivity.
Qed.

(** ** [enhance_image_quality] *)

Lemma upscale_factor_state cap budget size w r w' :
  upscale_factor cap budget size w = (r, w') -> w' = w.
Proof.
  unfold upscale_factor. unfold_monad.
  destruct (size =? 0)%Z; [intros [= _ <-]; reflexivity|].
  destruct (size <? 0)%Z; intros [= _ <-]; reflexivity.
Qed.

Lemma wp_upscale_factor cap budget size (Q : result Z -> world -> Prop) w :
  (forall r, Q r w) -> wp (upscale_factor cap budget size) Q w.
Proof.
  intros H. unfold wp, upscale_factor, raise, ret.
  destruct (size =? 0)%Z; [apply H|].
  destruct (size <? 0)%Z; apply H.
Qed.

(** What a run of the body of the enhancement can end with: an
    exception, with the file system as it was (nothing is written before
    the result is saved, and a failed write writes nothing), or the path of
    the enhanced file, written under the derived name and nothing else. *)
Definition enhance_try_post (dst : path) (w : world)
  (r : result path) (w' : world) : Prop :=
  match r with
  | Raise _ => w' = w
  | Ok p =>
      p = enhanced_name dst /\
      (exists png, write_at (enhanced_name dst) png (fs w) = Ok (fs w')) /\
      trace w' = trace w
  end.

Lemma enhance_try_spec src dst w :
  wp (enhance_try X src dst) (enhance_try_post dst w) w.
Proof.
  unfold enhance_try.
  repeat first
    [ lazymatch goal with
      | |- wp (upscale_factor _ _ _) _ _ =>
          apply wp_upscale_factor; intros [scale|e]
      end
    | wp_step ];
    unfold enhance_try_post; cbv beta iota; try reflexivity.
  all: repeat split; eexists; cbn [fs]; eassumption.
Qed.

Lemma enhance_try_raise src dst w e w' :
  enhance_try X src dst w = (Raise e, w') -> w' = w.
Proof. intros H. exact (wp_elim _ _ _ _ _ (enhance_try_spec src dst w) H). Qed.

Lemma enhance_try_ok src dst w p w' :
  enhance_try X src dst w = (Ok p, w') ->
  p = enhanced_name dst /\
  (exists png, write_at (enhanced_name dst) png (fs w) = Ok (fs w')) /\
  trace w' = trace w.
Proof. intros H. exact (wp_elim _ _ _ _ _ (enhance_try_spec src dst w) H). Qed.



(** [enhance_image_quality] returns a path after exactly one write: the
    enhanced file, or the raw copy of the source when the body raised. *)
Lemma enhance_image_quality_ok src dst w p w' :
  enhance_image_quality X src dst w = (Ok p, w') ->
  trace w' = trace w /\
  exists target data,
    write_at target data (fs w) = Ok (fs w') /\
    ((p = enhanced_name dst /\ target = enhanced_name dst) \/
     (p = dst /\ target = copy_target (fs w) src dst /\
      read_at src (fs w) = Ok data /\
      exists e, enhance_try X src dst w = (Raise e, w))).
Proof.
  unfold enhance_image_quality, try_except.
  destruct (enhance_try X src dst w) as [[q|e] w1] eqn:Et.
  - intros [= -> ->]. destruct (enhance_try_ok _ _ _ _ _ Et) as (-> & (png & Hw) & Ht).
    split; [exact Ht|]. exists (enhanced_name dst), png. split; [exact Hw|].
    left. split; reflexivity.
  - pose proof (enhance_try_raise _ _ _ _ _ Et) as ->. unfold bind, ret.
    destruct (copy2 src dst w) as [[[]|e'] w2] eqn:Ec; [|absurd_run].
    intros [= <- <-]. destruct (copy2_ok _ _ _ _ Ec) as (data & Hr & Hw & Ht).
    split; [exact Ht|]. exists (copy_target (fs w) src dst), data.
    split; [exact Hw|]. right. repeat split; try assumption.
    exists e. reflexivity.
Qed.

Lemma enhance_image_quality_raise src dst w e w' :
  enhance_image_quality X src dst w = (Raise e, w') -> w' = w.
Proof.
  unfold enhance_image_quality, try_except.
  destruct (enhance_try X src dst w) as [[q|e0] w1] eqn:Et; [absurd_run|].
  pose proof (enhance_try_raise _ _ _ _ _ Et) as ->. unfold bind, ret.
  destruct (copy2 src dst w) as [[[]|e'] w2] eqn:Ec; [absurd_run|].
  intros [= _ <-]. exact (copy2_raise _ _ _ _ _ Ec).
Qed.


(** The returned path exists, and whatever existed still does. *)
Lemma enhance_image_quality_exists src dst w p w' :
  enhance_image_quality X src dst w = (Ok p, w') ->
  exists_ (fs w') p = true /\
  (forall q, exists_ (fs w) q = true -> exists_ (fs w') q = true).
Proof.
  intros H.
  destruct (enhance_image_quality_ok _ _ _ _ _ H)
    as (_ & target & data & Hw & Hcase).
  split; [|intros q; apply (write_at_keeps_exists _ _ _ _ _ Hw)].
  destruct Hcase as [(-> & ->) | (-> & -> & _ & _)].
  - unfold exists_. rewrite (write_at_lookup _ _ _ _ Hw). reflexivity.
  - unfold copy_target in Hw. destruct (isdir (fs w) dst) eqn:Ed.
    + apply isdir_exists, (write_at_keeps_dirs _ _ _ _ _ Hw Ed).
    + unfold exists_. rewrite (write_at_lookup _ _ _ _ Hw). reflexivity.
Qed.

Lemma enhance_image_quality_truthy src dst w p w' :
  dst <> [] -> enhance_image_quality X src dst w = (Ok p, w') ->
  truthy p = true.
Proof.
  intros Hne H.
  destruct (enhance_image_quality_ok _ _ _ _ _ H)
    as (_ & target & data & _ & [(-> & _) | (-> & _)]).
  - unfold enhanced_name. destruct (dirname dst); reflexivity.
  - destruct dst; [congruence | reflexivity].
Qed.

(** ** The copy loop *)

(** What one turn of the [try] of the loop amounts to. *)
Lemma copy_one_run src dst c w :
  dst <> [] ->
  copy_one X src dst c w =
  match getsize X src w with
  | (Raise e, _) => (Raise e, w)
  | (Ok file_size, _) =>
      if (file_size <? 5000)%Z then (Ok c, w)
      else
        match enhance_image_quality X src dst w with
        | (Ok _, w') => (Ok (c + 1)%Z, w')
        | (Raise e, w') => (Raise e, w')
        end
  end.
Proof.
  intros Hne. unfold copy_one, bind.
  destruct (getsize X src w) as [[size|e] w1] eqn:Eg;
    pose proof (getsize_state _ _ _ _ Eg) as ->; [|reflexivity].
  destruct (size <? 5000)%Z; [reflexivity|].
  destruct (enhance_image_quality X src dst w) as [[p|e] w2] eqn:Ee;
    [|reflexivity].
  rewrite (enhance_image_quality_truthy _ _ _ _ _ Hne Ee).
  destruct (enhance_image_quality_exists _ _ _ _ _ Ee) as (Hp & _).
  destruct (getsize_exists _ _ Hp) as (size' & ->). reflexivity.
Qed.

(** What happens to one directory entry, in the words of the
    specification: it is skipped (wrong extension or too small), it yields
    an output file, or its processing fails. *)
Inductive outcome : Type :=
| Skipped
| Produced (output : path)
| Failed (e : exn).

Definition attempt (source_images_dir paper_output_dir : path)
  (image_file : str) (w : world) : outcome * world :=
  if has_image_suffix U image_file then
    match getsize X (join source_images_dir image_file) w with
    | (Raise e, _) => (Failed e, w)
    | (Ok file_size, _) =>
        if (file_size <? 5000)%Z then (Skipped, w)
        else
          match enhance_image_quality X (join source_images_dir image_file)
                  (join paper_output_dir image_file) w with
          | (Ok p, w') => (Produced p, w')
          | (Raise e, w') => (Failed e, w')
          end
    end
  else (Skipped, w).

(** Every entry is attempted in turn, from the world the previous ones
    left. *)
Fixpoint batch (source_images_dir paper_output_dir : path)
  (names : list str) (w : world) : list outcome * world :=
  match names with
  | [] => ([], w)
  | image_file :: rest =>
      let (o, w1) := attempt source_images_dir paper_output_dir image_file w in
      let (os, w2) := batch source_images_dir paper_output_dir rest w1 in
      (o :: os, w2)
  end.









Lemma image_suffix_nonempty name : has_image_suffix U name = true -> name <> [].
Proof. intros H ->. discriminate H. Qed.





(** The names [os.listdir] reports, none when there is no such
    directory. *)
Definition listing (n : node) (p : path) : list str :=
  match lookup n p with
  | Some (Dir es) => map fst es
  | _ => []
  end.


(** ** The size filter *)




(** ** The fallback of the enhancement *)

(** The image as the enhancement starts from it: decoded, and converted
    when its mode is not RGB. *)
Definition decoded_rgb (data : bytes) : result (image X) :=
  match pil_open X data with
  | Ok img => if pil_is_rgb X img then Ok img else pil_convert_rgb X img
  | Raise e => Raise e
  end.



(** The factor of the up-sampling, where it is computed: the largest
    whole factor, at most [cap], that keeps the pixel count within the
    budget. *)
Lemma upscale_factor_spec cap budget size w :
  (0 < size)%Z -> (0 <= budget)%Z ->
  exists k,
    upscale_factor cap budget size w = (Ok (Z.min cap k), w) /\
    (0 <= k)%Z /\ (k * k * size <= budget < (k + 1) * (k + 1) * size)%Z.
Proof.
  intros Hs Hb. exists (Z.sqrt (budget / size)).
  unfold upscale_factor, ret, raise.
  destruct (Z.eqb_spec size 0) as [->|_]; [lia|].
  destruct (Z.ltb_spec size 0); [lia|].
  split; [reflexivity|].
  pose proof (Z.sqrt_nonneg (budget / size)) as H0.
  assert (Hq : (0 <= budget / size)%Z) by (apply Z.div_pos; lia).
  pose proof (Z.sqrt_spec (budget / size) Hq) as (H1 & H2).
  pose proof (Z.mul_div_le budget size Hs) as H3.
  pose proof (Z.mul_succ_div_gt budget size Hs) as H4.
  unfold Z.succ in *. split; [exact H0|]. nia.
Qed.

End WithOutside.

(** ** Runs in the small world *)

Import Toy.

Definition world0 : world := start images_tree.
Definition fig1 : path := [py "images"; py "fig1.png"].
Definition out_dir : path := [py "out"].

(** OpenCV is absent. *)
Definition no_cv2 : externals := toy false true true tool_missing.

(** OpenCV is there and works, and so do the enhancement filters. *)
Definition opencv : externals := toy true true true tool_missing.


Definition broken : path := [py "images"; py "broken.jpg"].



(** C4, at the failing input: OpenCV absent, a 100 x 100 image.  The
    factor the claim describes would be 3; the code writes the raw copy of
    the source at the destination path and no resampled image. *)
Theorem upscale_skipped_without_cv2 :
  exists img w',
    decoded_rgb no_cv2 (picture 6000) = Ok img /\
    pil_size no_cv2 img = (100, 100)%Z /\
    Z.min 3 (Z.sqrt (1500000 / (100 * 100))) = 3%Z /\
    enhance_try no_cv2 fig1 (out_dir ++ [py "fig1.png"]) world0
    = (Raise (UnboundLocalError "np"), world0) /\
    enhance_image_quality no_cv2 fig1 (out_dir ++ [py "fig1.png"]) world0
    = (Ok (out_dir ++ [py "fig1.png"]), w') /\
    read_at (out_dir ++ [py "fig1.png"]) (fs w') = Ok (picture 6000) /\
    exists_ (fs w') (enhanced_name (out_dir ++ [py "fig1.png"])) = false.
Proof.
  eexists. eexists. repeat split; vm_compute; reflexivity.
Qed.

(** The sibling path: OpenCV is there but its steps fail, and the image
    is resampled by [min(4, floor(sqrt(2000000 / 10000)))] = 4. *)
Example upscale_after_cv2_failure :
  exists w',
    enhance_image_quality (toy true false true tool_missing) fig1
      (out_dir ++ [py "fig1.png"]) world0
    = (Ok (out_dir ++ [py "fig1_enhanced.png"]), w') /\
    read_at (out_dir ++ [py "fig1_enhanced.png"]) (fs w')
    = Ok [Byte.x89; Byte.x28; Byte.x28; Byte.x05].
Proof. eexists. split; vm_compute; reflexivity. Qed.

Definition images_dir0 : path := [py "images"].

(** The world once the destination directory [out/paper] is made. *)
Definition world1 : world :=
  snd (makedirs (join out_dir (py "paper")) world0).


(** The batch of the small world: the directory entry fails, the loop
    goes on; the figure is enhanced, the malformed file is copied as it is,
    and two outputs are counted. *)
Example batch_goes_on_after_a_failure :
  fst (batch ascii_only opencv images_dir0 (join out_dir (py "paper"))
         (listing (fs world1) images_dir0) world1)
  = [ Failed IsADirectoryError;
      Produced [py "out"; py "paper"; py "fig1_enhanced.png"];
      Skipped;
      Produced [py "out"; py "paper"; py "broken.jpg"];
      Skipped ] /\
  fst (copy_images_to_output ascii_only opencv images_dir0 out_dir
         (py "paper") world0)
  = Ok (2%Z, [py "out"; py "paper"]) /\
  listdir_at [py "out"; py "paper"]
    (fs (snd (copy_images_to_output ascii_only opencv images_dir0 out_dir
                (py "paper") world0)))
  = Ok [py "fig1_enhanced.png"; py "broken.jpg"].
Proof. repeat split; vm_compute; reflexivity. Qed.




(** The figure of 6000 bytes is enhanced into [out/fig1_enhanced.png]. *)
Example included_candidate_is_enhanced :
  fst (enhance_image_quality opencv (join images_dir0 (py "fig1.png"))
         (join out_dir (py "fig1.png")) world0)
  = Ok [py "out"; py "fig1_enhanced.png"] /\
  read_at [py "out"; py "fig1_enhanced.png"]
    (fs (snd (enhance_image_quality opencv (join images_dir0 (py "fig1.png"))
                (join out_dir (py "fig1.png")) world0)))
  = Ok [Byte.x89; Byte.x14; Byte.x14; Byte.x05].
Proof. split; vm_compute; reflexivity. Qed.

(** Files of 4000 and 4096 bytes are left out and files of 6000 and 6144
    bytes are taken, under each of the five extensions. *)
Example four_and_six_kilobytes :
  fst (batch ascii_only no_cv2 images_dir0 (join out_dir (py "paper"))
         (listing sizes_tree images_dir0)
         (snd (makedirs (join out_dir (py "paper")) (start sizes_tree))))
  = [ Skipped; Skipped; Skipped; Skipped; Skipped;
      Produced [py "out"; py "paper"; py "f.png"];
      Produced [py "out"; py "paper"; py "g.jpg"];
      Produced [py "out"; py "paper"; py "h.Jpeg"];
      Produced [py "out"; py "paper"; py "i.gif"];
      Produced [py "out"; py "paper"; py "j.SVG"] ].
Proof. vm_compute. reflexivity. Qed.

(** ** The whole run *)

Section Orchestration.
Context (U : unicode_db) (X : externals).

(** A reference that resolves to a URL but to no identifier stops the
    run before anything is touched. *)
Lemma process_without_identifier arxiv_url output_dir url w :
  parse_arxiv_url U arxiv_url = Some url -> url <> [] ->
  extract_arxiv_id U arxiv_url = None ->
  process_arxiv_paper U X arxiv_url output_dir w = (Ok false, w).
Proof.
  intros Hp Hne He. unfold process_arxiv_paper, try_except, process_try.
  rewrite Hp, He. destruct url; [congruence | reflexivity].
Qed.

(** C10 (as the code has it).  A valid reference preceded by white space
    (and possibly followed by some) is resolved by [parse_arxiv_url], which
    strips its argument, and not by [extract_arxiv_id], which matches the
    raw string from its first character; [process_arxiv_paper] then returns
    [False] with the file system untouched and no request made. *)
Theorem leading_space_reference_fails_before_download
  (ref scheme id before after : str) (output_dir : path) (w : world) :
  scheme_ok scheme -> valid_id U id -> names_paper ref scheme id ->
  all_space U before -> before <> [] -> all_space U after ->
  parse_arxiv_url U (before ++ ref ++ after) = Some (canonical_url id) /\
  extract_arxiv_id U (before ++ ref ++ after) = None /\
  process_arxiv_paper U X (before ++ ref ++ after) output_dir w = (Ok false, w).
Proof.
  intros Hs Hid Hform Hb Hne Ha.
  assert (Hparse : parse_arxiv_url U (before ++ ref ++ after)
                   = Some (canonical_url id))
    by exact (@parse_arxiv_url_padded U ref scheme id before after
                Hs Hid Hform Hb Ha).
  assert (Hextract : extract_arxiv_id U (before ++ ref ++ after) = None).
  { destruct before as [|c before]; [congruence|].
    inversion Hb as [|c' l Hc Hrest]; subst.
    unfold extract_arxiv_id. cbn [app].
    rewrite !(@re_match_arxiv_leading_space U _ c _ Hc). reflexivity. }
  split; [exact Hparse|]. split; [exact Hextract|].
  apply (process_without_identifier _ _ _ _ Hparse); [|exact Hextract].
  discriminate.
Qed.

(** ** Locating the images directory *)

Lemma wp_any {A : Type} (m : M A) (Q : result A -> world -> Prop) w :
  (forall r w', Q r w') -> wp m Q w.
Proof. intros H. apply H. Qed.

Lemma listdir_at_isdir p n names :
  listdir_at p n = Ok names -> isdir n p = true.
Proof.
  unfold listdir_at, isdir.
  destruct (lookup n p) as [[d|es]|]; intros H; reflexivity || discriminate.
Qed.

(** The path returned, if any, is a directory of the final world. *)
Definition returns_directory (r : result (path * str)) (w' : world) : Prop :=
  match r with
  | Ok (images_dir, _) => isdir (fs w') images_dir = true
  | Raise _ => True
  end.

Lemma locate_images_spec mineru_output output_dir pdf_name w :
  wp (locate_images U X mineru_output output_dir pdf_name) returns_directory w.
Proof.
  unfold locate_images, extract_title_from_mineru_output.
  repeat wp_step; unfold returns_directory; cbn [fs]; try exact I;
    try (eapply makedirs_at_isdir; eassumption);
    try (eapply listdir_at_isdir; eassumption).
Qed.

Lemma extract_images_with_mineru_spec pdf_path output_dir lang w :
  wp (extract_images_with_mineru U X pdf_path output_dir lang)
     returns_directory w.
Proof.
  unfold extract_images_with_mineru. cbv zeta.
  apply wp_bind, wp_update_fs. open_makedirs.
  destruct (makedirs_at _ (fs w)) as [n0|e]; [|exact I].
  apply wp_bind, wp_try, wp_any. intros [[]|e] w1.
  - apply locate_images_spec.
  - unfold tool_error. destruct e; exact I.
Qed.

(** C2.  Whenever [extract_images_with_mineru] returns, the path it
    returns is a directory that exists.  When the tool has run and neither
    the four conventional paths nor the recursive search yield an images
    directory, the function makes [images] under the working output
    directory and returns it with the name of the PDF as title, instead of
    failing; the directory is empty when it was not there before.  The
    working directory is taken to be there still, with no regular file
    named [images] in it. *)
Theorem images_dir_exists_on_return
  (pdf_path output_dir : path) (lang : str) (w : world) :
  (forall images_dir title w',
     extract_images_with_mineru U X pdf_path output_dir lang w
     = (Ok (images_dir, title), w') ->
     isdir (fs w') images_dir = true) /\
  (forall n0 n1,
     makedirs_at (join output_dir (py "mineru_output")) (fs w) = Ok n0 ->
     run_tool X
       (mineru_command pdf_path (join output_dir (py "mineru_output")) lang) n0
     = ToolDone n1 ->
     find (exists_ n1)
       (possible_paths (join output_dir (py "mineru_output"))
          (splitext_root (basename pdf_path))) = None ->
     walk_for_images n1 (join output_dir (py "mineru_output")) = None ->
     isdir n1 output_dir = true ->
     isfile n1 (output_dir ++ [py "images"]) = false ->
     exists n2,
       extract_images_with_mineru U X pdf_path output_dir lang w
       = (Ok (output_dir ++ [py "images"], splitext_root (basename pdf_path)),
          World n2
            (trace w ++
             [EvTool (mineru_command pdf_path
                        (join output_dir (py "mineru_output")) lang)])) /\
       isdir n2 (output_dir ++ [py "images"]) = true /\
       (exists_ n1 (output_dir ++ [py "images"]) = false ->
        listdir_at (output_dir ++ [py "images"]) n2 = Ok [])).
Proof.
  split.
  - intros images_dir title w' H.
    exact (wp_elim _ _ _ _ _
             (extract_images_with_mineru_spec pdf_path output_dir lang w) H).
  - intros n0 n1 Hmk Htool Hfind Hwalk Hdir Hfile.
    destruct (makedirs_at_child output_dir (py "images") n1 Hdir Hfile)
      as (n2 & Hn2 & Hempty).
    exists n2. split; [|split].
    + unfold extract_images_with_mineru, subprocess_run, run_mineru,
        locate_images.
      cbv zeta. unfold_monad. rewrite Hmk. cbn [fs trace].
      rewrite Htool. cbn [fs trace]. rewrite Hfind, Hwalk.
      change (join output_dir (py "images")) with (output_dir ++ [py "images"]).
      cbn [fs trace]. open_makedirs. rewrite Hn2. reflexivity.
    + exact (makedirs_at_isdir _ _ _ Hn2).
    + intros Hnew. unfold listdir_at. rewrite (Hempty Hnew). reflexivity.
Qed.

(** ** A run without the tool *)

(** The same outside world with another tool. *)
Definition with_tool (tool : list str -> node -> tool_outcome) : externals :=
  {| image := image X;
     has_pil := has_pil X;
     has_cv2 := has_cv2 X;
     pil_open := pil_open X;
     pil_is_rgb := pil_is_rgb X;
     pil_convert_rgb := pil_convert_rgb X;
     pil_size := pil_size X;
     pil_resize_lanczos := pil_resize_lanczos X;
     cv2_upscale_sharpen := cv2_upscale_sharpen X;
     pil_enhance := pil_enhance X;
     pil_filter_smooth := pil_filter_smooth X;
     pil_save_png := pil_save_png X;
     http_get := http_get X;
     run_tool := tool;
     dir_st_size := dir_st_size X;
     utf8_decode := utf8_decode X |}.

Definition tool_is_missing (Y : externals) : Prop :=
  forall cmd n, run_tool Y cmd n = ToolNotFound.

(** What the run does to the file system before the tool is started, and
    the external calls it makes: the output directory, the workspace, the
    download, the directory for the tool.  The result is the exception that
    stopped it, if any, the tree it left, and the calls made. *)
Definition prepare (resp : http_response) (pdf_url : str) (cmd : list str)
  (output_dir tmp_dir pdf_path mineru_output : path) (n : node)
  : option exn * node * list event :=
  match os_makedirs output_dir n with
  | Raise e => (Some e, n, [])
  | Ok n1 =>
  match os_makedirs tmp_dir n1 with
  | Raise e => (Some e, n1, [])
  | Ok n2 =>
  match os_makedirs (dirname pdf_path) n2 with
  | Raise e => (Some e, n2, [])
  | Ok n3 =>
  match resp with
  | HttpError e => (Some e, n3, [EvHttpGet pdf_url])
  | HttpBody chunks broken =>
  match write_at pdf_path (List.concat (filter nonempty_chunk chunks)) n3 with
  | Raise e => (Some e, n3, [EvHttpGet pdf_url])
  | Ok n4 =>
  match broken with
  | Some e => (Some e, n4, [EvHttpGet pdf_url])
  | None =>
  match os_makedirs mineru_output n4 with
  | Raise e => (Some e, n4, [EvHttpGet pdf_url])
  | Ok n5 => (None, n5, [EvHttpGet pdf_url; EvTool cmd])
  end end end end end end end.

(** The run from the start of the tool on. *)
Definition tool_phase (Y : externals) (cmd : list str)
  (output_dir tmp_dir pdf_path mineru_output : path) (safe_paper_id : str)
  : M bool :=
  try_except (run_mineru Y cmd) tool_error ;;;
  extracted <- locate_images U Y mineru_output tmp_dir
                 (splitext_root (basename pdf_path)) ;;
  stage_outputs U Y output_dir tmp_dir pdf_path safe_paper_id extracted.

Definition tmp_of (output_dir : path) : path := join output_dir (py ".tmp").

Definition pdf_of (output_dir : path) (paper_id : str) : path :=
  join (tmp_of output_dir) (sanitize_filename U paper_id ++ py ".pdf").

Definition mineru_output_of (output_dir : path) : path :=
  join (tmp_of output_dir) (py "mineru_output").

Definition command_of (output_dir : path) (paper_id : str) : list str :=
  mineru_command (pdf_of output_dir paper_id) (mineru_output_of output_dir)
    (py "en").

Lemma process_try_phases (Y : externals) arxiv_url output_dir c pdf_url
  c' paper_id n t :
  parse_arxiv_url U arxiv_url = Some (c :: pdf_url) ->
  extract_arxiv_id U arxiv_url = Some (c' :: paper_id) ->
  process_try U Y arxiv_url output_dir (World n t) =
  match prepare (http_get Y (c :: pdf_url)) (c :: pdf_url)
          (command_of output_dir (c' :: paper_id)) output_dir
          (tmp_of output_dir) (pdf_of output_dir (c' :: paper_id))
          (mineru_output_of output_dir) n with
  | (Some e, n', evs) => (Raise e, World n' (t ++ evs))
  | (None, n', evs) =>
      tool_phase Y (command_of output_dir (c' :: paper_id)) output_dir
        (tmp_of output_dir) (pdf_of output_dir (c' :: paper_id))
        (mineru_output_of output_dir)
        (sanitize_filename U (c' :: paper_id)) (World n' (t ++ evs))
  end.
Proof.
  intros Hp He. unfold process_try. rewrite Hp, He.
  unfold download_file, extract_images_with_mineru, subprocess_run,
    prepare, tool_phase, command_of, mineru_output_of, pdf_of, tmp_of.
  cbv zeta. unfold_monad. cbn [fs trace].
  destruct (os_makedirs output_dir n) as [n1|e]; [|rewrite app_nil_r; reflexivity].
  cbn [fs trace].
  destruct (os_makedirs _ n1) as [n2|e]; [|rewrite app_nil_r; reflexivity].
  cbn [fs trace].
  destruct (os_makedirs _ n2) as [n3|e]; [|rewrite app_nil_r; reflexivity].
  cbn [fs trace].
  destruct (http_get Y (c :: pdf_url)) as [e|data broken]; [reflexivity|].
  unfold_monad. cbn [fs trace].
  destruct (write_at _ _ n3) as [n4|e]; [|reflexivity].
  cbn [fs trace].
  destruct broken as [e|]; [reflexivity|]. cbn [fs trace].
  destruct (os_makedirs _ n4) as [n5|e]; [|reflexivity].
  cbn [fs trace]. rewrite <- app_assoc. cbn [app].
  destruct (run_mineru Y _ _) as [[[]|e] w1].
  - destruct (locate_images U Y _ _ _ w1) as [[x|e] w2]; reflexivity.
  - unfold tool_error, raise. destruct e; reflexivity.
Qed.

Lemma tool_phase_missing (Y : externals) cmd output_dir tmp_dir pdf_path
  mineru_output safe_paper_id w :
  tool_is_missing Y ->
  tool_phase Y cmd output_dir tmp_dir pdf_path mineru_output safe_paper_id w
  = (Raise (RuntimeError "MinerU CLI not found" []), w).
Proof.
  intros Hm. unfold tool_phase, run_mineru. unfold_monad.
  rewrite Hm. reflexivity.
Qed.

(** Collect what the steps of [prepare] establish and keep. *)
Ltac saturate :=
  repeat match goal with
  | E : makedirs_at ?p ?n = Ok ?n' |- _ =>
      lazymatch goal with
      | _ : isdir n' p = true |- _ => fail
      | _ => pose proof (makedirs_at_isdir _ _ _ E)
      end
  | E : makedirs_at ?p ?n = Ok ?n', H : isdir ?n ?q = true |- _ =>
      lazymatch goal with
      | _ : isdir n' q = true |- _ => fail
      | _ => pose proof (makedirs_at_keeps_dirs _ _ _ _ E H)
      end
  | E : write_at ?p ?d ?n = Ok ?n', H : isdir ?n ?q = true |- _ =>
      lazymatch goal with
      | _ : isdir n' q = true |- _ => fail
      | _ => pose proof (write_at_keeps_dirs _ _ _ _ _ E H)
      end
  | E : write_at ?p ?d ?n = Ok ?n' |- _ =>
      lazymatch goal with
      | _ : lookup n' p = Some (File d) |- _ => fail
      | _ => pose proof (write_at_lookup _ _ _ _ E)
      end
  | E : makedirs_at ?p ?n = Ok ?n', H : lookup ?n ?q = Some (File ?d) |- _ =>
      lazymatch goal with
      | _ : lookup n' q = Some (File d) |- _ => fail
      | _ => pose proof (makedirs_at_keeps_files _ _ _ _ _ E H)
      end
  end.

(** Replay the steps of [prepare] on the tree they left. *)
Ltac replay :=
  repeat (cbv beta iota;
          first [ rewrite os_makedirs_id by assumption
                | rewrite write_at_id by assumption
                | match goal with
                  | E : _ = Raise _ |- _ => rewrite E
                  end ]);
  reflexivity.

(** Started again on the tree it left, [prepare] leaves the tree as it
    is and ends the same way. *)
Lemma prepare_idempotent resp pdf_url cmd output_dir tmp_dir pdf_path
  mineru_output n r n' evs :
  prepare resp pdf_url cmd output_dir tmp_dir pdf_path mineru_output n
  = (r, n', evs) ->
  prepare resp pdf_url cmd output_dir tmp_dir pdf_path mineru_output n'
  = (r, n', evs).
Proof.
  unfold prepare.
  destruct (os_makedirs output_dir n) as [n1|e] eqn:E1;
    [apply os_makedirs_ok in E1 as (N1 & E1) | intros [= <- <- <-]; replay].
  destruct (os_makedirs tmp_dir n1) as [n2|e] eqn:E2;
    [apply os_makedirs_ok in E2 as (N2 & E2)
    |intros [= <- <- <-]; saturate; replay].
  destruct (os_makedirs (dirname pdf_path) n2) as [n3|e] eqn:E3;
    [apply os_makedirs_ok in E3 as (N3 & E3)
    |intros [= <- <- <-]; saturate; replay].
  destruct resp as [e|data broken];
    [intros [= <- <- <-]; saturate; replay|].
  destruct (write_at pdf_path _ n3) as [n4|e] eqn:E4;
    [|intros [= <- <- <-]; saturate; replay].
  destruct broken as [e|];
    [intros [= <- <- <-]; saturate; replay|].
  destruct (os_makedirs mineru_output n4) as [n5|e] eqn:E5;
    [apply os_makedirs_ok in E5 as (N5 & E5)|];
    intros [= <- <- <-]; saturate; replay.
Qed.

(** [prepare] touches nothing outside the paths it makes. *)
Lemma prepare_frame resp pdf_url cmd output_dir tmp_dir pdf_path
  mineru_output n r n' evs p :
  prepare resp pdf_url cmd output_dir tmp_dir pdf_path mineru_output n
  = (r, n', evs) ->
  ~ is_prefix p output_dir -> ~ is_prefix p tmp_dir ->
  ~ is_prefix p (dirname pdf_path) -> ~ is_prefix p pdf_path ->
  ~ is_prefix p mineru_output ->
  lookup n' p = lookup n p.
Proof.
  intros H P1 P2 P3 P4 P5. revert H. unfold prepare.
  destruct (os_makedirs output_dir n) as [n1|e] eqn:E1;
    [apply os_makedirs_ok in E1 as (_ & E1) | intros [= _ <- _]; reflexivity].
  pose proof (makedirs_at_frame _ _ _ p E1 P1) as F1.
  destruct (os_makedirs tmp_dir n1) as [n2|e] eqn:E2;
    [apply os_makedirs_ok in E2 as (_ & E2) | intros [= _ <- _]; exact F1].
  pose proof (makedirs_at_frame _ _ _ p E2 P2) as F2.
  destruct (os_makedirs (dirname pdf_path) n2) as [n3|e] eqn:E3;
    [apply os_makedirs_ok in E3 as (_ & E3) | intros [= _ <- _]; congruence].
  pose proof (makedirs_at_frame _ _ _ p E3 P3) as F3.
  destruct resp as [e|data broken]; [intros [= _ <- _]; congruence|].
  destruct (write_at pdf_path _ n3) as [n4|e] eqn:E4;
    [|intros [= _ <- _]; congruence].
  pose proof (write_at_frame _ _ _ _ p E4 P4) as F4.
  destruct broken as [e|]; [intros [= _ <- _]; congruence|].
  destruct (os_makedirs mineru_output n4) as [n5|e] eqn:E5;
    [apply os_makedirs_ok in E5 as (_ & E5) | intros [= _ <- _]; congruence].
  pose proof (makedirs_at_frame _ _ _ p E5 P5) as F5.
  intros [= _ <- _]. congruence.
Qed.

Lemma not_prefix_of_parent (d : path) (name : str) :
  ~ is_prefix (d ++ [name]) d.
Proof.
  intros (r & H). apply (f_equal (@List.length str)) in H.
  rewrite !length_app in H. simpl in H. lia.
Qed.

Lemma not_prefix_of_sibling (d : path) (name a : str) (rest : path) :
  name <> a -> ~ is_prefix (d ++ [name]) (d ++ a :: rest).
Proof.
  intros Hne (r & H). rewrite <- app_assoc in H.
  apply app_inv_head in H. injection H as H _. congruence.
Qed.

Lemma tmp_of_eq output_dir : tmp_of output_dir = output_dir ++ [py ".tmp"].
Proof. reflexivity. Qed.

Lemma mineru_output_of_eq output_dir :
  mineru_output_of output_dir = output_dir ++ [py ".tmp"; py "mineru_output"].
Proof.
  unfold mineru_output_of. rewrite join_nonempty by discriminate.
  rewrite tmp_of_eq, <- app_assoc. reflexivity.
Qed.

Lemma pdf_of_eq output_dir paper_id :
  pdf_of output_dir paper_id
  = output_dir ++ [py ".tmp"; sanitize_filename U paper_id ++ py ".pdf"].
Proof.
  unfold pdf_of. rewrite join_nonempty, tmp_of_eq, <- app_assoc.
  - reflexivity.
  - destruct (sanitize_filename U paper_id); discriminate.
Qed.

Lemma dirname_pdf_of output_dir paper_id :
  dirname (pdf_of output_dir paper_id) = output_dir ++ [py ".tmp"].
Proof.
  rewrite pdf_of_eq.
  change (output_dir ++ [py ".tmp"; sanitize_filename U paper_id ++ py ".pdf"])
    with (output_dir ++ [py ".tmp"] ++ [sanitize_filename U paper_id ++ py ".pdf"]).
  rewrite app_assoc. apply dirname_app.
Qed.

(** A reference that does not resolve to a URL and an identifier stops
    the run at once, whatever the outside world. *)
Lemma process_unresolved (Y : externals) arxiv_url output_dir w :
  match parse_arxiv_url U arxiv_url, extract_arxiv_id U arxiv_url with
  | Some (_ :: _), Some (_ :: _) => False
  | _, _ => True
  end ->
  process_arxiv_paper U Y arxiv_url output_dir w = (Ok false, w).
Proof.
  unfold process_arxiv_paper, try_except, process_try.
  destruct (parse_arxiv_url U arxiv_url) as [[|c pu]|];
    destruct (extract_arxiv_id U arxiv_url) as [[|c' id]|];
    intros H; try reflexivity; contradiction.
Qed.

(** The run without the tool, up to its end. *)
Lemma process_without_tool arxiv_url output_dir n t :
  tool_is_missing X ->
  exists n' evs,
    process_arxiv_paper U X arxiv_url output_dir (World n t)
    = (Ok false, World n' (t ++ evs)) /\
    (forall name : str, name <> py ".tmp" ->
       lookup n' (output_dir ++ [name]) = lookup n (output_dir ++ [name])) /\
    (forall tool t',
       process_arxiv_paper U (with_tool tool) arxiv_url output_dir (World n' t')
       = process_arxiv_paper U (with_tool tool) arxiv_url output_dir
           (World n t')).
Proof.
  intros Hm.
  destruct (parse_arxiv_url U arxiv_url) as [[|c pu]|] eqn:Hp;
    destruct (extract_arxiv_id U arxiv_url) as [[|c' id]|] eqn:He;
    try (exists n, []; rewrite app_nil_r;
         split; [apply process_unresolved; rewrite Hp, ?He; exact I|];
         split; reflexivity).
  destruct (prepare (http_get X (c :: pu)) (c :: pu)
              (command_of output_dir (c' :: id)) output_dir
              (tmp_of output_dir) (pdf_of output_dir (c' :: id))
              (mineru_output_of output_dir) n) as [[r n'] evs] eqn:Ep.
  exists n', evs. split; [|split].
  - unfold process_arxiv_paper, try_except.
    rewrite (process_try_phases X _ _ _ _ _ _ n t Hp He), Ep.
    destruct r as [e|]; [reflexivity|].
    rewrite (tool_phase_missing X _ _ _ _ _ _ _ Hm). reflexivity.
  - intros name Hname.
    apply (prepare_frame _ _ _ _ _ _ _ _ _ _ _ _ Ep).
    + apply not_prefix_of_parent.
    + rewrite tmp_of_eq. apply not_prefix_of_sibling, Hname.
    + rewrite dirname_pdf_of. apply not_prefix_of_sibling, Hname.
    + rewrite pdf_of_eq. apply not_prefix_of_sibling, Hname.
    + rewrite mineru_output_of_eq. apply not_prefix_of_sibling, Hname.
  - intros tool t'. unfold process_arxiv_paper, try_except.
    rewrite (process_try_phases (with_tool tool) _ _ _ _ _ _ n' t' Hp He).
    rewrite (process_try_phases (with_tool tool) _ _ _ _ _ _ n t' Hp He).
    cbn [http_get with_tool].
    rewrite Ep, (prepare_idempotent _ _ _ _ _ _ _ _ _ _ _ Ep). reflexivity.
Qed.

(** C9.  When the binary of the tool cannot be found, the run returns
    [False] and the program exits with status 1; under the output directory
    nothing but the workspace [.tmp] is made or changed, so no directory for
    the paper appears; and what the run leaves behind does not stand in the
    way of another run: whatever the tool does then, a run from the tree
    left behind behaves as it would have from the tree before. *)
Theorem missing_tool_fails_cleanly
  (arxiv_url : str) (output_dir : path) (w : world) :
  tool_is_missing X ->
  exists w',
    process_arxiv_paper U X arxiv_url output_dir w = (Ok false, w') /\
    fst (main U X (Some arxiv_url) None output_dir w) = Ok 1%Z /\
    (forall name : str, name <> py ".tmp" ->
       lookup (fs w') (output_dir ++ [name])
       = lookup (fs w) (output_dir ++ [name])) /\
    (forall tool t,
       process_arxiv_paper U (with_tool tool) arxiv_url output_dir
         (World (fs w') t)
       = process_arxiv_paper U (with_tool tool) arxiv_url output_dir
           (World (fs w) t)).
Proof.
  intros Hm. destruct w as [n t].
  destruct (process_without_tool arxiv_url output_dir n t Hm)
    as (n' & evs & Hrun & Hframe & Hagain).
  exists (World n' (t ++ evs)). split; [exact Hrun|]. split; [|split].
  - unfold main. destruct arxiv_url as [|c u]; [reflexivity|].
    unfold bind. rewrite Hrun. reflexivity.
  - exact Hframe.
  - exact Hagain.
Qed.

End Orchestration.

(** The workspace as the download leaves it, the tool that writes
    nothing, and the tree once the directory for the tool is made. *)
Definition tmp_dir0 : path := [py "output"; py ".tmp"].
Definition pdf0 : path := tmp_dir0 ++ [py "2412.15289.pdf"].

Definition downloaded : node :=
  Dir [ (py "output",
         Dir [ (py ".tmp",
                Dir [ (py "2412.15289.pdf",
                       File [Byte.x25; Byte.x50; Byte.x44; Byte.x46]) ]) ]) ].

Definition silent_tool : externals := toy true true true tool_silent.

Definition tool_ran : node :=
  match makedirs_at (join tmp_dir0 (py "mineru_output")) downloaded with
  | Ok n => n
  | Raise _ => downloaded
  end.

Lemma images_dir_exists_on_return_witness :
  exists n2,
    extract_images_with_mineru ascii_only silent_tool pdf0 tmp_dir0 (py "en")
      (start downloaded)
    = (Ok (tmp_dir0 ++ [py "images"], splitext_root (basename pdf0)),
       World n2
         (trace (start downloaded) ++
          [EvTool (mineru_command pdf0 (join tmp_dir0 (py "mineru_output"))
                     (py "en"))])) /\
    isdir n2 (tmp_dir0 ++ [py "images"]) = true /\
    (exists_ tool_ran (tmp_dir0 ++ [py "images"]) = false ->
     listdir_at (tmp_dir0 ++ [py "images"]) n2 = Ok []).
Proof.
  apply (proj2 (images_dir_exists_on_return ascii_only silent_tool pdf0
                  tmp_dir0 (py "en") (start downloaded))
               tool_ran tool_ran); reflexivity.
Defined.

Example images_dir_synthesized :
  exists w',
    extract_images_with_mineru ascii_only silent_tool pdf0 tmp_dir0 (py "en")
      (start downloaded)
    = (Ok ([py "output"; py ".tmp"; py "images"], py "2412.15289"), w') /\
    listdir_at [py "output"; py ".tmp"; py "images"] (fs w') = Ok [].
Proof. eexists. split; vm_compute; reflexivity. Qed.

Definition abs_2412 : str := py "https://arxiv.org/abs/2412.15289".

Lemma missing_tool_fails_cleanly_witness :
  exists w',
    process_arxiv_paper ascii_only no_cv2 abs_2412 [py "output"] (start (Dir []))
    = (Ok false, w') /\
    fst (main ascii_only no_cv2 (Some abs_2412) None [py "output"]
           (start (Dir []))) = Ok 1%Z /\
    (forall name : str, name <> py ".tmp" ->
       lookup (fs w') ([py "output"] ++ [name])
       = lookup (fs (start (Dir []))) ([py "output"] ++ [name])) /\
    (forall tool t,
       process_arxiv_paper ascii_only (with_tool no_cv2 tool) abs_2412
         [py "output"] (World (fs w') t)
       = process_arxiv_paper ascii_only (with_tool no_cv2 tool) abs_2412
           [py "output"] (World (fs (start (Dir []))) t)).
Proof.
  apply (missing_tool_fails_cleanly ascii_only no_cv2 abs_2412 [py "output"]
           (start (Dir []))).
  intros cmd n. reflexivity.
Defined.

(** What the failed run leaves behind: the workspace with the download
    and the empty directory for the tool.  A run from there with the tool
    in place succeeds. *)
Example workspace_left_behind_and_reused :
  fs (snd (process_arxiv_paper ascii_only no_cv2 abs_2412 [py "output"]
             (start (Dir []))))
  = Dir [ (py "output",
           Dir [ (py ".tmp",
                  Dir [ (py "2412.15289.pdf",
                         File [Byte.x25; Byte.x50; Byte.x44; Byte.x46]);
                        (py "mineru_output", Dir []) ]) ]) ] /\
  fst (process_arxiv_paper ascii_only (with_tool no_cv2 tool_silent) abs_2412
         [py "output"]
         (World (fs (snd (process_arxiv_paper ascii_only no_cv2 abs_2412
                            [py "output"] (start (Dir []))))) []))
  = Ok true.
Proof. split; vm_compute; reflexivity. Qed.

Lemma leading_space_reference_fails_before_download_witness :
  parse_arxiv_url ascii_only (py " " ++ py "https://arxiv.org/abs/2412.15289" ++ [])
  = Some (canonical_url (py "2412.15289")) /\
  extract_arxiv_id ascii_only (py " " ++ py "https://arxiv.org/abs/2412.15289" ++ [])
  = None /\
  process_arxiv_paper ascii_only no_cv2
    (py " " ++ py "https://arxiv.org/abs/2412.15289" ++ []) [py "output"]
    (start (Dir []))
  = (Ok false, start (Dir [])).
Proof.
  apply (@leading_space_reference_fails_before_download ascii_only no_cv2
           (py "https://arxiv.org/abs/2412.15289") (py "https")
           (py "2412.15289") (py " ") [] [py "output"] (start (Dir []))).
  - right. reflexivity.
  - split; [discriminate | split; [repeat constructor | reflexivity]].
  - left. reflexivity.
  - repeat constructor.
  - discriminate.
  - constructor.
Defined.

(** White space after the reference only: [re.match] is not anchored at
    the end, the identifier is extracted, and the run goes on to request
    the download. *)
Lemma trailing_space_reference_resolves :
  parse_arxiv_url ascii_only (py "https://arxiv.org/abs/2412.15289 ")
  = Some (py "https://arxiv.org/pdf/2412.15289.pdf") /\
  extract_arxiv_id ascii_only (py "https://arxiv.org/abs/2412.15289 ")
  = Some (py "2412.15289") /\
  In (EvHttpGet (py "https://arxiv.org/pdf/2412.15289.pdf"))
     (trace (snd (process_arxiv_paper ascii_only no_cv2
                    (py "https://arxiv.org/abs/2412.15289 ") [py "output"]
                    (start (Dir []))))).
Proof.
  split; [reflexivity|]. split; [reflexivity|].
  vm_compute. left. reflexivity.
Qed.

End PipelineFacts.

(* ================================================================== *)
(** * Resolver and sanitisation: further properties *)
(* ================================================================== *)

Module ResolverLaws.
Import PyStr PyStrFacts Resolver ResolverFacts.

Local Unset Implicit Arguments.

Lemma match_lit_inv lit s r : match_lit lit s = Some r -> s = lit ++ r.
Proof.
  revert s. induction lit as [|a lit IH]; intros s; simpl.
  - intros [= ->]. reflexivity.
  - destruct s as [|b s]; [discriminate|].
    destruct (N.eqb_spec a b) as [->|_]; [|discriminate].
    intros H. rewrite (IH _ H). reflexivity.
Qed.

Lemma takewhile_dropwhile p s : s = takewhile p s ++ dropwhile (fun c => p c) s.
Proof.
  induction s as [|c s IH]; simpl; [reflexivity|].
  destruct (p c); simpl; [f_equal; exact IH | reflexivity].
Qed.

Lemma takewhile_Forall p s : Forall (fun c => p c = true) (takewhile p s).
Proof.
  induction s as [|c s IH]; simpl; [constructor|].
  destruct (p c) eqn:E; constructor; assumption.
Qed.

Lemma takewhile_tail_clean p s : clean p (dropwhile (fun c => p c) s).
Proof. apply dropwhile_clean. Qed.

Section WithTables.
Context (U : unicode_db).

(** What a match of either pattern tells about the subject: a scheme, the
    host, the kind, then the identifier, which is the longest run of class
    characters there. *)
Lemma re_match_arxiv_inv kind s id :
  re_match_arxiv U kind s = Some id ->
  exists scheme tail,
    scheme_ok scheme /\
    s = scheme ++ py "://arxiv.org/" ++ kind ++ py "/" ++ id ++ tail /\
    id <> [] /\ Forall (fun c => id_char U c = true) id /\
    clean (id_char U) tail.
Proof.
  unfold re_match_arxiv.
  destruct (match_lit (py "http") s) as [r1|] eqn:E1; [|discriminate].
  destruct (match_lit _ (match_opt_char 115%N r1)) as [r2|] eqn:E2;
    [|discriminate].
  apply match_lit_inv in E1. apply match_lit_inv in E2.
  destruct (takewhile (id_char U) r2) as [|c run] eqn:E3; [discriminate|].
  intros [= <-].
  assert (Hs : exists scheme, scheme_ok scheme /\
                 s = scheme ++ match_opt_char 115%N r1).
  { unfold match_opt_char. destruct r1 as [|b r1].
    - exists (py "http"). split; [left; reflexivity | exact E1].
    - destruct (N.eqb_spec b 115) as [->|_].
      + exists (py "https"). split; [right; reflexivity | exact E1].
      + exists (py "http"). split; [left; reflexivity | exact E1]. }
  destruct Hs as (scheme & Hok & ->).
  exists scheme, (dropwhile (fun c => id_char U c) r2).
  split; [exact Hok|]. split; [|split; [discriminate|split]].
  - rewrite E2, (takewhile_dropwhile (id_char U) r2) at 1.
    rewrite E3, <- !app_assoc. reflexivity.
  - rewrite <- E3. apply takewhile_Forall.
  - apply dropwhile_clean.
Qed.

Lemma canonical_url_clean id :
  clean (isspace U) (canonical_url id) /\
  clean (isspace U) (rev (canonical_url id)).
Proof.
  split; [reflexivity|].
  unfold canonical_url. rewrite !rev_app_distr. reflexivity.
Qed.

(** The canonical URL of an identifier resolves to itself and to that
    identifier. *)
Lemma canonical_url_resolves id :
  Forall (fun c => id_char U c = true) id ->
  parse_arxiv_url U (canonical_url id) = Some (canonical_url id) /\
  extract_arxiv_id U (canonical_url id) = Some id.
Proof.
  intros Hid.
  assert (Hok : scheme_ok (py "https")) by (right; reflexivity).
  pose proof (@re_match_pdf_suffixed U (py "https") id Hok Hid) as Hm.
  change (pdf_form_suffixed (py "https") id) with (canonical_url id) in Hm.
  assert (Ha : re_match_arxiv U (py "abs") (canonical_url id) = None)
    by reflexivity.
  split.
  - unfold parse_arxiv_url. cbv zeta. unfold strip.
    rewrite (strip_by_id _ _ (proj1 (canonical_url_clean id))
               (proj2 (canonical_url_clean id))).
    rewrite Ha, Hm, endswith_app. reflexivity.
  - unfold extract_arxiv_id. rewrite Ha, Hm, endswith_app.
    f_equal. apply (drop_last_app id (py ".pdf")).
Qed.

Lemma parse_arxiv_url_by_id (arxiv_link : str) :
  parse_arxiv_url U arxiv_link
  = option_map canonical_url (extract_arxiv_id U (strip U arxiv_link)).
Proof.
  unfold parse_arxiv_url, extract_arxiv_id. cbv zeta.
  destruct (re_match_arxiv U (py "abs") (strip U arxiv_link)) as [id|];
    [reflexivity|].
  destruct (re_match_arxiv U (py "pdf") (strip U arxiv_link)) as [id|];
    [|reflexivity].
  destruct (endswith (py ".pdf") id) eqn:E; [|reflexivity].
  apply endswith_spec in E. destruct E as (front & ->).
  cbn [option_map]. unfold canonical_url.
  change 4%nat with (List.length (py ".pdf")).
  rewrite (drop_last_app front (py ".pdf")). reflexivity.
Qed.

Lemma extract_arxiv_id_chars s id :
  extract_arxiv_id U s = Some id -> Forall (fun c => id_char U c = true) id.
Proof.
  unfold extract_arxiv_id.
  destruct (re_match_arxiv U (py "abs") s) as [a|] eqn:Ea.
  - intros [= <-].
    destruct (re_match_arxiv_inv _ _ _ Ea) as (_ & _ & _ & _ & _ & H & _).
    exact H.
  - destruct (re_match_arxiv U (py "pdf") s) as [a|] eqn:Ep; [|discriminate].
    destruct (re_match_arxiv_inv _ _ _ Ep) as (_ & _ & _ & _ & _ & H & _).
    destruct (endswith (py ".pdf") a) eqn:E; intros [= <-]; [|exact H].
    apply endswith_spec in E. destruct E as (front & ->).
    change 4%nat with (List.length (py ".pdf")).
    rewrite (drop_last_app front (py ".pdf")).
    apply Forall_app in H. exact (proj1 H).
Qed.

(** X1.  [parse_arxiv_url] and [extract_arxiv_id] agree on every input,
    once it is stripped: the first accepts a link exactly when the second
    finds an identifier in it, and the URL it returns is then
    [https://arxiv.org/pdf/<id>.pdf] for that identifier. *)
Theorem parse_and_extract_agree (arxiv_link : str) :
  parse_arxiv_url U arxiv_link
  = option_map canonical_url (extract_arxiv_id U (strip U arxiv_link)).
Proof.
  unfold parse_arxiv_url, extract_arxiv_id. cbv zeta.
  destruct (re_match_arxiv U (py "abs") (strip U arxiv_link)) as [id|];
    [reflexivity|].
  destruct (re_match_arxiv U (py "pdf") (strip U arxiv_link)) as [id|];
    [|reflexivity].
  destruct (endswith (py ".pdf") id) eqn:E; [|reflexivity].
  apply endswith_spec in E. destruct E as (front & ->).
  cbn [option_map]. unfold canonical_url.
  change 4%nat with (List.length (py ".pdf")).
  rewrite (drop_last_app front (py ".pdf")). reflexivity.
Qed.

(** X2.  The URL [parse_arxiv_url] returns is a fixed point: resolved
    again it gives itself, and [extract_arxiv_id] finds in it the identifier
    of the stripped link it came from. *)
Theorem canonical_url_is_fixed_point (arxiv_link url : str) :
  parse_arxiv_url U arxiv_link = Some url ->
  parse_arxiv_url U url = Some url /\
  extract_arxiv_id U url = extract_arxiv_id U (strip U arxiv_link).
Proof.
  rewrite parse_arxiv_url_by_id.
  destruct (extract_arxiv_id U (strip U arxiv_link)) as [id|] eqn:E;
    [|discriminate].
  intros [= <-].
  apply (canonical_url_resolves id (extract_arxiv_id_chars _ _ E)).
Qed.

(** X3.  Only arXiv links are accepted.  When [parse_arxiv_url] returns
    a URL, the stripped link starts with [http] or [https], the host
    [arxiv.org], [abs] or [pdf], and a non-empty run of characters of the
    class [[\w.\-]], ended by the end of the link or by a character outside
    the class; the URL returned starts with [https://arxiv.org/pdf/] and
    ends with [.pdf]. *)
Theorem accepted_links_are_arxiv_links (arxiv_link url : str) :
  parse_arxiv_url U arxiv_link = Some url ->
  exists scheme kind id tail,
    scheme_ok scheme /\ (kind = py "abs" \/ kind = py "pdf") /\
    strip U arxiv_link
    = scheme ++ py "://arxiv.org/" ++ kind ++ py "/" ++ id ++ tail /\
    id <> [] /\ Forall (fun c => id_char U c = true) id /\
    clean (id_char U) tail /\
    startswith (py "https://arxiv.org/pdf/") url = true /\
    endswith (py ".pdf") url = true.
Proof.
  unfold parse_arxiv_url. cbv zeta.
  destruct (re_match_arxiv U (py "abs") (strip U arxiv_link)) as [id|] eqn:Ea.
  - intros [= <-].
    destruct (re_match_arxiv_inv _ _ _ Ea) as (scheme & tail & H1 & H2 & H3).
    exists scheme, (py "abs"), id, tail.
    repeat split; try tauto.
    apply endswith_spec. exists (py "https://arxiv.org/pdf/" ++ id).
    rewrite <- app_assoc. reflexivity.
  - destruct (re_match_arxiv U (py "pdf") (strip U arxiv_link)) as [id|] eqn:Ep;
      [|discriminate].
    destruct (re_match_arxiv_inv _ _ _ Ep) as (scheme & tail & H1 & H2 & H3).
    intros Hurl. exists scheme, (py "pdf"), id, tail.
    repeat split; try tauto.
    + destruct (endswith (py ".pdf") id); injection Hurl as <-; reflexivity.
    + destruct (endswith (py ".pdf") id) eqn:E; injection Hurl as <-.
      * apply endswith_spec in E. destruct E as (front & ->).
        apply endswith_spec. exists (py "https://arxiv.org/pdf/" ++ front).
        rewrite <- app_assoc. reflexivity.
      * apply endswith_spec. exists (py "https://arxiv.org/pdf/" ++ id).
        rewrite <- app_assoc. reflexivity.
Qed.

(** ** File names *)

(** The name neither starts nor ends with a dot or an underscore. *)
Definition trimmed (s : str) : Prop :=
  clean dot_or_underscore s /\ clean dot_or_underscore (rev s).

Lemma sanitize_filename_trimmed name : trimmed (sanitize_filename U name).
Proof. split; [apply strip_by_clean | apply strip_by_clean_rev]. Qed.

(** X4.  The result of [sanitize_filename] holds only characters of
    [[\w\-\.]] and neither starts nor ends with a dot or an underscore; and
    the names the function leaves as they are, are exactly those of that
    form. *)
Theorem sanitize_filename_fixed_points :
  (forall name,
     Forall (fun c => safe_char U c = true) (sanitize_filename U name) /\
     trimmed (sanitize_filename U name)) /\
  (forall name,
     sanitize_filename U name = name <->
     Forall (fun c => safe_char U c = true) name /\ trimmed name).
Proof.
  split.
  - intros name. split;
      [apply sanitize_filename_safe | apply sanitize_filename_trimmed].
  - intros name. split.
    + intros <-. split;
        [apply sanitize_filename_safe | apply sanitize_filename_trimmed].
    + intros (Hsafe & H1 & H2). unfold sanitize_filename.
      rewrite (sub_unsafe_runs_id U false Hsafe).
      apply strip_by_id; assumption.
Qed.

Lemma hyphen_kept : safe_char U 45%N = true /\ dot_or_underscore 45%N = false.
Proof. split; reflexivity. Qed.

Lemma sub_unsafe_runs_dots b name :
  Forall (fun c => isalnum U c = false /\ c <> 45%N) name ->
  Forall (fun c => dot_or_underscore c = true) (sub_unsafe_runs U b name).
Proof.
  intros H. revert b.
  induction H as [|c name (Hal & Hhy) _ IH]; intros b; simpl; [constructor|].
  destruct (safe_char U c) eqn:E.
  - constructor; [|apply IH].
    unfold safe_char, is_word in E. rewrite Hal in E.
    unfold dot_or_underscore.
    destruct (N.eqb_spec c 95) as [->|_]; [reflexivity|].
    destruct (N.eqb_spec c 45) as [->|_]; [congruence|].
    destruct (N.eqb_spec c 46) as [->|_]; [reflexivity | discriminate E].
  - destruct b; [apply IH|]. constructor; [reflexivity | apply IH].
Qed.

(** X5.  [sanitize_filename] returns the empty string exactly when the
    name holds no alphanumeric character and no hyphen. *)
Theorem sanitize_filename_empty_iff (name : str) :
  sanitize_filename U name = [] <->
  Forall (fun c => isalnum U c = false /\ c <> 45%N) name.
Proof.
  split.
  - intros E. apply Forall_forall. intros c Hin.
    assert (Hkeep : safe_char U c = true -> dot_or_underscore c = false -> False).
    { intros Hs Hd.
      pose proof (strip_by_In dot_or_underscore _ c
                    (sub_unsafe_runs_In U false name c Hin Hs) Hd) as H.
      unfold sanitize_filename in E. rewrite E in H. exact H. }
    split.
    + destruct (isalnum U c) eqn:Hal; [|reflexivity]. exfalso.
      apply Hkeep;
        [exact (@alnum_safe U c Hal)
        |exact (@alnum_not_dot_or_underscore U c Hal)].
    + intros ->. apply Hkeep; apply hyphen_kept.
  - intros H. unfold sanitize_filename, strip_by.
    rewrite (@dropwhile_all dot_or_underscore _
               (sub_unsafe_runs_dots false name H)).
    reflexivity.
Qed.

End WithTables.

Lemma canonical_url_is_fixed_point_witness :
  parse_arxiv_url ascii_only (py "https://arxiv.org/pdf/2412.15289.pdf")
  = Some (py "https://arxiv.org/pdf/2412.15289.pdf") /\
  extract_arxiv_id ascii_only (py "https://arxiv.org/pdf/2412.15289.pdf")
  = extract_arxiv_id ascii_only
      (strip ascii_only (py "  http://arxiv.org/abs/2412.15289 ")).
Proof.
  apply (canonical_url_is_fixed_point ascii_only
           (py "  http://arxiv.org/abs/2412.15289 ")).
  reflexivity.
Defined.

Lemma accepted_links_are_arxiv_links_witness :
  exists scheme kind id tail,
    scheme_ok scheme /\ (kind = py "abs" \/ kind = py "pdf") /\
    strip ascii_only (py " http://arxiv.org/pdf/2412.15289v2.pdf?download ")
    = scheme ++ py "://arxiv.org/" ++ kind ++ py "/" ++ id ++ tail /\
    id <> [] /\ Forall (fun c => id_char ascii_only c = true) id /\
    clean (id_char ascii_only) tail /\
    startswith (py "https://arxiv.org/pdf/")
      (py "https://arxiv.org/pdf/2412.15289v2.pdf") = true /\
    endswith (py ".pdf") (py "https://arxiv.org/pdf/2412.15289v2.pdf") = true.
Proof.
  apply (accepted_links_are_arxiv_links ascii_only
           (py " http://arxiv.org/pdf/2412.15289v2.pdf?download ")).
  reflexivity.
Defined.

(** Links the patterns do not accept: another host before the arXiv
    address, another scheme, an empty identifier. *)
Example links_not_accepted :
  parse_arxiv_url ascii_only (py "https://example.org/?u=https://arxiv.org/abs/2412.15289") = None /\
  parse_arxiv_url ascii_only (py "ftp://arxiv.org/abs/2412.15289") = None /\
  parse_arxiv_url ascii_only (py "arxiv.org/abs/2412.15289") = None /\
  parse_arxiv_url ascii_only (py "https://arxiv.org/abs/") = None.
Proof. repeat split. Qed.

Example sanitize_to_nothing :
  sanitize_filename ascii_only (py "...") = [] /\
  sanitize_filename ascii_only (py "?? __ !!") = [] /\
  sanitize_filename ascii_only (py "-") = py "-".
Proof. repeat split. Qed.

End ResolverLaws.

(* ================================================================== *)
(** * Title inference: further properties *)
(* ================================================================== *)

Module TitleLaws.
Import PyStr PyStrFacts Title TitleFacts.

Local Unset Implicit Arguments.

(** [t] occurs in [s] as a contiguous part. *)
Definition occurs_in (t s : str) : Prop :=
  exists before after, s = before ++ t ++ after.

Definition single_line (s : str) : Prop := Forall (fun c => c <> 10%N) s.

Lemma occurs_in_refl s : occurs_in s s.
Proof. exists [], []. rewrite app_nil_r. reflexivity. Qed.

Lemma occurs_in_trans a b c : occurs_in a b -> occurs_in b c -> occurs_in a c.
Proof.
  intros (x & y & ->) (x' & y' & ->). exists (x' ++ x), (y ++ y').
  rewrite <- !app_assoc. reflexivity.
Qed.

Lemma occurs_in_suffix a s t : occurs_in a t -> occurs_in a (s ++ t).
Proof.
  intros (x & y & ->). exists (s ++ x), y. rewrite <- app_assoc. reflexivity.
Qed.

Lemma occurs_in_prefix a s t : occurs_in a s -> occurs_in a (s ++ t).
Proof.
  intros (x & y & ->). exists x, (y ++ t). rewrite <- !app_assoc. reflexivity.
Qed.

Lemma occurs_in_single_line a s : occurs_in a s -> single_line s -> single_line a.
Proof.
  intros (x & y & ->) H. unfold single_line in *.
  apply Forall_app in H. destruct H as (_ & H).
  apply Forall_app in H. exact (proj1 H).
Qed.

Lemma dropwhile_occurs p s : occurs_in (dropwhile p s) s.
Proof.
  destruct (dropwhile_split p s) as (a & Ha & _).
  exists a, []. rewrite app_nil_r. exact Ha.
Qed.

Lemma rev_occurs a s : occurs_in a s -> occurs_in (rev a) (rev s).
Proof.
  intros (x & y & ->). exists (rev y), (rev x).
  rewrite !rev_app_distr, <- app_assoc. reflexivity.
Qed.

Lemma strip_by_occurs p s : occurs_in (strip_by p s) s.
Proof.
  unfold strip_by.
  apply (occurs_in_trans _ (dropwhile p s)); [|apply dropwhile_occurs].
  rewrite <- (rev_involutive (dropwhile p s)) at 2.
  apply rev_occurs, dropwhile_occurs.
Qed.

Lemma skipn_occurs n (s : str) : occurs_in (skipn n s) s.
Proof.
  exists (firstn n s), []. rewrite app_nil_r. symmetry. apply firstn_skipn.
Qed.

Lemma firstn_occurs n (s : str) : occurs_in (firstn n s) s.
Proof.
  exists [], (skipn n s). symmetry. apply firstn_skipn.
Qed.

(** Every line of [split('\n')] is a part of the text and holds no
    newline. *)
Lemma split_lines_aux_lines s : forall cur pre l,
  single_line cur -> In l (split_lines_aux cur s) ->
  single_line l /\ occurs_in l (pre ++ rev cur ++ s).
Proof.
  induction s as [|c s IH]; intros cur pre l Hcur Hin.
  - destruct Hin as [<-|[]]. split; [apply Forall_rev, Hcur|].
    exists pre, []. reflexivity.
  - cbn [split_lines_aux] in Hin. destruct (N.eqb_spec c 10) as [->|Hc].
    + destruct Hin as [<-|Hin].
      * split; [apply Forall_rev, Hcur|]. exists pre, (10%N :: s). reflexivity.
      * assert (Hnil : single_line []) by constructor.
        destruct (IH [] (pre ++ rev cur ++ [10%N]) l Hnil Hin) as (H1 & H2).
        split; [exact H1|]. simpl in H2. rewrite <- !app_assoc in H2. exact H2.
    + assert (Hcur' : single_line (c :: cur)) by (constructor; assumption).
      destruct (IH (c :: cur) pre l Hcur' Hin) as (H1 & H2).
      split; [exact H1|]. simpl in H2. rewrite <- app_assoc in H2. exact H2.
Qed.

Lemma split_lines_lines content l :
  In l (split_lines content) -> single_line l /\ occurs_in l content.
Proof.
  intros Hin.
  assert (Hnil : single_line []) by constructor.
  exact (split_lines_aux_lines content [] [] l Hnil Hin).
Qed.

(** A bold span is a part of the text between two pairs of stars and
    holds no newline. *)
Lemma bold_close_span s : forall m r,
  bold_close s = Some (m, r) -> s = m ++ py "**" ++ r /\ single_line m.
Proof.
  induction s as [|c s IH]; intros m r; cbn [bold_close].
  - destruct (startswith (py "**") []) eqn:E; [discriminate E | discriminate].
  - destruct (startswith (py "**") (c :: s)) eqn:E.
    + intros [= <- <-]. apply startswith_spec in E. destruct E as (rest & E).
      injection E as -> ->. split; [reflexivity | constructor].
    + destruct (N.eqb_spec c 10) as [->|Hc]; [discriminate|].
      destruct (bold_close s) as [[m' r']|] eqn:Eb; [|discriminate].
      intros [= <- <-]. destruct (IH m' r' eq_refl) as (-> & Hm).
      split; [reflexivity | constructor; assumption].
Qed.

Lemma findall_bold_fuel_spans fuel : forall s m,
  In m (findall_bold_fuel fuel s) -> single_line m /\ occurs_in m s.
Proof.
  induction fuel as [|fuel IH]; intros s m; cbn [findall_bold_fuel]; [intros []|].
  destruct s as [|c s']; [intros []|].
  assert (Hnext : In m (findall_bold_fuel fuel s') ->
                  single_line m /\ occurs_in m (c :: s')).
  { intros H. destruct (IH _ _ H) as (H1 & H2). split; [exact H1|].
    apply (occurs_in_suffix m [c] s' H2). }
  destruct (startswith (py "**") (c :: s')) eqn:E; [|exact Hnext].
  destruct (bold_close (skipn 2 (c :: s'))) as [[m' r]|] eqn:Eb; [|exact Hnext].
  destruct (bold_close_span _ _ _ Eb) as (Es & Hm).
  assert (Hsk : occurs_in (skipn 2 (c :: s')) (c :: s')) by apply skipn_occurs.
  intros [<-|Hin].
  - split; [exact Hm|].
    apply (occurs_in_trans _ (skipn 2 (c :: s'))); [|exact Hsk].
    rewrite Es. exists [], (py "**" ++ r). reflexivity.
  - destruct (IH _ _ Hin) as (H1 & H2). split; [exact H1|].
    apply (occurs_in_trans _ (skipn 2 (c :: s'))); [|exact Hsk].
    rewrite Es. rewrite app_assoc. apply occurs_in_suffix, H2.
Qed.

Lemma first_some_In {A B : Type} (f : A -> option B) xs y :
  first_some f xs = Some y -> exists x, In x xs /\ f x = Some y.
Proof.
  induction xs as [|a xs IH]; simpl; [discriminate|].
  destruct (f a) as [b|] eqn:E.
  - intros [= <-]. exists a. split; [left; reflexivity | exact E].
  - intros H. destruct (IH H) as (x & Hin & Hx).
    exists x. split; [right; exact Hin | exact Hx].
Qed.

Lemma In_firstn {A : Type} n (xs : list A) x : In x (firstn n xs) -> In x xs.
Proof.
  intros H. rewrite <- (firstn_skipn n xs). apply in_or_app. left. exact H.
Qed.

Section WithTables.
Context (U : unicode_db).

Lemma heading_title_part line title :
  heading_title U line = Some title ->
  occurs_in title line /\ (10 < List.length title < 200)%nat.
Proof.
  intros H. apply heading_title_spec in H.
  destruct H as (body & Eb & -> & Hlen & _). split; [|exact Hlen].
  apply (occurs_in_trans _ body); [apply strip_by_occurs|].
  apply (occurs_in_trans _ (strip U line)); [|apply strip_by_occurs].
  rewrite Eb. exists (py "# "), []. rewrite app_nil_r. reflexivity.
Qed.

Lemma plain_title_part line title :
  plain_title U line = Some title ->
  occurs_in title line /\ (20 < List.length title < 200)%nat.
Proof.
  unfold plain_title. cbv zeta.
  destruct (negb _ && negb _ && negb _); [|discriminate].
  destruct (20 <? List.length (strip U line))%nat eqn:E1; [|discriminate].
  destruct (List.length (strip U line) <? 200)%nat eqn:E2; [|discriminate].
  cbn [andb].
  destruct (existsb _ _ && negb _ && _); [|discriminate].
  intros [= <-]. apply Nat.ltb_lt in E1. apply Nat.ltb_lt in E2.
  split; [apply strip_by_occurs | lia].
Qed.

Lemma bold_title_part m title :
  bold_title U m = Some title ->
  title = m /\ (20 < List.length title < 200)%nat.
Proof.
  unfold bold_title.
  destruct (20 <? List.length m)%nat eqn:E1; [|discriminate].
  destruct (List.length m <? 200)%nat eqn:E2; [|discriminate].
  cbn [andb]. destruct (negb _); [|discriminate].
  intros [= <-]. apply Nat.ltb_lt in E1. apply Nat.ltb_lt in E2.
  split; [reflexivity | lia].
Qed.

(** Where a title comes from, whichever method finds it. *)
Lemma extract_title_from_markdown_cases content :
  extract_title_from_markdown U content = [] \/
  (single_line (extract_title_from_markdown U content) /\
   occurs_in (extract_title_from_markdown U content) content /\
   (10 < List.length (extract_title_from_markdown U content) < 200)%nat).
Proof.
  unfold extract_title_from_markdown. cbv zeta.
  destruct (first_some (heading_title U) _) as [t|] eqn:E1.
  { right. apply first_some_In in E1. destruct E1 as (l & Hin & Hl).
    apply In_firstn in Hin. destruct (split_lines_lines _ _ Hin) as (H1 & H2).
    destruct (heading_title_part _ _ Hl) as (H3 & H4).
    split; [exact (occurs_in_single_line _ _ H3 H1)|].
    split; [exact (occurs_in_trans _ _ _ H3 H2) | exact H4]. }
  destruct (first_some (plain_title U) _) as [t|] eqn:E2.
  { right. apply first_some_In in E2. destruct E2 as (l & Hin & Hl).
    apply In_firstn in Hin. destruct (split_lines_lines _ _ Hin) as (H1 & H2).
    destruct (plain_title_part _ _ Hl) as (H3 & H4).
    split; [exact (occurs_in_single_line _ _ H3 H1)|].
    split; [exact (occurs_in_trans _ _ _ H3 H2) | lia]. }
  destruct (first_some (bold_title U) _) as [t|] eqn:E3; [|left; reflexivity].
  right. apply first_some_In in E3. destruct E3 as (m & Hin & Hm).
  destruct (bold_title_part _ _ Hm) as (-> & H4).
  destruct (findall_bold_fuel_spans _ _ _ Hin) as (H1 & H2).
  split; [exact H1|].
  split; [exact (occurs_in_trans _ _ _ H2 (firstn_occurs 2000 content)) | lia].
Qed.

(** X6.  A title [extract_title_from_markdown] returns is empty or has
    more than 10 and fewer than 200 characters, whichever of the three
    methods found it. *)
Theorem title_length_bounds (content : str) :
  extract_title_from_markdown U content = [] \/
  (10 < List.length (extract_title_from_markdown U content) < 200)%nat.
Proof.
  destruct (extract_title_from_markdown_cases content) as [E | (_ & _ & H)];
    [left; exact E | right; exact H].
Qed.

(** X7.  The title is taken from the transcript as it stands: it occurs
    in the content as a contiguous part, and it holds no newline. *)
Theorem title_is_verbatim_single_line (content : str) :
  occurs_in (extract_title_from_markdown U content) content /\
  single_line (extract_title_from_markdown U content).
Proof.
  destruct (extract_title_from_markdown_cases content) as [E | (H1 & H2 & _)].
  - rewrite E. split; [exists [], content; reflexivity | constructor].
  - split; assumption.
Qed.

(** X25.  Only the head of the transcript counts: two contents with the
    same first 50 lines and the same first 2000 characters get the same
    title. *)
Theorem title_depends_on_head_only (content content' : str) :
  firstn 50 (split_lines content) = firstn 50 (split_lines content') ->
  firstn 2000 content = firstn 2000 content' ->
  extract_title_from_markdown U content
  = extract_title_from_markdown U content'.
Proof.
  intros Hlines Hchars. unfold extract_title_from_markdown. cbv zeta.
  assert (H20 : firstn 20 (split_lines content)
                = firstn 20 (split_lines content')).
  { change 20%nat with (Nat.min 20 50).
    rewrite <- !firstn_firstn, Hlines. reflexivity. }
  rewrite Hlines, H20, Hchars. reflexivity.
Qed.

End WithTables.

(** A heading and two thousand empty lines, then one text or another. *)
Definition long_transcript (tail : str) : str :=
  py "# Attention Is All You Need" ++ repeat 10%N 2000 ++ tail.

Lemma title_depends_on_head_only_witness :
  extract_title_from_markdown ascii_only
    (long_transcript (py "# Another Heading That Would Qualify"))
  = extract_title_from_markdown ascii_only
      (long_transcript (py "**A bold span that would qualify as well**")).
Proof.
  apply (title_depends_on_head_only ascii_only
           (long_transcript (py "# Another Heading That Would Qualify"))
           (long_transcript (py "**A bold span that would qualify as well**")));
    vm_compute; reflexivity.
Defined.

End TitleLaws.

(* ================================================================== *)
(** * The pipeline: further properties *)
(* ================================================================== *)

Module PipelineLaws.
Import PyStr PyStrFacts Resolver ResolverFacts Title Fs FsFacts.
Import Pipeline PipelineFacts.

Local Unset Implicit Arguments.

Lemma is_prefix_app_inv (p a b : path) :
  is_prefix p (a ++ b) -> is_prefix p a \/ is_prefix a p.
Proof.
  revert a. induction p as [|c p IH]; intros a (r & H).
  - left. exists a. reflexivity.
  - destruct a as [|c' a].
    + right. exists (c :: p). reflexivity.
    + simpl in H. injection H as <- H.
      destruct (IH a (ex_intro _ r H)) as [Hp | Hp];
        [left | right]; apply is_prefix_cons; exact Hp.
Qed.

Lemma path_cases (q : path) : q = [] \/ exists d x, q = d ++ [x].
Proof.
  induction q as [|x d _] using rev_ind;
    [left; reflexivity | right; exists d, x; reflexivity].
Qed.

Lemma is_prefix_dirname (p q : path) :
  is_prefix p (dirname q) -> is_prefix p q.
Proof.
  destruct (path_cases q) as [-> | (d & x & ->)].
  - intros H. exact H.
  - intros (r & H). rewrite dirname_app in H. subst d.
    exists (r ++ [x]). rewrite app_assoc. reflexivity.
Qed.

Section WithOutside.
Context (U : unicode_db) (X : externals).

(** ** [download_file] *)

(** Skipping the empty chunks changes nothing of what is written. *)
Lemma written_chunks (chunks : list bytes) :
  List.concat (filter nonempty_chunk chunks) = List.concat chunks.
Proof.
  induction chunks as [|chunk chunks IH]; [reflexivity|].
  destruct chunk as [|b chunk]; cbn [filter nonempty_chunk List.concat app];
    rewrite IH; reflexivity.
Qed.

(** The run of [download_file], step by step. *)
Lemma download_file_run url dest_path w :
  download_file X url dest_path w =
  match os_makedirs (dirname dest_path) (fs w) with
  | Raise e => (Raise e, w)
  | Ok n0 =>
      match http_get X url with
      | HttpError e => (Raise e, World n0 (trace w ++ [EvHttpGet url]))
      | HttpBody chunks broken =>
          match write_at dest_path (List.concat (filter nonempty_chunk chunks)) n0 with
          | Raise e => (Raise e, World n0 (trace w ++ [EvHttpGet url]))
          | Ok n1 =>
              match broken with
              | Some e => (Raise e, World n1 (trace w ++ [EvHttpGet url]))
              | None => (Ok tt, World n1 (trace w ++ [EvHttpGet url]))
              end
          end
      end
  end.
Proof.
  unfold download_file. unfold_monad.
  destruct (os_makedirs (dirname dest_path) (fs w)) as [n0|e]; [|reflexivity].
  cbn [fs trace].
  destruct (http_get X url) as [e|chunks broken]; [reflexivity|].
  unfold_monad. cbn [fs trace].
  destruct (write_at dest_path _ n0) as [n1|e]; [|reflexivity].
  destruct broken; reflexivity.
Qed.

(** X8.  A download that succeeds stores the body: [download_file] makes
    the directory of the destination, requests the URL once, and returns
    with the destination holding exactly the bytes received, the chunks
    one after the other; nothing else is changed except the directories
    made on the way.  The destination is a name in a directory [d] other
    than the current one (with an empty directory part [os.makedirs]
    refuses). *)
Theorem download_stores_the_body
  (url : str) (d : path) (x : str) (chunks : list bytes) (w : world)
  (n0 : node) :
  d <> [] ->
  makedirs_at d (fs w) = Ok n0 ->
  isdir n0 (d ++ [x]) = false ->
  http_get X url = HttpBody chunks None ->
  exists n1,
    download_file X url (d ++ [x]) w
    = (Ok tt, World n1 (trace w ++ [EvHttpGet url])) /\
    read_at (d ++ [x]) n1 = Ok (List.concat chunks) /\
    (forall p, ~ is_prefix p (d ++ [x]) -> lookup n1 p = lookup (fs w) p).
Proof.
  intros Hd Hmk Hx Hget.
  destruct (write_at_child d x (List.concat chunks) n0
              (makedirs_at_isdir _ _ _ Hmk) Hx) as (n1 & Hw).
  exists n1.
  rewrite download_file_run, dirname_app, (os_makedirs_nonempty _ _ Hd), Hmk,
    Hget, written_chunks, Hw.
  split; [reflexivity|]. split.
  - unfold read_at. rewrite (write_at_lookup _ _ _ _ Hw). reflexivity.
  - intros p Hp. rewrite (write_at_frame _ _ _ _ p Hw Hp).
    apply (makedirs_at_frame _ _ _ p Hmk).
    intros Hpre. apply Hp. destruct Hpre as (r & ->).
    exists (r ++ [x]). rewrite app_assoc. reflexivity.
Qed.

(** X9.  When the server refuses the request, [download_file] raises
    before the destination is opened: a file already there keeps its
    content and none is created; at most the directories above the
    destination are made. *)
Theorem refused_download_writes_nothing
  (url : str) (dest_path : path) (e : exn) (w : world) :
  http_get X url = HttpError e ->
  exists e' w',
    download_file X url dest_path w = (Raise e', w') /\
    lookup (fs w') dest_path = lookup (fs w) dest_path /\
    (forall p, ~ is_prefix p (dirname dest_path) ->
               lookup (fs w') p = lookup (fs w) p).
Proof.
  intros Hget. rewrite download_file_run, Hget.
  destruct (os_makedirs (dirname dest_path) (fs w)) as [n0|e0] eqn:Hmk.
  - apply os_makedirs_ok in Hmk as (_ & Hmk).
    exists e. eexists. split; [reflexivity|]. cbn [fs]. split.
    + destruct (path_cases dest_path) as [-> | (d & x & ->)].
      * simpl in Hmk. destruct (fs w); [discriminate|].
        injection Hmk as <-. reflexivity.
      * rewrite dirname_app in Hmk.
        apply (makedirs_at_frame _ _ _ _ Hmk), not_prefix_of_parent.
    + intros p Hp. apply (makedirs_at_frame _ _ _ p Hmk Hp).
  - exists e0, w. repeat split.
Qed.

(** X10.  When the iteration over the body raises after it has yielded
    some chunks, [download_file] raises that exception and the chunks
    written so far stay in the destination file: nothing removes the
    partial file.  What the library had received of a chunk it did not
    yield is not in the file; with no chunk yielded the file is there and
    empty. *)
Theorem interrupted_download_leaves_partial_file
  (url : str) (d : path) (x : str) (chunks : list bytes) (e : exn)
  (w : world) (n0 : node) :
  d <> [] ->
  makedirs_at d (fs w) = Ok n0 ->
  isdir n0 (d ++ [x]) = false ->
  http_get X url = HttpBody chunks (Some e) ->
  exists n1,
    download_file X url (d ++ [x]) w
    = (Raise e, World n1 (trace w ++ [EvHttpGet url])) /\
    read_at (d ++ [x]) n1 = Ok (List.concat chunks).
Proof.
  intros Hd Hmk Hx Hget.
  destruct (write_at_child d x (List.concat chunks) n0
              (makedirs_at_isdir _ _ _ Hmk) Hx) as (n1 & Hw).
  exists n1.
  rewrite download_file_run, dirname_app, (os_makedirs_nonempty _ _ Hd), Hmk,
    Hget, written_chunks, Hw.
  split; [reflexivity|].
  unfold read_at. rewrite (write_at_lookup _ _ _ _ Hw). reflexivity.
Qed.

(** ** The copy loop *)

Lemma join_name_not_root (d : path) (name : str) :
  name <> [] -> join d name <> [].
Proof.
  intros H. rewrite (join_nonempty d name H). destruct d; discriminate.
Qed.

(** X11.  Directory entries whose name does not end (case-insensitively)
    in one of the five image extensions play no part in the copy loop: the
    loop over all names is the loop over the names with an image
    extension. *)
Theorem entries_without_image_suffix_ignored
  (source_images_dir paper_output_dir : path) (names : list str) (c : Z)
  (w : world) :
  copy_loop U X source_images_dir paper_output_dir names c w
  = copy_loop U X source_images_dir paper_output_dir
      (filter (has_image_suffix U) names) c w.
Proof.
  revert c w. induction names as [|name rest IH]; intros c w; [reflexivity|].
  cbn [copy_loop filter]. destruct (has_image_suffix U name) eqn:E.
  - cbn [copy_loop]. rewrite E. unfold bind.
    destruct (try_except _ _ w) as [[c'|e] w1]; [apply IH | reflexivity].
  - apply IH.
Qed.

(** One turn of the loop leaves the count as it is or adds one. *)
Lemma copy_one_result src dst c w :
  dst <> [] ->
  exists w',
    try_except (copy_one X src dst c) (fun _ => ret c) w = (Ok c, w') \/
    try_except (copy_one X src dst c) (fun _ => ret c) w = (Ok (c + 1)%Z, w').
Proof.
  intros Hne. unfold try_except. rewrite (copy_one_run X _ _ _ _ Hne).
  destruct (getsize X src w) as [[size|e] w1]; [|exists w; left; reflexivity].
  destruct (size <? 5000)%Z; [exists w; left; reflexivity|].
  destruct (enhance_image_quality X src dst w) as [[p|e] w2];
    exists w2; [right | left]; reflexivity.
Qed.

(** X12.  The copy loop never raises, and it adds to the count at most
    the number of names with an image extension; the count never
    decreases. *)
Theorem copy_count_bounds
  (source_images_dir paper_output_dir : path) (names : list str) (c : Z)
  (w : world) :
  exists k w',
    copy_loop U X source_images_dir paper_output_dir names c w
    = (Ok (c + k)%Z, w') /\
    (0 <= k <= Z.of_nat (List.length (filter (has_image_suffix U) names)))%Z.
Proof.
  revert c w. induction names as [|name rest IH]; intros c w.
  - exists 0%Z, w. split; [unfold copy_loop, ret; rewrite Z.add_0_r; reflexivity|].
    simpl. lia.
  - cbn [copy_loop filter]. destruct (has_image_suffix U name) eqn:E.
    + unfold bind.
      destruct (copy_one_result (join source_images_dir name)
                  (join paper_output_dir name) c w
                  (join_name_not_root _ _ (image_suffix_nonempty U _ E)))
        as (w1 & [-> | ->]).
      * destruct (IH c w1) as (k & w' & -> & Hk).
        exists k, w'. split; [reflexivity|]. cbn [List.length]. lia.
      * destruct (IH (c + 1)%Z w1) as (k & w' & -> & Hk).
        exists (1 + k)%Z, w'. split; [f_equal; f_equal; lia|].
        cbn [List.length]. lia.
    + apply IH.
Qed.

(** The run of [copy_images_to_output], step by step. *)
Lemma copy_images_to_output_run source_images_dir output_dir paper_title w :
  copy_images_to_output U X source_images_dir output_dir paper_title w =
  match os_makedirs (join output_dir paper_title) (fs w) with
  | Raise e => (Raise e, w)
  | Ok n1 =>
      match (if os_path_exists n1 source_images_dir
             then lookup n1 source_images_dir else None) with
      | None => (Ok (0%Z, join output_dir paper_title), World n1 (trace w))
      | Some (File _) => (Raise NotADirectoryError, World n1 (trace w))
      | Some (Dir es) =>
          match copy_loop U X source_images_dir
                  (join output_dir paper_title) (map fst es) 0%Z
                  (World n1 (trace w)) with
          | (Ok k, w2) => (Ok (k, join output_dir paper_title), w2)
          | (Raise e, w2) => (Raise e, w2)
          end
      end
  end.
Proof.
  unfold copy_images_to_output. cbv zeta. unfold bind at 1.
  unfold makedirs, update_fs.
  destruct (os_makedirs (join output_dir paper_title) (fs w)) as [n1|e];
    [|reflexivity].
  unfold path_exists, listdir, bind, get_fs, ret, lift.
  cbv beta iota. cbn [fs trace].
  destruct source_images_dir as [|c src]; [reflexivity|].
  unfold os_path_exists, exists_, listdir_at.
  destruct (lookup n1 (c :: src)) as [[data|es]|] eqn:El;
    cbn [negb]; cbv beta iota; cbn [fs trace]; rewrite ?El; reflexivity.
Qed.

(** The root of the tree is a directory once a directory was made. *)
Lemma makedirs_at_root (q : path) (n n' : node) :
  q <> [] -> makedirs_at q n = Ok n' -> exists es, n' = Dir es.
Proof.
  intros Hq Hmk. pose proof (makedirs_at_isdir _ _ _ Hmk) as Hd.
  destruct n' as [data|es]; [|exists es; reflexivity].
  destruct q as [|c q]; [congruence|].
  unfold isdir in Hd. rewrite lookup_file_below in Hd. discriminate.
Qed.

(** X13.  Once the directory of the paper is made: when the source
    directory does not exist, [copy_images_to_output] returns a count of 0
    and the directory of the paper; when the source path is a regular file,
    [os.listdir] raises [NotADirectoryError], which the function lets
    through. *)
Theorem copy_images_source_edge_cases
  (source_images_dir output_dir : path) (paper_title : str) (w : world)
  (n1 : node) :
  join output_dir paper_title <> [] ->
  makedirs_at (join output_dir paper_title) (fs w) = Ok n1 ->
  (exists_ n1 source_images_dir = false ->
   copy_images_to_output U X source_images_dir output_dir paper_title w
   = (Ok (0%Z, join output_dir paper_title), World n1 (trace w))) /\
  (isfile n1 source_images_dir = true ->
   copy_images_to_output U X source_images_dir output_dir paper_title w
   = (Raise NotADirectoryError, World n1 (trace w))).
Proof.
  intros Hne Hmk.
  rewrite copy_images_to_output_run, (os_makedirs_nonempty _ _ Hne), Hmk.
  destruct (makedirs_at_root _ _ _ Hne Hmk) as (es1 & ->).
  destruct source_images_dir as [|c src]; [split; discriminate|].
  unfold os_path_exists, exists_, isfile. split.
  - destruct (lookup (Dir es1) (c :: src)); [discriminate | reflexivity].
  - destruct (lookup (Dir es1) (c :: src)) as [[data|es]|];
      try discriminate. reflexivity.
Qed.

(** A path is outside a directory when it is neither the directory or
    something in it, nor one of the directories above it. *)
Definition outside (dir p : path) : Prop :=
  ~ is_prefix p dir /\ ~ is_prefix dir p.

Lemma write_at_confined dir r data n n' p :
  write_at (dir ++ r) data n = Ok n' -> outside dir p ->
  lookup n' p = lookup n p.
Proof.
  intros Hw (H1 & H2). apply (write_at_frame _ _ _ _ p Hw).
  intros Hpre. destruct (is_prefix_app_inv _ _ _ Hpre); contradiction.
Qed.

Lemma enhance_image_quality_confined src out name w r w' :
  name <> [] ->
  enhance_image_quality X src (join out name) w = (r, w') ->
  trace w' = trace w /\
  (forall p, outside out p -> lookup (fs w') p = lookup (fs w) p).
Proof.
  intros Hname. rewrite (join_nonempty out name Hname).
  destruct r as [q|e]; intros H.
  - destruct (enhance_image_quality_ok X _ _ _ _ _ H)
      as (Ht & target & data & Hw & Hcase).
    split; [exact Ht|]. intros p Hp.
    destruct Hcase as [(_ & ->) | (_ & -> & _)].
    + unfold enhanced_name in Hw. rewrite dirname_app in Hw.
      exact (write_at_confined _ _ _ _ _ _ Hw Hp).
    + unfold copy_target, join in Hw. revert Hw.
      match goal with |- context [if ?b then _ else _] => destruct b end;
        [destruct (basename src); [|rewrite <- app_assoc]|];
        intros Hw; exact (write_at_confined _ _ _ _ _ _ Hw Hp).
  - rewrite (enhance_image_quality_raise X _ _ _ _ _ H). split; reflexivity.
Qed.

Lemma copy_loop_confined src out names : forall c w r w',
  copy_loop U X src out names c w = (r, w') ->
  trace w' = trace w /\
  (forall p, outside out p -> lookup (fs w') p = lookup (fs w) p).
Proof.
  induction names as [|name rest IH]; intros c w r w'.
  - intros [= _ <-]. split; reflexivity.
  - cbn [copy_loop]. destruct (has_image_suffix U name) eqn:E; [|apply IH].
    pose proof (image_suffix_nonempty U _ E) as Hname.
    unfold bind, try_except, ret.
    rewrite (copy_one_run X _ _ _ _ (join_name_not_root out _ Hname)).
    assert (Hsame : forall c', copy_loop U X src out rest c' w = (r, w') ->
              trace w' = trace w /\
              (forall p, outside out p -> lookup (fs w') p = lookup (fs w) p))
      by (intros c'; apply IH).
    destruct (getsize X (join src name) w) as [[size|e] w1]; [|apply Hsame].
    destruct (size <? 5000)%Z; [apply Hsame|].
    destruct (enhance_image_quality X (join src name) (join out name) w)
      as [[q|e] w2] eqn:Ee;
      destruct (enhance_image_quality_confined _ _ _ _ _ _ Hname Ee)
        as (Ht & Hf);
      intros Hrest; destruct (IH _ _ _ _ Hrest) as (Ht' & Hf');
      (split; [congruence | intros p Hp; rewrite (Hf' p Hp); apply Hf, Hp]).
Qed.

(** X14.  [copy_images_to_output] makes no external call and writes only
    in the directory of the paper: whatever lies neither in that directory
    nor above it, the source images among them, is left as it was. *)
Theorem copy_images_confined_to_paper_directory
  (source_images_dir output_dir : path) (paper_title : str)
  (w w' : world) (r : result (Z * path)) :
  copy_images_to_output U X source_images_dir output_dir paper_title w
  = (r, w') ->
  trace w' = trace w /\
  (forall p, outside (join output_dir paper_title) p ->
             lookup (fs w') p = lookup (fs w) p).
Proof.
  rewrite copy_images_to_output_run.
  destruct (os_makedirs (join output_dir paper_title) (fs w)) as [n1|e] eqn:Hmk;
    [apply os_makedirs_ok in Hmk as (_ & Hmk)
    |intros [= _ <-]; split; reflexivity].
  assert (Hmkf : forall p, outside (join output_dir paper_title) p ->
                           lookup n1 p = lookup (fs w) p).
  { intros p (Hp & _). apply (makedirs_at_frame _ _ _ p Hmk Hp). }
  destruct (if os_path_exists n1 source_images_dir then _ else _)
    as [[data|es]|];
    try (intros [= _ <-]; split; [reflexivity | exact Hmkf]).
  destruct (copy_loop U X source_images_dir (join output_dir paper_title)
              (map fst es) 0%Z (World n1 (trace w))) as [[k|e] w2] eqn:El;
    destruct (copy_loop_confined _ _ _ _ _ _ _ El) as (Ht & Hf);
    intros [= _ <-];
    (split; [exact Ht | intros p Hp; rewrite (Hf p Hp); apply Hmkf, Hp]).
Qed.

(** ** What the enhancement returns *)

(** X24.  [enhance_image_quality] never returns an empty value: when it
    returns, the path is the enhanced file or the destination, and a file
    exists there.  So in [copy_images_to_output] the branch that copies the
    source when no path comes back is never taken. *)
Theorem enhancement_always_names_a_file
  (src dst p : path) (w w' : world) :
  dst <> [] ->
  enhance_image_quality X src dst w = (Ok p, w') ->
  truthy p = true /\ (p = enhanced_name dst \/ p = dst) /\
  exists_ (fs w') p = true.
Proof.
  intros Hne H. split; [|split].
  - exact (enhance_image_quality_truthy X _ _ _ _ _ Hne H).
  - destruct (enhance_image_quality_ok X _ _ _ _ _ H)
      as (_ & target & data & _ & [(-> & _) | (-> & _)]); [left | right];
      reflexivity.
  - exact (proj1 (enhance_image_quality_exists X _ _ _ _ _ H)).
Qed.

(** X26.  An image of one megapixel or more is not resampled: it is
    decoded, passed through [apply_image_enhancement] and saved as PNG under
    the enhanced name, whether OpenCV can be imported or not. *)
Theorem large_image_enhanced_without_resampling
  (src d : path) (x : str) (w : world) (data png : bytes) (img : image X)
  (wd ht : Z) :
  has_pil X = true ->
  lookup (fs w) src = Some (File data) ->
  decoded_rgb X data = Ok img ->
  pil_size X img = (wd, ht) -> (1000000 <= wd * ht)%Z ->
  pil_save_png X (apply_image_enhancement X img) = Ok png ->
  isdir (fs w) d = true ->
  isdir (fs w) (enhanced_name (d ++ [x])) = false ->
  exists n',
    enhance_image_quality X src (d ++ [x]) w
    = (Ok (enhanced_name (d ++ [x])), World n' (trace w)) /\
    read_at (enhanced_name (d ++ [x])) n' = Ok png /\
    write_at (enhanced_name (d ++ [x])) png (fs w) = Ok n'.
Proof.
  intros Hpil Hsrc Hdec Hsize Hbig Hsave Hd Hx.
  assert (Hname : enhanced_name (d ++ [x])
                  = d ++ [splitext_root x ++ py "_enhanced.png"]).
  { unfold enhanced_name. rewrite dirname_app, basename_app. reflexivity. }
  rewrite Hname in *.
  destruct (write_at_child d _ png (fs w) Hd Hx) as (n' & Hw).
  exists n'. split; [|split; [|exact Hw]].
  - unfold enhance_image_quality, try_except, enhance_try. unfold_monad.
    rewrite Hpil. unfold read_at. rewrite Hsrc.
    unfold decoded_rgb in Hdec.
    assert (Hlarge : (wd * ht <? 1000000)%Z = false) by (apply Z.ltb_ge, Hbig).
    destruct (pil_open X data) as [img0|e]; [|discriminate].
    destruct (pil_is_rgb X img0);
      [injection Hdec as -> | rewrite Hdec];
      rewrite Hsize, Hlarge, Hsave, Hname; cbn [fs trace];
      unfold path, str, char in *; rewrite Hw; reflexivity.
  - pose proof (write_at_lookup _ _ _ _ Hw) as Hl.
    unfold read_at. unfold path, str, char in *. rewrite Hl. reflexivity.
Qed.

(** ** The name of the enhanced file *)

Lemma last_dot_cut_no_dot b ext :
  Forall (fun c => c <> 46%N) ext -> last_dot_cut b ext = None.
Proof.
  intros H. revert b. induction H as [|c ext Hc _ IH]; intros b; simpl;
    [reflexivity|].
  rewrite IH. destruct (N.eqb_spec c 46); [contradiction | reflexivity].
Qed.

Lemma last_dot_cut_at_last_dot stem ext : forall b,
  Forall (fun c => c <> 46%N) ext ->
  last_dot_cut b (stem ++ 46%N :: ext)
  = if b || existsb (fun c => negb (c =? 46)%N) stem then Some stem else None.
Proof.
  induction stem as [|c stem IH]; intros b Hext.
  - cbn [app last_dot_cut existsb]. rewrite (last_dot_cut_no_dot _ _ Hext).
    rewrite N.eqb_refl, orb_false_r. destruct b; reflexivity.
  - cbn [app last_dot_cut existsb]. rewrite (IH _ Hext), orb_assoc.
    destruct (b || negb (c =? 46)%N || existsb _ stem) eqn:E; [reflexivity|].
    apply orb_false_iff in E. destruct E as (E & _).
    apply orb_false_iff in E. destruct E as (-> & _).
    rewrite andb_false_r. reflexivity.
Qed.

(** X15.  The enhanced file is named after the destination up to its
    last dot: [<stem>.<ext>] gives [<stem>_enhanced.png] in the same
    directory, whatever the extension.  So two pictures whose names differ
    only in the extension are written to the same file. *)
Theorem enhanced_name_drops_extension (d : path) (stem ext : str) :
  (exists c, In c stem /\ c <> 46%N) ->
  Forall (fun c => c <> 46%N) ext ->
  enhanced_name (d ++ [stem ++ 46%N :: ext])
  = d ++ [stem ++ py "_enhanced.png"].
Proof.
  intros (c & Hin & Hc) Hext. unfold enhanced_name.
  rewrite dirname_app, basename_app. unfold splitext_root.
  rewrite (last_dot_cut_at_last_dot _ _ false Hext).
  replace (existsb (fun c0 => negb (c0 =? 46)%N) stem) with true; [reflexivity|].
  symmetry. apply existsb_exists. exists c. split; [exact Hin|].
  destruct (N.eqb_spec c 46); [contradiction | reflexivity].
Qed.

(** ** The factor of the up-sampling *)

(** X16.  The factor of the LANCZOS up-sampling that follows a failure
    of OpenCV, for an image below one megapixel: it is computed without
    error, lies between 1 and 4, keeps the enlarged image within two
    megapixels, and is the largest such factor when it is below the cap. *)
Theorem lanczos_fallback_scale (original_size : Z) (w : world) :
  (0 < original_size < 1000000)%Z ->
  exists scale,
    upscale_factor 4 2000000 original_size w = (Ok scale, w) /\
    (1 <= scale <= 4)%Z /\
    (scale * scale * original_size <= 2000000)%Z /\
    (scale < 4 ->
     2000000 < (scale + 1) * (scale + 1) * original_size)%Z.
Proof.
  intros (Hpos & Hsmall).
  destruct (upscale_factor_spec 4 2000000 original_size w Hpos ltac:(lia))
    as (k & Hrun & Hk0 & Hlo & Hhi).
  exists (Z.min 4 k). split; [exact Hrun|].
  assert (1 <= k)%Z by nia.
  split; [lia|]. split.
  - destruct (Z.min_spec 4 k) as [(Hlt & ->) | (Hge & ->)]; [nia | exact Hlo].
  - intros Hlt. replace (Z.min 4 k) with k by lia. exact Hhi.
Qed.

(** ** External calls *)

(** A computation that makes no request and starts no process. *)
Definition keeps_trace {A : Type} (m : M A) : Prop :=
  forall w, trace (snd (m w)) = trace w.

Lemma keeps_trace_bind {A B : Type} (m : M A) (k : A -> M B) :
  keeps_trace m -> (forall a, keeps_trace (k a)) -> keeps_trace (bind m k).
Proof.
  intros Hm Hk w. unfold bind. specialize (Hm w).
  destruct (m w) as [[a|e] w1]; cbn [snd] in *;
    [rewrite (Hk a w1); exact Hm | exact Hm].
Qed.

Lemma keeps_trace_try {A : Type} (m : M A) (h : exn -> M A) :
  keeps_trace m -> (forall e, keeps_trace (h e)) ->
  keeps_trace (try_except m h).
Proof.
  intros Hm Hh w. unfold try_except. specialize (Hm w).
  destruct (m w) as [[a|e] w1]; cbn [snd] in *;
    [exact Hm | rewrite (Hh e w1); exact Hm].
Qed.

Lemma keeps_trace_ret {A : Type} (a : A) : keeps_trace (ret a).
Proof. intros w. reflexivity. Qed.

Lemma keeps_trace_raise {A : Type} e : keeps_trace (@raise A e).
Proof. intros w. reflexivity. Qed.

Lemma keeps_trace_lift {A : Type} (r : result A) : keeps_trace (lift r).
Proof. intros w. reflexivity. Qed.

Lemma keeps_trace_get_fs : keeps_trace get_fs.
Proof. intros w. reflexivity. Qed.

Lemma keeps_trace_update_fs f : keeps_trace (update_fs f).
Proof. intros w. unfold update_fs. destruct (f (fs w)); reflexivity. Qed.

Lemma keeps_trace_copy2 src dst : keeps_trace (copy2 src dst).
Proof.
  intros w. destruct (copy2 src dst w) as [[[]|e] w'] eqn:E; cbn [snd].
  - destruct (copy2_ok _ _ _ _ E) as (_ & _ & _ & H). exact H.
  - rewrite (copy2_raise _ _ _ _ _ E). reflexivity.
Qed.

Lemma keeps_trace_copy_images src out title :
  keeps_trace (copy_images_to_output U X src out title).
Proof.
  intros w. rewrite copy_images_to_output_run.
  destruct (os_makedirs (join out title) (fs w)) as [n1|e]; [|reflexivity].
  destruct (if os_path_exists n1 src then _ else _) as [[data|es]|];
    try reflexivity.
  destruct (copy_loop U X src (join out title) (map fst es) 0%Z
              (World n1 (trace w))) as [[k|e] w2] eqn:El;
    destruct (copy_loop_confined _ _ _ _ _ _ _ El) as (Ht & _); exact Ht.
Qed.

Lemma keeps_trace_run_mineru cmd : keeps_trace (run_mineru X cmd).
Proof.
  intros w. unfold run_mineru. destruct (run_tool X cmd (fs w)); reflexivity.
Qed.

Lemma keeps_trace_tool_error e : keeps_trace (tool_error e).
Proof. destruct e; apply keeps_trace_raise. Qed.

Ltac quiet :=
  repeat first
    [ apply keeps_trace_ret | apply keeps_trace_raise | apply keeps_trace_lift
    | apply keeps_trace_get_fs | apply keeps_trace_update_fs
    | apply keeps_trace_copy2 | apply keeps_trace_copy_images
    | apply keeps_trace_run_mineru | apply keeps_trace_tool_error
    | apply keeps_trace_bind; [|intros ?]
    | apply keeps_trace_try; [|intros ?]
    | progress cbv zeta
    | match goal with
      | |- keeps_trace (match ?x with _ => _ end) => destruct x
      end ].

Lemma keeps_trace_locate_images mineru_output output_dir pdf_name :
  keeps_trace (locate_images U X mineru_output output_dir pdf_name).
Proof.
  unfold locate_images, extract_title_from_mineru_output, listdir, makedirs.
  quiet.
Qed.

Lemma keeps_trace_stage_outputs output_dir tmp_dir pdf_path safe_paper_id
  extracted :
  keeps_trace (stage_outputs U X output_dir tmp_dir pdf_path safe_paper_id
                 extracted).
Proof. unfold stage_outputs, rmtree. quiet. Qed.

Lemma keeps_trace_tool_phase cmd output_dir tmp_dir pdf_path mineru_output
  safe_paper_id :
  keeps_trace (tool_phase U X cmd output_dir tmp_dir pdf_path mineru_output
                 safe_paper_id).
Proof.
  unfold tool_phase.
  apply keeps_trace_bind;
    [apply keeps_trace_try;
       [apply keeps_trace_run_mineru | intros e; apply keeps_trace_tool_error]
    |intros _].
  apply keeps_trace_bind;
    [apply keeps_trace_locate_images
    |intros extracted; apply keeps_trace_stage_outputs].
Qed.

Lemma prepare_events resp pdf_url cmd output_dir tmp_dir pdf_path
  mineru_output n r n' evs :
  prepare resp pdf_url cmd output_dir tmp_dir pdf_path mineru_output n
  = (r, n', evs) ->
  (exists e, r = Some e /\ (evs = [] \/ evs = [EvHttpGet pdf_url])) \/
  (r = None /\ evs = [EvHttpGet pdf_url; EvTool cmd]).
Proof.
  unfold prepare.
  repeat match goal with
         | |- context [match ?x with _ => _ end] => destruct x
         end;
    intros [= <- _ <-]; eauto.
Qed.

(** The run, from a reference that resolves. *)
Lemma process_arxiv_paper_run arxiv_url output_dir c pdf_url c' paper_id n t :
  parse_arxiv_url U arxiv_url = Some (c :: pdf_url) ->
  extract_arxiv_id U arxiv_url = Some (c' :: paper_id) ->
  exists b r n' evs w',
    prepare (http_get X (c :: pdf_url)) (c :: pdf_url)
      (command_of U output_dir (c' :: paper_id)) output_dir
      (tmp_of output_dir) (pdf_of U output_dir (c' :: paper_id))
      (mineru_output_of output_dir) n = (r, n', evs) /\
    process_arxiv_paper U X arxiv_url output_dir (World n t) = (Ok b, w') /\
    trace w' = t ++ evs /\
    (r <> None -> b = false /\ fs w' = n').
Proof.
  intros Hp He. unfold process_arxiv_paper, try_except.
  rewrite (process_try_phases U X _ _ _ _ _ _ n t Hp He).
  destruct (prepare _ _ _ _ _ _ _ n) as [[r n'] evs].
  destruct r as [e|].
  - exists false, (Some e), n', evs. eexists. repeat split.
  - pose proof (keeps_trace_tool_phase
                  (command_of U output_dir (c' :: paper_id)) output_dir
                  (tmp_of output_dir) (pdf_of U output_dir (c' :: paper_id))
                  (mineru_output_of output_dir)
                  (sanitize_filename U (c' :: paper_id))
                  (World n' (t ++ evs))) as Hq.
    destruct (tool_phase _ _ _ _ _ _ _ _ _) as [[b|e] w1]; cbn [snd trace] in Hq.
    + exists b, None, n', evs, w1.
      split; [reflexivity|]. split; [reflexivity|]. split; [exact Hq|].
      intros Habs. congruence.
    + exists false, None, n', evs, w1.
      split; [reflexivity|]. split; [reflexivity|]. split; [exact Hq|].
      intros Habs. congruence.
Qed.

(** X17.  Whatever happens, a run makes at most one request, to the URL
    [parse_arxiv_url] returned, and starts the tool at most once, after the
    request, with the command built from the identifier. *)
Theorem run_makes_at_most_one_request_then_one_tool_call
  (arxiv_url : str) (output_dir : path) (w : world) :
  exists evs,
    trace (snd (process_arxiv_paper U X arxiv_url output_dir w))
    = trace w ++ evs /\
    (evs = [] \/
     exists pdf_url paper_id,
       parse_arxiv_url U arxiv_url = Some pdf_url /\
       extract_arxiv_id U arxiv_url = Some paper_id /\
       (evs = [EvHttpGet pdf_url] \/
        evs = [EvHttpGet pdf_url; EvTool (command_of U output_dir paper_id)])).
Proof.
  destruct w as [n t].
  destruct (parse_arxiv_url U arxiv_url) as [[|c pu]|] eqn:Hp;
    destruct (extract_arxiv_id U arxiv_url) as [[|c' id]|] eqn:He;
    try (exists []; rewrite (process_unresolved U X arxiv_url output_dir)
           by (rewrite Hp, ?He; exact I);
         cbn [snd trace]; rewrite app_nil_r; split; [reflexivity | left; reflexivity]).
  destruct (process_arxiv_paper_run _ output_dir _ _ _ _ n t Hp He)
    as (b & r & n' & evs & w' & Hprep & Hrun & Ht & _).
  exists evs. rewrite Hrun. cbn [snd]. split; [exact Ht|].
  destruct (prepare_events _ _ _ _ _ _ _ _ _ _ _ Hprep)
    as [(e & _ & [-> | ->]) | (_ & ->)].
  - left. reflexivity.
  - right. exists (c :: pu), (c' :: id). auto.
  - right. exists (c :: pu), (c' :: id). auto.
Qed.

(** ** The run as a whole *)

Lemma process_arxiv_paper_returns arxiv_url output_dir w :
  exists b w', process_arxiv_paper U X arxiv_url output_dir w = (Ok b, w').
Proof.
  unfold process_arxiv_paper, try_except.
  destruct (process_try U X arxiv_url output_dir w) as [[b|e] w'];
    eexists _, _; reflexivity.
Qed.

(** X18.  A reference that does not resolve (no URL, or no identifier,
    or an empty one) ends the run at once: [process_arxiv_paper] returns
    [False] and the program exits with status 1, with the file system as it
    was and no external call made. *)
Theorem unresolved_reference_has_no_effect
  (arxiv_url : str) (output_dir : path) (w : world) :
  parse_arxiv_url U arxiv_url = None \/
  extract_arxiv_id U arxiv_url = None \/
  extract_arxiv_id U arxiv_url = Some [] ->
  process_arxiv_paper U X arxiv_url output_dir w = (Ok false, w) /\
  main U X (Some arxiv_url) None output_dir w = (Ok 1%Z, w) /\
  main U X None (Some arxiv_url) output_dir w = (Ok 1%Z, w).
Proof.
  intros H.
  assert (Hrun : process_arxiv_paper U X arxiv_url output_dir w = (Ok false, w)).
  { apply process_unresolved.
    destruct H as [-> | [-> | ->]]; [exact I | |];
      destruct (parse_arxiv_url U arxiv_url) as [[|c u]|]; exact I. }
  split; [exact Hrun|].
  unfold main. destruct arxiv_url as [|c u]; [split; reflexivity|].
  unfold bind. rewrite Hrun. split; reflexivity.
Qed.

(** X19.  From the parsed arguments on, [main] lets no exception through
    and ends with exit status 0 or 1 (the exits of [parse_args] itself, for
    a command line it refuses or for [--help], come before).  Status 0 means
    that [process_arxiv_paper] returned [True] on one of the links given; a
    non-empty positional link takes precedence over [--url]. *)
Theorem main_exit_status
  (url arxiv_url : option str) (output : path) (w : world) :
  exists status w',
    main U X url arxiv_url output w = (Ok status, w') /\
    (status = 0%Z \/ status = 1%Z) /\
    (status = 0%Z ->
     exists link,
       (url = Some link \/ arxiv_url = Some link) /\
       process_arxiv_paper U X link output w = (Ok true, w')) /\
    (forall link, url = Some link -> link <> [] ->
       main U X url arxiv_url output w = main U X url None output w).
Proof.
  assert (Hlink : forall link,
            exists status w',
              bind (process_arxiv_paper U X link output)
                (fun success => ret (if success then 0%Z else 1%Z)) w
              = (Ok status, w') /\
              (status = 0%Z \/ status = 1%Z) /\
              (status = 0%Z ->
               process_arxiv_paper U X link output w = (Ok true, w'))).
  { intros link. unfold bind, ret.
    destruct (process_arxiv_paper_returns link output w) as (b & w' & ->).
    destruct b; eexists _, w'; (split; [reflexivity|]);
      (split; [auto|]); [reflexivity | discriminate]. }
  unfold main.
  destruct url as [[|c u]|]; [destruct arxiv_url as [[|c u]|] |
                             |destruct arxiv_url as [[|c u]|]];
    try (destruct (Hlink (c :: u)) as (status & w' & -> & H01 & H0);
         exists status, w');
    try (exists 1%Z, w);
    (split; [reflexivity|]); (split; [auto|]);
    (split; [try discriminate; intros Hs; exists (c :: u); auto|]);
    intros link Hl Hne; try reflexivity; try discriminate;
    injection Hl as <-; congruence.
Qed.

Lemma longer_not_prefix (p q : path) :
  (List.length q < List.length p)%nat -> ~ is_prefix p q.
Proof.
  intros Hlen (r & ->). rewrite length_app in Hlen. lia.
Qed.

(** X20.  When the server refuses the download, the run returns [False]
    without starting the tool, and the file the PDF would be saved to is as
    it was (not created if it was not there). *)
Theorem refused_download_fails_the_run
  (arxiv_url pdf_url paper_id : str) (output_dir : path) (e : exn)
  (n : node) (t : list event) :
  parse_arxiv_url U arxiv_url = Some pdf_url ->
  extract_arxiv_id U arxiv_url = Some paper_id ->
  http_get X pdf_url = HttpError e ->
  exists n' evs,
    process_arxiv_paper U X arxiv_url output_dir (World n t)
    = (Ok false, World n' (t ++ evs)) /\
    (evs = [] \/ evs = [EvHttpGet pdf_url]) /\
    lookup n' (pdf_of U output_dir paper_id)
    = lookup n (pdf_of U output_dir paper_id).
Proof.
  intros Hp He Hget.
  destruct pdf_url as [|c pu]; [|destruct paper_id as [|c' id]].
  1, 2: exists n, []; rewrite app_nil_r;
    (split; [apply process_unresolved; rewrite Hp, ?He; exact I|]);
    split; [left|]; reflexivity.
  destruct (process_arxiv_paper_run _ output_dir _ _ _ _ n t Hp He)
    as (b & r & n' & evs & w' & Hprep & Hrun & Ht & Hfail).
  rewrite Hget in Hprep.
  assert (Hr : r <> None /\ (evs = [] \/ evs = [EvHttpGet (c :: pu)])).
  { revert Hprep. unfold prepare.
    repeat match goal with
           | |- context [match ?x with _ => _ end] => destruct x
           end;
      intros [= <- _ <-]; split; auto; discriminate. }
  destruct Hr as (Hr & Hevs). destruct (Hfail Hr) as (-> & Hfs).
  exists n', evs. split; [|split; [exact Hevs|]].
  - rewrite Hrun. destruct w' as [n'' t'']. cbn [fs trace] in *.
    subst. reflexivity.
  - revert Hprep. unfold prepare.
    assert (Hpdf : forall q, (List.length q <= List.length output_dir + 1)%nat ->
              ~ is_prefix (pdf_of U output_dir (c' :: id)) q).
    { intros q Hq. apply longer_not_prefix. rewrite pdf_of_eq, length_app.
      simpl. lia. }
    destruct (os_makedirs output_dir n) as [n1|e1] eqn:E1;
      [apply os_makedirs_ok in E1 as (_ & E1)
      |intros [= _ <- _]; reflexivity].
    destruct (os_makedirs (tmp_of output_dir) n1) as [n2|e2] eqn:E2;
      [apply os_makedirs_ok in E2 as (_ & E2)
      |intros [= _ <- _];
        apply (makedirs_at_frame _ _ _ _ E1), Hpdf; lia].
    destruct (os_makedirs _ n2) as [n3|e3] eqn:E3;
      [apply os_makedirs_ok in E3 as (_ & E3)|]; intros [= _ <- _].
    + rewrite (makedirs_at_frame _ _ _ _ E3), (makedirs_at_frame _ _ _ _ E2).
      * apply (makedirs_at_frame _ _ _ _ E1), Hpdf. lia.
      * apply Hpdf. rewrite tmp_of_eq, length_app. simpl. lia.
      * apply Hpdf. rewrite dirname_pdf_of, length_app. simpl. lia.
    + rewrite (makedirs_at_frame _ _ _ _ E2).
      * apply (makedirs_at_frame _ _ _ _ E1), Hpdf. lia.
      * apply Hpdf. rewrite tmp_of_eq, length_app. simpl. lia.
Qed.

(** X21.  Both failures of the tool leave [extract_images_with_mineru]
    as a [RuntimeError]: a missing binary, and a non-zero exit status, the
    latter with the error output of the tool in the message and the file
    system as the tool left it.  The command has been started once. *)
Theorem tool_failure_raises_runtime_error
  (pdf_path output_dir : path) (lang : str) (w : world) (n0 : node) :
  makedirs_at (join output_dir (py "mineru_output")) (fs w) = Ok n0 ->
  let cmd :=
    mineru_command pdf_path (join output_dir (py "mineru_output")) lang in
  (run_tool X cmd n0 = ToolNotFound ->
   extract_images_with_mineru U X pdf_path output_dir lang w
   = (Raise (RuntimeError "MinerU CLI not found" []),
      World n0 (trace w ++ [EvTool cmd]))) /\
  (forall stderr after,
     run_tool X cmd n0 = ToolFailed stderr after ->
     extract_images_with_mineru U X pdf_path output_dir lang w
     = (Raise (RuntimeError "MinerU failed" stderr),
        World after (trace w ++ [EvTool cmd]))).
Proof.
  intros Hmk cmd. subst cmd.
  split; [intros Htool | intros stderr after Htool];
    unfold extract_images_with_mineru, subprocess_run, run_mineru;
    cbv zeta; unfold_monad; rewrite Hmk; cbn [fs trace];
    rewrite Htool; reflexivity.
Qed.

(** ** What the extraction returns *)

Lemma join_basename (d : path) (name : str) :
  name <> [] -> basename (join d name) = name.
Proof. intros H. rewrite (join_nonempty d name H). apply basename_app. Qed.

Lemma possible_paths_named mineru_output pdf_name p :
  In p (possible_paths mineru_output pdf_name) -> basename p = py "images".
Proof.
  unfold possible_paths. intros [<- | [<- | [<- | [<- | []]]]];
    apply join_basename; discriminate.
Qed.

Lemma walk_for_images_named n mineru_output p :
  walk_for_images n mineru_output = Some p -> basename p = py "images".
Proof.
  unfold walk_for_images. intros H.
  apply TitleLaws.first_some_In in H. destruct H as ([[root dirs] files] & _ & H).
  destruct (existsb _ dirs); [|discriminate]. injection H as <-.
  apply basename_app.
Qed.

(** A title is the fallback or a sanitised name. *)
Definition fallback_or_sanitised (pdf_name title : str) : Prop :=
  title = pdf_name \/
  (Forall (fun c => safe_char U c = true) title /\ ResolverLaws.trimmed title).

Lemma title_from_transcript_sanitised n md_path title :
  title_from_transcript U X n md_path = Some title ->
  Forall (fun c => safe_char U c = true) title /\ ResolverLaws.trimmed title.
Proof.
  unfold title_from_transcript.
  destruct (exists_ n md_path); [|discriminate].
  destruct (read_at md_path n) as [data|e]; [|discriminate]. cbv zeta.
  destruct (nonempty _ && nonempty _); [|discriminate].
  intros [= <-].
  split; [apply sanitize_filename_safe | apply ResolverLaws.sanitize_filename_trimmed].
Qed.

Lemma extract_title_from_mineru_output_run mineru_output pdf_name w :
  exists title,
    extract_title_from_mineru_output U X mineru_output pdf_name w
    = (Ok title, w) /\
    fallback_or_sanitised pdf_name title.
Proof.
  unfold extract_title_from_mineru_output. unfold_monad.
  destruct (first_some _ _) as [title|] eqn:E.
  - exists title. split; [reflexivity|]. right.
    apply TitleLaws.first_some_In in E. destruct E as (md & _ & E).
    exact (title_from_transcript_sanitised _ _ _ E).
  - exists pdf_name. split; [reflexivity | left; reflexivity].
Qed.

(** X27.  [extract_title_from_mineru_output] never raises and changes
    nothing; it returns the name of the PDF or a sanitised title.  When the
    transcript is at the first conventional place and a title is found in
    it, the result is that title, stripped and sanitised. *)
Theorem transcript_title_or_fallback (mineru_output : path) (pdf_name : str) :
  (forall w,
     exists title,
       extract_title_from_mineru_output U X mineru_output pdf_name w
       = (Ok title, w) /\
       fallback_or_sanitised pdf_name title) /\
  (forall w data,
     read_at (join (join (join mineru_output pdf_name) (py "auto"))
                (pdf_name ++ py ".md")) (fs w) = Ok data ->
     strip U (extract_title_from_markdown U (utf8_decode X data)) <> [] ->
     extract_title_from_mineru_output U X mineru_output pdf_name w
     = (Ok (sanitize_filename U
              (strip U (extract_title_from_markdown U (utf8_decode X data)))),
        w)).
Proof.
  split; [intros w; apply extract_title_from_mineru_output_run|].
  intros w data Hread Hne.
  unfold extract_title_from_mineru_output, possible_md_paths. unfold_monad.
  cbv zeta. cbn [app first_some]. unfold title_from_transcript at 1.
  unfold exists_. unfold read_at in Hread |- *.
  destruct (lookup (fs w) _) as [[bytes|es]|]; try discriminate.
  injection Hread as ->. cbv zeta.
  destruct (strip U (extract_title_from_markdown U (utf8_decode X data)))
    as [|c t] eqn:Es; [congruence|].
  destruct (extract_title_from_markdown U (utf8_decode X data)) as [|c0 t0];
    [discriminate Es|].
  reflexivity.
Qed.

Definition extraction_shape (pdf_name : str) (r : result (path * str))
  (w' : world) : Prop :=
  match r with
  | Ok (images_dir, title) =>
      basename images_dir = py "images" /\ fallback_or_sanitised pdf_name title
  | Raise _ => True
  end.

Lemma locate_images_shape mineru_output output_dir pdf_name w :
  wp (locate_images U X mineru_output output_dir pdf_name)
     (extraction_shape pdf_name) w.
Proof.
  unfold locate_images. apply wp_bind, wp_get_fs. cbv zeta.
  assert (Hfallback :
            wp (makedirs (join output_dir (py "images")) ;;;
                ret (join output_dir (py "images"), pdf_name))
               (extraction_shape pdf_name) w).
  { repeat wp_step; unfold extraction_shape; try exact I.
    split; [apply join_basename; discriminate | left; reflexivity]. }
  assert (Hfound : forall p, basename p = py "images" ->
            wp (if exists_ (fs w) p
                then image_files <- listdir p ;;
                     paper_title <- extract_title_from_mineru_output U X
                                      mineru_output pdf_name ;;
                     ret (p, paper_title)
                else makedirs (join output_dir (py "images")) ;;;
                     ret (join output_dir (py "images"), pdf_name))
               (extraction_shape pdf_name) w).
  { intros p Hp. destruct (exists_ (fs w) p); [|exact Hfallback].
    apply wp_bind, wp_listdir.
    destruct (listdir_at p (fs w)); [|exact I].
    apply wp_bind. unfold wp.
    destruct (extract_title_from_mineru_output_run mineru_output pdf_name w)
      as (title & -> & Ht).
    cbn [fst snd]. split; assumption. }
  destruct (find (exists_ (fs w)) (possible_paths mineru_output pdf_name))
    as [p|] eqn:Ef.
  - apply Hfound. apply find_some in Ef.
    exact (possible_paths_named _ _ _ (proj1 Ef)).
  - destruct (walk_for_images (fs w) mineru_output) as [p|] eqn:Ew.
    + apply Hfound. exact (walk_for_images_named _ _ _ Ew).
    + exact Hfallback.
Qed.

(** X22.  What [extract_images_with_mineru] returns: a directory named
    [images], and as title either the name of the PDF without extension or
    a sanitised name (characters of [[\w\-\.]] only, no dot or underscore at
    either end). *)
Theorem extraction_result_shape
  (pdf_path output_dir : path) (lang : str) (w w' : world)
  (images_dir : path) (title : str) :
  extract_images_with_mineru U X pdf_path output_dir lang w
  = (Ok (images_dir, title), w') ->
  basename images_dir = py "images" /\
  (title = splitext_root (basename pdf_path) \/
   (Forall (fun c => safe_char U c = true) title /\
    ResolverLaws.trimmed title)).
Proof.
  intros H.
  assert (Hwp : wp (extract_images_with_mineru U X pdf_path output_dir lang)
                  (extraction_shape (splitext_root (basename pdf_path))) w).
  { unfold extract_images_with_mineru. cbv zeta.
    apply wp_bind, wp_update_fs.
    destruct (os_makedirs _ (fs w)) as [n0|e]; [|exact I].
    apply wp_bind, wp_try, wp_any. intros [[]|e] w1.
    - apply locate_images_shape.
    - unfold tool_error. destruct e; exact I. }
  exact (wp_elim _ _ _ _ _ Hwp H).
Qed.

End WithOutside.

(** ** Runs in the small world *)

Import Toy.

(** The same outside world with another answer of the server. *)
Definition with_http (X : externals) (get : str -> http_response)
  : externals :=
  {| image := image X;
     has_pil := has_pil X;
     has_cv2 := has_cv2 X;
     pil_open := pil_open X;
     pil_is_rgb := pil_is_rgb X;
     pil_convert_rgb := pil_convert_rgb X;
     pil_size := pil_size X;
     pil_resize_lanczos := pil_resize_lanczos X;
     cv2_upscale_sharpen := cv2_upscale_sharpen X;
     pil_enhance := pil_enhance X;
     pil_filter_smooth := pil_filter_smooth X;
     pil_save_png := pil_save_png X;
     http_get := get;
     run_tool := run_tool X;
     dir_st_size := dir_st_size X;
     utf8_decode := utf8_decode X |}.

(** A server that refuses, and one whose answer breaks after two chunks
    were yielded, of two bytes and of one. *)
Definition refusing : externals :=
  with_http silent_tool (fun _ => HttpError RequestException).

Definition breaking : externals :=
  with_http silent_tool
    (fun _ => HttpBody [[Byte.x25; Byte.x50]; [Byte.x44]]
                (Some RequestException)).

(** A tool that ends with a non-zero status, and one that extracts a
    figure and a transcript for the paper 2412.15289. *)
Definition tool_failing (cmd : list str) (n : node) : tool_outcome :=
  ToolFailed (py "out of memory") n.

Definition encode (s : str) : bytes :=
  map (fun c => match Byte.of_N c with Some b => b | None => Byte.x3f end) s.

Definition extracted_dir : path :=
  [py "output"; py ".tmp"; py "mineru_output"; py "2412.15289"; py "auto"].

Definition transcript : bytes :=
  encode (py "# Attention Is All You Need
The dominant sequence transduction models are based on recurrent networks.").

Definition tool_extracting (cmd : list str) (n : node) : tool_outcome :=
  match makedirs_at (extracted_dir ++ [py "images"]) n with
  | Raise _ => ToolFailed (py "cannot write") n
  | Ok n1 =>
      match write_at (extracted_dir ++ [py "images"; py "fig1.png"])
              (picture 6000) n1 with
      | Raise _ => ToolFailed (py "cannot write") n
      | Ok n2 =>
          match write_at (extracted_dir ++ [py "2412.15289.md"])
                  transcript n2 with
          | Raise _ => ToolFailed (py "cannot write") n
          | Ok n3 => ToolDone n3
          end
      end
  end.

Definition extracting : externals := with_tool silent_tool tool_extracting.

Definition pdf_2412 : str := py "https://arxiv.org/pdf/2412.15289.pdf".
Definition body : bytes := [Byte.x25; Byte.x50; Byte.x44; Byte.x46].

(** The tree once the workspace is made. *)
Definition workspace : node :=
  Dir [(py "output", Dir [(py ".tmp", Dir [])])].

Lemma download_stores_the_body_witness :
  exists n1,
    download_file silent_tool pdf_2412 (tmp_dir0 ++ [py "2412.15289.pdf"])
      (start (Dir []))
    = (Ok tt, World n1 (trace (start (Dir [])) ++ [EvHttpGet pdf_2412])) /\
    read_at (tmp_dir0 ++ [py "2412.15289.pdf"]) n1 = Ok body /\
    (forall p, ~ is_prefix p (tmp_dir0 ++ [py "2412.15289.pdf"]) ->
               lookup n1 p = lookup (fs (start (Dir []))) p).
Proof.
  apply (download_stores_the_body silent_tool pdf_2412 tmp_dir0
           (py "2412.15289.pdf") [body] (start (Dir [])) workspace);
    [discriminate | reflexivity ..].
Defined.

Lemma refused_download_writes_nothing_witness :
  exists e' w',
    download_file refusing pdf_2412 pdf0 (start downloaded) = (Raise e', w') /\
    lookup (fs w') pdf0 = lookup (fs (start downloaded)) pdf0 /\
    (forall p, ~ is_prefix p (dirname pdf0) ->
               lookup (fs w') p = lookup (fs (start downloaded)) p).
Proof.
  apply (refused_download_writes_nothing refusing pdf_2412 pdf0
           RequestException (start downloaded)).
  reflexivity.
Defined.

Lemma interrupted_download_leaves_partial_file_witness :
  exists n1,
    download_file breaking pdf_2412 (tmp_dir0 ++ [py "2412.15289.pdf"])
      (start (Dir []))
    = (Raise RequestException,
       World n1 (trace (start (Dir [])) ++ [EvHttpGet pdf_2412])) /\
    read_at (tmp_dir0 ++ [py "2412.15289.pdf"]) n1
    = Ok [Byte.x25; Byte.x50; Byte.x44].
Proof.
  apply (interrupted_download_leaves_partial_file breaking pdf_2412 tmp_dir0
           (py "2412.15289.pdf") [[Byte.x25; Byte.x50]; [Byte.x44]]
           RequestException (start (Dir [])) workspace);
    [discriminate | reflexivity ..].
Defined.

Lemma copy_images_source_edge_cases_witness :
  copy_images_to_output ascii_only no_cv2 [py "nowhere"] out_dir (py "paper")
    world0
  = (Ok (0%Z, join out_dir (py "paper")), World (fs world1) (trace world0)) /\
  copy_images_to_output ascii_only no_cv2 fig1 out_dir (py "paper") world0
  = (Raise NotADirectoryError, World (fs world1) (trace world0)).
Proof.
  split.
  - apply (proj1 (copy_images_source_edge_cases ascii_only no_cv2
                    [py "nowhere"] out_dir (py "paper") world0 (fs world1)
                    ltac:(discriminate) eq_refl)).
    reflexivity.
  - apply (proj2 (copy_images_source_edge_cases ascii_only no_cv2
                    fig1 out_dir (py "paper") world0 (fs world1)
                    ltac:(discriminate) eq_refl)).
    reflexivity.
Defined.

Lemma copy_images_confined_to_paper_directory_witness :
  trace (snd (copy_images_to_output ascii_only no_cv2 images_dir0 out_dir
                (py "paper") world0)) = trace world0 /\
  (forall p, outside (join out_dir (py "paper")) p ->
     lookup (fs (snd (copy_images_to_output ascii_only no_cv2 images_dir0
                        out_dir (py "paper") world0))) p
     = lookup (fs world0) p).
Proof.
  apply (copy_images_confined_to_paper_directory ascii_only no_cv2
           images_dir0 out_dir (py "paper") world0
           (snd (copy_images_to_output ascii_only no_cv2 images_dir0 out_dir
                   (py "paper") world0))
           (fst (copy_images_to_output ascii_only no_cv2 images_dir0 out_dir
                   (py "paper") world0))).
  apply surjective_pairing.
Defined.

(** The source directory after the copy is the source directory before. *)
Example source_images_untouched :
  lookup (fs (snd (copy_images_to_output ascii_only no_cv2 images_dir0 out_dir
                     (py "paper") world0))) images_dir0
  = lookup (fs world0) images_dir0.
Proof. vm_compute. reflexivity. Qed.

Lemma enhanced_name_drops_extension_witness :
  enhanced_name ([py "out"; py "paper"] ++ [py "fig.v2" ++ 46%N :: py "jpg"])
  = [py "out"; py "paper"] ++ [py "fig.v2" ++ py "_enhanced.png"].
Proof.
  apply (enhanced_name_drops_extension [py "out"; py "paper"] (py "fig.v2")
           (py "jpg")).
  - exists 102%N. split; [left; reflexivity | discriminate].
  - repeat constructor; discriminate.
Defined.

(** Two figures of one stem: both are counted, one file is left. *)
Example same_stem_one_output :
  let tree :=
    Dir [ (py "images",
           Dir [ (py "fig.png", File (picture 6000));
                 (py "fig.jpg", File (picture 7000)) ]);
          (py "out", Dir []) ] in
  fst (copy_images_to_output ascii_only silent_tool images_dir0 out_dir
         (py "paper") (start tree))
  = Ok (2%Z, [py "out"; py "paper"]) /\
  listdir_at [py "out"; py "paper"]
    (fs (snd (copy_images_to_output ascii_only silent_tool images_dir0 out_dir
                (py "paper") (start tree))))
  = Ok [py "fig_enhanced.png"].
Proof. split; vm_compute; reflexivity. Qed.

Lemma lanczos_fallback_scale_witness :
  exists scale,
    upscale_factor 4 2000000 (300 * 400) world0 = (Ok scale, world0) /\
    (1 <= scale <= 4)%Z /\
    (scale * scale * (300 * 400) <= 2000000)%Z /\
    (scale < 4 -> 2000000 < (scale + 1) * (scale + 1) * (300 * 400))%Z.
Proof.
  apply (lanczos_fallback_scale (300 * 400)%Z world0). lia.
Defined.

Example lanczos_fallback_scales :
  fst (upscale_factor 4 2000000 (100 * 100) world0) = Ok 4%Z /\
  fst (upscale_factor 4 2000000 (300 * 400) world0) = Ok 4%Z /\
  fst (upscale_factor 4 2000000 (500 * 500) world0) = Ok 2%Z /\
  fst (upscale_factor 4 2000000 (900 * 1000) world0) = Ok 1%Z /\
  fst (upscale_factor 4 2000000 (0 * 100) world0) = Raise ZeroDivisionError.
Proof. repeat split. Qed.

Lemma unresolved_reference_has_no_effect_witness :
  process_arxiv_paper ascii_only silent_tool
    (py "https://example.org/abs/2412.15289") [py "output"] (start (Dir []))
  = (Ok false, start (Dir [])) /\
  main ascii_only silent_tool (Some (py "https://example.org/abs/2412.15289"))
    None [py "output"] (start (Dir []))
  = (Ok 1%Z, start (Dir [])) /\
  main ascii_only silent_tool None
    (Some (py "https://example.org/abs/2412.15289")) [py "output"]
    (start (Dir []))
  = (Ok 1%Z, start (Dir [])).
Proof.
  apply (unresolved_reference_has_no_effect ascii_only silent_tool
           (py "https://example.org/abs/2412.15289") [py "output"]
           (start (Dir []))).
  left. reflexivity.
Defined.

(** A link with an empty identifier: a URL is returned for it, and the
    run stops all the same. *)
Example empty_identifier :
  parse_arxiv_url ascii_only (py "https://arxiv.org/pdf/.pdf")
  = Some (py "https://arxiv.org/pdf/.pdf") /\
  extract_arxiv_id ascii_only (py "https://arxiv.org/pdf/.pdf") = Some [] /\
  process_arxiv_paper ascii_only silent_tool (py "https://arxiv.org/pdf/.pdf")
    [py "output"] (start (Dir []))
  = (Ok false, start (Dir [])).
Proof. repeat split. Qed.

Lemma refused_download_fails_the_run_witness :
  exists n' evs,
    process_arxiv_paper ascii_only refusing abs_2412 [py "output"]
      (World (Dir []) [])
    = (Ok false, World n' ([] ++ evs)) /\
    (evs = [] \/ evs = [EvHttpGet pdf_2412]) /\
    lookup n' (pdf_of ascii_only [py "output"] (py "2412.15289"))
    = lookup (Dir []) (pdf_of ascii_only [py "output"] (py "2412.15289")).
Proof.
  apply (refused_download_fails_the_run ascii_only refusing abs_2412 pdf_2412
           (py "2412.15289") [py "output"] RequestException (Dir []) []);
    reflexivity.
Defined.

Lemma tool_failure_raises_runtime_error_witness :
  extract_images_with_mineru ascii_only (with_tool silent_tool tool_failing)
    pdf0 tmp_dir0 (py "en") (start downloaded)
  = (Raise (RuntimeError "MinerU failed" (py "out of memory")),
     World tool_ran
       (trace (start downloaded) ++
        [EvTool (mineru_command pdf0 (join tmp_dir0 (py "mineru_output"))
                   (py "en"))])).
Proof.
  apply (proj2 (tool_failure_raises_runtime_error ascii_only
                  (with_tool silent_tool tool_failing) pdf0 tmp_dir0 (py "en")
                  (start downloaded) tool_ran eq_refl)).
  reflexivity.
Defined.

Lemma extraction_result_shape_witness :
  basename (extracted_dir ++ [py "images"]) = py "images" /\
  (py "Attention_Is_All_You_Need" = splitext_root (basename pdf0) \/
   (Forall (fun c => safe_char ascii_only c = true)
      (py "Attention_Is_All_You_Need") /\
    ResolverLaws.trimmed (py "Attention_Is_All_You_Need"))).
Proof.
  apply (extraction_result_shape ascii_only extracting pdf0 tmp_dir0 (py "en")
           (start downloaded)
           (snd (extract_images_with_mineru ascii_only extracting pdf0
                   tmp_dir0 (py "en") (start downloaded)))).
  vm_compute. reflexivity.
Defined.

Lemma enhancement_always_names_a_file_witness :
  truthy (out_dir ++ [py "fig1_enhanced.png"]) = true /\
  (out_dir ++ [py "fig1_enhanced.png"]
   = enhanced_name (out_dir ++ [py "fig1.png"]) \/
   out_dir ++ [py "fig1_enhanced.png"] = out_dir ++ [py "fig1.png"]) /\
  exists_ (fs (snd (enhance_image_quality silent_tool fig1
                      (out_dir ++ [py "fig1.png"]) world0)))
    (out_dir ++ [py "fig1_enhanced.png"]) = true.
Proof.
  apply (enhancement_always_names_a_file silent_tool fig1
           (out_dir ++ [py "fig1.png"]) (out_dir ++ [py "fig1_enhanced.png"])
           world0
           (snd (enhance_image_quality silent_tool fig1
                   (out_dir ++ [py "fig1.png"]) world0))).
  - discriminate.
  - vm_compute. reflexivity.
Defined.

Lemma large_image_enhanced_without_resampling_witness :
  exists n',
    enhance_image_quality no_cv2 [py "images"; py "plate.png"]
      (out_dir ++ [py "plate.png"])
      (start (Dir [ (py "images",
                     Dir [ (py "plate.png",
                            File [Byte.x50; Byte.x64; Byte.x64]) ]);
                    (py "out", Dir []) ]))
    = (Ok (enhanced_name (out_dir ++ [py "plate.png"])),
       World n'
         (trace (start (Dir [ (py "images",
                               Dir [ (py "plate.png",
                                      File [Byte.x50; Byte.x64; Byte.x64]) ]);
                              (py "out", Dir []) ])))) /\
    read_at (enhanced_name (out_dir ++ [py "plate.png"])) n'
    = Ok [Byte.x89; Byte.x64; Byte.x64; Byte.x04] /\
    write_at (enhanced_name (out_dir ++ [py "plate.png"]))
      [Byte.x89; Byte.x64; Byte.x64; Byte.x04]
      (fs (start (Dir [ (py "images",
                         Dir [ (py "plate.png",
                                File [Byte.x50; Byte.x64; Byte.x64]) ]);
                        (py "out", Dir []) ])))
    = Ok n'.
Proof.
  apply (large_image_enhanced_without_resampling no_cv2
           [py "images"; py "plate.png"] out_dir (py "plate.png")
           (start (Dir [ (py "images",
                          Dir [ (py "plate.png",
                                 File [Byte.x50; Byte.x64; Byte.x64]) ]);
                         (py "out", Dir []) ]))
           [Byte.x50; Byte.x64; Byte.x64]
           [Byte.x89; Byte.x64; Byte.x64; Byte.x04]
           (ToyImage 1000 1000 []) 1000%Z 1000%Z);
    reflexivity.
Defined.

(** The title of the transcript the tool wrote. *)
Example title_from_extracted_transcript :
  fst (extract_title_from_mineru_output ascii_only extracting
         [py "output"; py ".tmp"; py "mineru_output"] (py "2412.15289")
         (start (match tool_extracting [] workspace with
                 | ToolDone n => n
                 | _ => workspace
                 end)))
  = Ok (py "Attention_Is_All_You_Need").
Proof. vm_compute. reflexivity. Qed.

(** A whole run with a tool that extracts a figure and a transcript: the
    directory of the paper is named after the title found in the
    transcript and holds the enhanced figure and the PDF. *)
Example run_with_extracted_figure :
  fst (process_arxiv_paper ascii_only extracting abs_2412 [py "output"]
         (start (Dir []))) = Ok true /\
  fs (snd (process_arxiv_paper ascii_only extracting abs_2412 [py "output"]
             (start (Dir []))))
  = Dir [ (py "output",
           Dir [ (py "Attention_Is_All_You_Need",
                  Dir [ (py "fig1_enhanced.png",
                         File [Byte.x89; Byte.x14; Byte.x14; Byte.x05]);
                        (py "Attention_Is_All_You_Need.pdf", File body) ]) ]) ].
Proof. split; vm_compute; reflexivity. Qed.

End PipelineLaws.

(* ================================================================== *)
(** * A first run, from the request to the stored paper *)
(* ================================================================== *)

Module FirstRun.
Import PyStr PyStrFacts Resolver ResolverFacts Title Fs FsFacts.
Import Pipeline PipelineFacts.

Local Unset Implicit Arguments.

Lemma set_entry_set_entry c v u es :
  set_entry c v (set_entry c u es) = set_entry c v es.
Proof.
  induction es as [|[k x] es IH]; simpl.
  - rewrite str_eqb_refl. reflexivity.
  - destruct (str_eqb k c) eqn:E; simpl; rewrite E; [reflexivity|].
    rewrite IH. reflexivity.
Qed.

Lemma assoc_app_none c es l :
  assoc c es = None -> assoc c (es ++ l) = assoc c l.
Proof.
  induction es as [|[k x] es IH]; simpl; [reflexivity|].
  destruct (str_eqb k c); [discriminate | exact IH].
Qed.

Lemma set_entry_app_none c v es l :
  assoc c es = None -> set_entry c v (es ++ l) = es ++ set_entry c v l.
Proof.
  induction es as [|[k x] es IH]; simpl; [reflexivity|].
  destruct (str_eqb k c); [discriminate|]. intros H. rewrite (IH H). reflexivity.
Qed.

Lemma remove_entry_app_none c es l :
  assoc c es = None -> remove_entry c (es ++ l) = es ++ remove_entry c l.
Proof.
  induction es as [|[k x] es IH]; simpl; [reflexivity|].
  destruct (str_eqb k c); [discriminate|]. intros H. rewrite (IH H). reflexivity.
Qed.

Lemma rmtree_at_below c p es :
  p <> [] ->
  rmtree_at (c :: p) (Dir es) =
  match assoc c es with
  | None => Raise FileNotFoundError
  | Some child =>
      match rmtree_at p child with
      | Ok child' => Ok (Dir (set_entry c child' es))
      | Raise e => Raise e
      end
  end.
Proof. destruct p; [congruence | reflexivity]. Qed.

Section Trees.
Variables (o : str) (E1 es1 : list (str * node)) (safe : str) (data : bytes).
Hypothesis Htmp : assoc (py ".tmp") es1 = None.
Hypothesis Hsafe : assoc safe es1 = None.
Hypothesis Hne : safe <> [].
Hypothesis Htrim : ResolverLaws.trimmed safe.

Let x : str := safe ++ py ".pdf".

(** The tree with the output directory [sub]. *)
Definition rooted (sub : node) : node := Dir (set_entry o sub E1).

Definition tmp2 : node := Dir [(x, File data)].
Definition tmp3 : node := Dir [(x, File data); (py "mineru_output", Dir [])].
Definition tmp4 : node :=
  Dir [(x, File data); (py "mineru_output", Dir []); (py "images", Dir [])].

Definition with_tmp (t : node) (rest : list (str * node)) : node :=
  Dir (es1 ++ (py ".tmp", t) :: rest).

Definition paper : node := Dir [(x, File data)].

Lemma x_not_mineru_output : x <> py "mineru_output".
Proof.
  intros H. apply (f_equal (fun s => last s 0%N)) in H. unfold x in H.
  change (py ".pdf") with ([46; 112; 100]%N ++ [102%N]) in H.
  rewrite app_assoc, last_last in H. discriminate H.
Qed.

Lemma x_not_images : x <> py "images".
Proof.
  intros H. apply (f_equal (fun s => last s 0%N)) in H. unfold x in H.
  change (py ".pdf") with ([46; 112; 100]%N ++ [102%N]) in H.
  rewrite app_assoc, last_last in H. discriminate H.
Qed.

Lemma tmp_not_safe : py ".tmp" <> safe.
Proof.
  intros H. destruct Htrim as (H1 & _). rewrite <- H in H1. discriminate H1.
Qed.

Lemma x_nonempty : x <> [].
Proof. unfold x. destruct safe; discriminate. Qed.

Lemma splitext_root_x : splitext_root x = safe.
Proof.
  unfold splitext_root, x. change (py ".pdf") with (46%N :: py "pdf").
  assert (Hext : Forall (fun c => c <> 46%N) (py "pdf"))
    by (repeat constructor; discriminate).
  pose proof (PipelineLaws.last_dot_cut_at_last_dot safe (py "pdf") false Hext)
    as Hcut.
  unfold str, char in *. rewrite Hcut. clear Hcut.
  destruct safe as [|c s]; [congruence|].
  destruct Htrim as (H1 & _). cbn [clean] in H1.
  unfold dot_or_underscore in H1. apply orb_false_iff in H1.
  destruct H1 as (H1 & _). cbn [existsb orb]. rewrite H1. reflexivity.
Qed.

(** *** Steps inside the output directory *)

Lemma lookup_rooted sub q : lookup (rooted sub) (o :: q) = lookup sub q.
Proof. unfold rooted. cbn [lookup]. rewrite assoc_set_entry_same. reflexivity. Qed.

Lemma makedirs_at_rooted sub q :
  makedirs_at (o :: q) (rooted sub) =
  match makedirs_at q sub with
  | Ok sub' => Ok (rooted sub')
  | Raise e => Raise e
  end.
Proof.
  unfold rooted. cbn [makedirs_at]. rewrite assoc_set_entry_same.
  destruct (makedirs_at q sub); [rewrite set_entry_set_entry|]; reflexivity.
Qed.

Lemma write_at_rooted sub q d :
  write_at (o :: q) d (rooted sub) =
  match write_at q d sub with
  | Ok sub' => Ok (rooted sub')
  | Raise e => Raise e
  end.
Proof.
  unfold rooted. cbn [write_at]. rewrite assoc_set_entry_same.
  destruct (write_at q d sub); [rewrite set_entry_set_entry|]; reflexivity.
Qed.

Lemma rmtree_at_rooted sub c q :
  rmtree_at (o :: c :: q) (rooted sub) =
  match rmtree_at (c :: q) sub with
  | Ok sub' => Ok (rooted sub')
  | Raise e => Raise e
  end.
Proof.
  unfold rooted. rewrite rmtree_at_below by discriminate.
  rewrite assoc_set_entry_same.
  destruct (rmtree_at (c :: q) sub); [rewrite set_entry_set_entry|]; reflexivity.
Qed.

Lemma assoc_tmp t rest : assoc (py ".tmp") (es1 ++ (py ".tmp", t) :: rest) = Some t.
Proof.
  rewrite (assoc_app_none _ _ _ Htmp). cbn [assoc].
  rewrite str_eqb_refl. reflexivity.
Qed.

Lemma set_entry_tmp t t' rest :
  set_entry (py ".tmp") t' (es1 ++ (py ".tmp", t) :: rest)
  = es1 ++ (py ".tmp", t') :: rest.
Proof.
  rewrite (set_entry_app_none _ _ _ _ Htmp). cbn [set_entry].
  rewrite str_eqb_refl. reflexivity.
Qed.

Lemma lookup_with_tmp t rest q :
  lookup (with_tmp t rest) (py ".tmp" :: q) = lookup t q.
Proof. unfold with_tmp. cbn [lookup]. rewrite assoc_tmp. reflexivity. Qed.

Lemma makedirs_at_with_tmp t rest q :
  makedirs_at (py ".tmp" :: q) (with_tmp t rest) =
  match makedirs_at q t with
  | Ok t' => Ok (with_tmp t' rest)
  | Raise e => Raise e
  end.
Proof.
  unfold with_tmp. cbn [makedirs_at]. rewrite assoc_tmp.
  destruct (makedirs_at q t); [rewrite set_entry_tmp|]; reflexivity.
Qed.

Lemma write_at_with_tmp t rest q d :
  write_at (py ".tmp" :: q) d (with_tmp t rest) =
  match write_at q d t with
  | Ok t' => Ok (with_tmp t' rest)
  | Raise e => Raise e
  end.
Proof.
  unfold with_tmp. cbn [write_at]. rewrite assoc_tmp.
  destruct (write_at q d t); [rewrite set_entry_tmp|]; reflexivity.
Qed.

Lemma makedirs_at_fresh_tmp :
  makedirs_at [py ".tmp"] (Dir es1) = Ok (with_tmp (Dir []) []).
Proof. cbn [makedirs_at]. rewrite Htmp. reflexivity. Qed.

Lemma rmtree_at_with_tmp k rest :
  rmtree_at [py ".tmp"] (with_tmp (Dir k) rest) = Ok (Dir (es1 ++ rest)).
Proof.
  unfold with_tmp. cbn [rmtree_at]. rewrite assoc_tmp.
  rewrite (remove_entry_app_none _ _ _ Htmp). cbn [remove_entry].
  rewrite str_eqb_refl. reflexivity.
Qed.

Lemma assoc_safe t rest :
  assoc safe (es1 ++ (py ".tmp", t) :: rest) = assoc safe rest.
Proof.
  rewrite (assoc_app_none _ _ _ Hsafe). cbn [assoc].
  rewrite (str_eqb_neq _ _ tmp_not_safe). reflexivity.
Qed.

Lemma makedirs_at_paper t :
  makedirs_at [safe] (with_tmp t []) = Ok (with_tmp t [(safe, Dir [])]).
Proof.
  unfold with_tmp. cbn [makedirs_at]. rewrite assoc_safe. cbn [assoc mkchain].
  rewrite <- app_assoc. reflexivity.
Qed.

Lemma lookup_paper t sub q :
  lookup (with_tmp t [(safe, sub)]) (safe :: q) = lookup sub q.
Proof.
  unfold with_tmp. cbn [lookup]. rewrite assoc_safe. cbn [assoc].
  rewrite str_eqb_refl. reflexivity.
Qed.

Lemma write_at_paper t :
  write_at [safe; x] data (with_tmp t [(safe, Dir [])])
  = Ok (with_tmp t [(safe, paper)]).
Proof.
  unfold with_tmp. cbn [write_at]. rewrite assoc_safe. cbn [assoc].
  rewrite str_eqb_refl. cbn [assoc app].
  rewrite (set_entry_app_none _ _ _ _ Hsafe). cbn [set_entry].
  rewrite (str_eqb_neq _ _ tmp_not_safe), str_eqb_refl. reflexivity.
Qed.

(** *** The trees of the run, one after the other *)

Definition tree1 : node := rooted (Dir es1).
Definition tree2 : node := rooted (with_tmp (Dir []) []).
Definition tree3 : node := rooted (with_tmp tmp2 []).
Definition tree4 : node := rooted (with_tmp tmp3 []).
Definition tree5 : node := rooted (with_tmp tmp4 []).
Definition tree6 : node := rooted (with_tmp tmp4 [(safe, Dir [])]).
Definition tree7 : node := rooted (with_tmp tmp4 [(safe, paper)]).
Definition tree8 : node := rooted (Dir (es1 ++ [(safe, paper)])).

Definition tmp_dir : path := [o; py ".tmp"].
Definition pdf_path : path := [o; py ".tmp"; x].
Definition mineru_output : path := [o; py ".tmp"; py "mineru_output"].
Definition images_dir : path := [o; py ".tmp"; py "images"].
Definition paper_dir : path := [o; safe].

Lemma step_tmp : makedirs_at tmp_dir tree1 = Ok tree2.
Proof.
  unfold tmp_dir, tree1. rewrite makedirs_at_rooted, makedirs_at_fresh_tmp.
  reflexivity.
Qed.

Lemma step_tmp_again : makedirs_at tmp_dir tree2 = Ok tree2.
Proof.
  unfold tmp_dir, tree2. rewrite makedirs_at_rooted, makedirs_at_with_tmp.
  reflexivity.
Qed.

Lemma step_write : write_at pdf_path data tree2 = Ok tree3.
Proof.
  unfold pdf_path, tree2. rewrite write_at_rooted, write_at_with_tmp.
  reflexivity.
Qed.

Lemma step_mineru_output : makedirs_at mineru_output tree3 = Ok tree4.
Proof.
  unfold mineru_output, tree3. rewrite makedirs_at_rooted, makedirs_at_with_tmp.
  unfold tmp2. cbn [makedirs_at assoc].
  rewrite (str_eqb_neq _ _ x_not_mineru_output). reflexivity.
Qed.

Lemma lookup_mineru_output q :
  lookup tree4 (mineru_output ++ q) = lookup (Dir []) q.
Proof.
  unfold mineru_output, tree4. cbn [app].
  rewrite lookup_rooted, lookup_with_tmp. unfold tmp3. cbn [lookup assoc].
  rewrite (str_eqb_neq _ _ x_not_mineru_output), str_eqb_refl. reflexivity.
Qed.

Lemma no_conventional_images :
  find (exists_ tree4) (possible_paths mineru_output safe) = None.
Proof.
  unfold possible_paths. rewrite !(join_nonempty _ _ Hne).
  rewrite !join_nonempty by discriminate. rewrite <- !app_assoc.
  cbn [find]. unfold exists_. rewrite !lookup_mineru_output.
  destruct safe; [congruence|]. reflexivity.
Qed.

Lemma no_images_found : walk_for_images tree4 mineru_output = None.
Proof.
  unfold walk_for_images, walk_from.
  change (match mineru_output with
          | [] => []
          | _ :: _ =>
              match lookup tree4 mineru_output with
              | Some sub => walk mineru_output sub
              | None => []
              end
          end)
    with (match lookup tree4 mineru_output with
          | Some sub => walk mineru_output sub
          | None => []
          end).
  rewrite <- (app_nil_r mineru_output) at 1. rewrite lookup_mineru_output.
  reflexivity.
Qed.

Lemma step_images : makedirs_at images_dir tree4 = Ok tree5.
Proof.
  unfold images_dir, tree4. rewrite makedirs_at_rooted, makedirs_at_with_tmp.
  unfold tmp3. cbn [makedirs_at assoc].
  rewrite (str_eqb_neq _ _ x_not_images).
  rewrite (str_eqb_neq (py "mineru_output") (py "images")) by discriminate.
  reflexivity.
Qed.

Lemma step_paper_dir : makedirs_at paper_dir tree5 = Ok tree6.
Proof.
  unfold paper_dir, tree5. rewrite makedirs_at_rooted, makedirs_at_paper.
  reflexivity.
Qed.

Lemma lookup_images : lookup tree6 images_dir = Some (Dir []).
Proof.
  unfold images_dir, tree6. rewrite lookup_rooted, lookup_with_tmp.
  unfold tmp4. cbn [lookup assoc].
  rewrite (str_eqb_neq _ _ x_not_images).
  rewrite (str_eqb_neq (py "mineru_output") (py "images")) by discriminate.
  rewrite str_eqb_refl. reflexivity.
Qed.

Lemma lookup_pdf : lookup tree6 pdf_path = Some (File data).
Proof.
  unfold pdf_path, tree6. rewrite lookup_rooted, lookup_with_tmp.
  unfold tmp4. cbn [lookup assoc]. rewrite str_eqb_refl. reflexivity.
Qed.

Lemma lookup_output_pdf : lookup tree6 (paper_dir ++ [x]) = None.
Proof.
  unfold paper_dir, tree6. cbn [app]. rewrite lookup_rooted, lookup_paper.
  reflexivity.
Qed.

Lemma step_copy_pdf : write_at (paper_dir ++ [x]) data tree6 = Ok tree7.
Proof.
  unfold paper_dir, tree6. cbn [app]. rewrite write_at_rooted, write_at_paper.
  reflexivity.
Qed.

Lemma step_cleanup : rmtree_at tmp_dir tree7 = Ok tree8.
Proof.
  unfold tmp_dir, tree7. rewrite rmtree_at_rooted.
  unfold tmp4. rewrite rmtree_at_with_tmp. reflexivity.
Qed.

Lemma isdir_paper_dir : isdir tree6 paper_dir = true.
Proof.
  unfold isdir, paper_dir, tree6. rewrite lookup_rooted, lookup_paper.
  reflexivity.
Qed.

(** *** The two phases of the run *)

Lemma prepare_first_run chunks pdf_url cmd n :
  List.concat chunks = data ->
  makedirs_at [o] n = Ok tree1 ->
  prepare (HttpBody chunks None) pdf_url cmd [o] tmp_dir pdf_path
    mineru_output n
  = (None, tree4, [EvHttpGet pdf_url; EvTool cmd]).
Proof.
  intros Hdata Hmk. unfold prepare. cbn [os_makedirs tmp_dir mineru_output].
  rewrite Hmk. fold tmp_dir. rewrite step_tmp.
  change (dirname pdf_path) with tmp_dir. cbn [os_makedirs tmp_dir].
  fold tmp_dir.
  rewrite step_tmp_again, PipelineLaws.written_chunks, Hdata, step_write,
    step_mineru_output.
  reflexivity.
Qed.

Lemma tool_phase_first_run (U : unicode_db) (X : externals) cmd t :
  (forall cmd n, run_tool X cmd n = ToolDone n) ->
  sanitize_filename U safe = safe ->
  tool_phase U X cmd [o] tmp_dir pdf_path mineru_output safe (World tree4 t)
  = (Ok true, World tree8 t).
Proof.
  intros Htool Hid. unfold tool_phase, run_mineru. unfold_monad.
  cbn [fs trace]. rewrite Htool. cbv beta iota.
  unfold locate_images. unfold_monad. cbn [fs trace].
  change (basename pdf_path) with x. rewrite splitext_root_x.
  rewrite no_conventional_images, no_images_found.
  change (join tmp_dir (py "images")) with images_dir.
  unfold_monad. cbn [fs trace].
  change (os_makedirs images_dir tree4) with (makedirs_at images_dir tree4).
  rewrite step_images. cbn [fs trace].
  unfold stage_outputs.
  change (basename pdf_path) with x. rewrite splitext_root_x.
  rewrite str_eqb_refl, orb_true_r. unfold bind at 1.
  rewrite PipelineLaws.copy_images_to_output_run. cbn [fs trace].
  rewrite (join_nonempty [o] safe Hne).
  change ([o] ++ [safe]) with paper_dir.
  change (os_makedirs paper_dir tree5) with (makedirs_at paper_dir tree5).
  rewrite step_paper_dir.
  change (os_path_exists tree6 images_dir) with (exists_ tree6 images_dir).
  unfold exists_. rewrite lookup_images. cbn [map copy_loop]. unfold ret at 1.
  rewrite Hid. change (safe ++ py ".pdf") with x.
  rewrite (join_nonempty paper_dir x x_nonempty).
  destruct (copy2_file pdf_path paper_dir x (World tree6 t) data)
    as (n' & Hcopy & Hw).
  { exact lookup_pdf. }
  { exact isdir_paper_dir. }
  { unfold isdir. cbn [fs]. rewrite lookup_output_pdf. reflexivity. }
  { unfold pdf_path, paper_dir. cbn [app]. intros E.
    apply tmp_not_safe. congruence. }
  cbn [fs] in Hw. rewrite step_copy_pdf in Hw. injection Hw as <-.
  unfold bind. rewrite Hcopy. unfold try_except, rmtree, update_fs.
  cbn [fs trace]. rewrite step_cleanup. reflexivity.
Qed.

End Trees.

Section Run.
Context (U : unicode_db) (X : externals).

(** X23.  A first run for a paper, with a tool that extracts nothing:
    the output directory, a name [o] in the current directory, is there or
    can be made, it holds neither [.tmp]
    nor an entry named after the paper, the download succeeds, the tool
    returns without writing.  Then [process_arxiv_paper] returns [True] and
    the program exits with status 0; the output directory has gained the
    directory [<id>] holding [<id>.pdf] with the bytes downloaded, and
    nothing else: the workspace [.tmp] is gone.  One request and one call
    of the tool were made. *)
Theorem first_run_stores_the_paper
  (arxiv_url pdf_url paper_id : str) (o : str) (E1 es1 : list (str * node))
  (chunks : list bytes) (w : world) :
  o <> [] ->
  parse_arxiv_url U arxiv_url = Some pdf_url ->
  extract_arxiv_id U arxiv_url = Some paper_id ->
  sanitize_filename U paper_id <> [] ->
  http_get X pdf_url = HttpBody chunks None ->
  (forall cmd n, run_tool X cmd n = ToolDone n) ->
  makedirs_at [o] (fs w) = Ok (Dir E1) ->
  assoc o E1 = Some (Dir es1) ->
  assoc (py ".tmp") es1 = None ->
  assoc (sanitize_filename U paper_id) es1 = None ->
  let safe := sanitize_filename U paper_id in
  let data := List.concat chunks in
  let stored :=
    Dir (set_entry o
           (Dir (es1 ++ [(safe, Dir [(safe ++ py ".pdf", File data)])])) E1) in
  let calls :=
    [EvHttpGet pdf_url; EvTool (command_of U [o] paper_id)] in
  process_arxiv_paper U X arxiv_url [o] w
  = (Ok true, World stored (trace w ++ calls)) /\
  main U X (Some arxiv_url) None [o] w
  = (Ok 0%Z, World stored (trace w ++ calls)) /\
  read_at [o; safe; safe ++ py ".pdf"] stored = Ok data /\
  exists_ stored [o; py ".tmp"] = false.
Proof.
  intros _ Hp He Hne Hget Htool Hmk Ho Htmp Hsafe safe data stored calls.
  destruct w as [n t]. cbn [fs trace] in *.
  assert (Hurl : pdf_url <> []).
  { pose proof Hp as Hp'. rewrite ResolverLaws.parse_arxiv_url_by_id in Hp'.
    destruct (extract_arxiv_id U (strip U arxiv_url)); [|discriminate].
    injection Hp' as <-. discriminate. }
  destruct pdf_url as [|c pu]; [congruence|].
  destruct paper_id as [|c' id]; [exfalso; apply Hne; reflexivity|].
  pose proof (ResolverLaws.sanitize_filename_trimmed U (c' :: id)) as Htrim.
  pose proof (sanitize_filename_idempotent U (c' :: id)) as Hid.
  fold safe in Hne, Hsafe, Htrim, Hid.
  assert (Hroot : Dir E1 = tree1 o E1 es1).
  { unfold tree1, rooted. rewrite (set_entry_same _ _ _ Ho). reflexivity. }
  rewrite Hroot in Hmk.
  assert (Hrun : process_arxiv_paper U X arxiv_url [o] (World n t)
                 = (Ok true, World stored (t ++ calls))).
  { unfold process_arxiv_paper, try_except.
    rewrite (process_try_phases U X _ _ _ _ _ _ n t Hp He), Hget.
    rewrite pdf_of_eq, mineru_output_of_eq. cbn [app]. fold safe.
    change (tmp_of [o]) with (tmp_dir o).
    change [o; py ".tmp"; safe ++ py ".pdf"] with (pdf_path o safe).
    change [o; py ".tmp"; py "mineru_output"] with (mineru_output o).
    rewrite (prepare_first_run o E1 es1 safe data Htmp chunks _ _ _ eq_refl
               Hmk).
    rewrite (tool_phase_first_run o E1 es1 safe data Htmp Hsafe Hne Htrim
               U X _ _ Htool Hid).
    reflexivity. }
  split; [exact Hrun|]. split; [|split].
  - unfold main. destruct arxiv_url as [|a u]; [discriminate Hp|].
    unfold bind. rewrite Hrun. reflexivity.
  - unfold read_at, stored. cbn [lookup].
    rewrite assoc_set_entry_same, (assoc_app_none _ _ _ Hsafe).
    cbn [assoc]. rewrite str_eqb_refl. cbn [lookup assoc].
    rewrite str_eqb_refl. reflexivity.
  - unfold exists_, stored. cbn [lookup].
    rewrite assoc_set_entry_same, (assoc_app_none _ _ _ Htmp).
    cbn [assoc].
    rewrite (str_eqb_neq safe (py ".tmp")); [reflexivity|].
    intros E. exact (tmp_not_safe safe Htrim (eq_sym E)).
Qed.

End Run.

Import Toy.

Lemma first_run_stores_the_paper_witness :
  process_arxiv_paper ascii_only silent_tool abs_2412 [py "output"]
    (start (Dir []))
  = (Ok true,
     World (Dir (set_entry (py "output")
                   (Dir ([] ++ [(sanitize_filename ascii_only (py "2412.15289"),
                                 Dir [(sanitize_filename ascii_only
                                         (py "2412.15289") ++ py ".pdf",
                                       File PipelineLaws.body)])]))
                   [(py "output", Dir [])]))
       (trace (start (Dir [])) ++
        [EvHttpGet PipelineLaws.pdf_2412;
         EvTool (command_of ascii_only [py "output"] (py "2412.15289"))])) /\
  main ascii_only silent_tool (Some abs_2412) None [py "output"]
    (start (Dir []))
  = (Ok 0%Z,
     World (Dir (set_entry (py "output")
                   (Dir ([] ++ [(sanitize_filename ascii_only (py "2412.15289"),
                                 Dir [(sanitize_filename ascii_only
                                         (py "2412.15289") ++ py ".pdf",
                                       File PipelineLaws.body)])]))
                   [(py "output", Dir [])]))
       (trace (start (Dir [])) ++
        [EvHttpGet PipelineLaws.pdf_2412;
         EvTool (command_of ascii_only [py "output"] (py "2412.15289"))])) /\
  read_at [py "output"; sanitize_filename ascii_only (py "2412.15289");
           sanitize_filename ascii_only (py "2412.15289") ++ py ".pdf"]
    (Dir (set_entry (py "output")
            (Dir ([] ++ [(sanitize_filename ascii_only (py "2412.15289"),
                          Dir [(sanitize_filename ascii_only
                                  (py "2412.15289") ++ py ".pdf",
                                File PipelineLaws.body)])]))
            [(py "output", Dir [])]))
  = Ok PipelineLaws.body /\
  exists_
    (Dir (set_entry (py "output")
            (Dir ([] ++ [(sanitize_filename ascii_only (py "2412.15289"),
                          Dir [(sanitize_filename ascii_only
                                  (py "2412.15289") ++ py ".pdf",
                                File PipelineLaws.body)])]))
            [(py "output", Dir [])]))
    [py "output"; py ".tmp"] = false.
Proof.
  apply (first_run_stores_the_paper ascii_only silent_tool abs_2412
           PipelineLaws.pdf_2412 (py "2412.15289") (py "output")
           [(py "output", Dir [])] [] [PipelineLaws.body] (start (Dir [])));
    try reflexivity; discriminate.
Defined.

(** The tree the run leaves, written out. *)
Example first_run_tree :
  fs (snd (process_arxiv_paper ascii_only silent_tool abs_2412 [py "output"]
             (start (Dir []))))
  = Dir [ (py "output",
           Dir [ (py "2412.15289",
                  Dir [ (py "2412.15289.pdf", File PipelineLaws.body) ]) ]) ].
Proof. vm_compute. reflexivity. Qed.

End FirstRun.
